(** * A calculator with an operation factory and undo/redo history

    Shallow embedding of [app/operations.py] (the six arithmetic operations
    and [OperationFactory]) together with the parts of Python's [decimal],
    [float] and [datetime] that the operations and the records rely on.
    The calculation record, the memento and the engine, whose modules are
    not among the sources, are modelled from the specification; each of
    their definitions says so.

    The definitions come first: exceptions, decimals, floats, the
    operations and the factory, datetimes, the engine, and the notions
    that the statements use.  The properties follow: division by zero,
    the factory, roots, the engine, the strings of decimals and datetimes,
    serialization, exact arithmetic, and powers; then more on the factory,
    on the four arithmetic operations (what they raise, the range of
    their results, operands in either order, NaNs), on powers and roots
    of special values, on rounding, and on division. *)

From Stdlib Require Import ZArith Lia Bool List Ascii String.
From Stdlib Require Import Floats.SpecFloat.
From stdpp Require Import gmap strings.

Local Open Scope Z_scope.

(** ** Exceptions and results *)

(** The exception classes that the program and the libraries it calls can
    raise.  [ValidationError] and [OperationError] are the application's own
    ([app.exceptions]); [InvalidOperation], [DivisionByZero] and [Overflow]
    are the trapped signals of the [decimal] module; the others are
    built-in. *)
Inductive PyException : Type :=
  | ValidationError
  | OperationError
  | TypeError (msg : string)
  | ValueError (msg : string)
  | ZeroDivisionError (msg : string)
  | OverflowError (msg : string)
  | AttributeError (msg : string)
  | InvalidOperation
  | DivisionByZero
  | Overflow.

Inductive Result (A : Type) : Type :=
  | Ok (a : A)
  | Raise (e : PyException).

Arguments Ok {A} a.
Arguments Raise {A} e.

(** [Result] is an error monad: [x ← r; k] runs [k] on the value of [r]
    and propagates the exception that [r] raises. *)
#[global] Instance Result_ret : MRet Result := fun A a => Ok a.

#[global] Instance Result_bind : MBind Result := fun A B k r =>
  match r with
  | Ok a => k a
  | Raise e => Raise e
  end.

Definition is_Ok {A : Type} (r : Result A) : bool :=
  match r with Ok _ => true | Raise _ => false end.

Definition raises {A : Type} (r : Result A) : Prop :=
  exists e, r = Raise e.

(** ** Python's [decimal] arithmetic *)

Module decimal.

(** A [Decimal] is a sign, a coefficient and an exponent, or one of the
    special values.  The coefficient is the integer that Python keeps as
    the digit string [_int]. *)
Inductive Decimal : Type :=
  | Finite (sign : bool) (coeff : N) (exp : Z)
  | Infinity (sign : bool)
  | NaN (sign : bool) (signaling : bool) (payload : N).

Definition _is_special (d : Decimal) : bool :=
  match d with Finite _ _ _ => false | _ => true end.

Definition _isinfinity (d : Decimal) : bool :=
  match d with Infinity _ => true | _ => false end.

Definition _sign (d : Decimal) : bool :=
  match d with Finite s _ _ | Infinity s | NaN s _ _ => s end.

(** [bool(d)]: a decimal is false exactly when it is a finite zero. *)
Definition nonzero (d : Decimal) : bool :=
  match d with Finite _ c _ => negb (c =? 0)%N | _ => true end.

(** [len(str(n))] for a non-negative integer. *)
Fixpoint ndigits_aux (fuel : nat) (n : Z) : Z :=
  match fuel with
  | O => 1
  | S f => if n <? 10 then 1 else 1 + ndigits_aux f (n / 10)
  end.

Definition ndigits (n : Z) : Z := ndigits_aux (Z.to_nat (Z.log2 n)) n.

Inductive RoundingMode : Type :=
  | ROUND_DOWN | ROUND_UP | ROUND_HALF_UP | ROUND_HALF_DOWN
  | ROUND_HALF_EVEN | ROUND_CEILING | ROUND_FLOOR | ROUND_05UP.

(** The arithmetic context.  The traps are those of Python's default
    context: [InvalidOperation], [DivisionByZero] and [Overflow] raise, the
    other signals only set flags, which are not modelled. *)
Record Context : Type := {
  prec : Z;
  rounding : RoundingMode;
  Emin : Z;
  Emax : Z;
  clamp : bool
}.

Definition DefaultContext : Context :=
  {| prec := 28; rounding := ROUND_HALF_EVEN;
     Emin := -999999; Emax := 999999; clamp := false |}.

Definition Etiny (ctx : Context) : Z := Emin ctx - prec ctx + 1.
Definition Etop (ctx : Context) : Z := Emax ctx - prec ctx + 1.

(** The rounding functions: the coefficient is split into the kept digits
    [q] and the [k] dropped digits [r]; the answer is [1] to round away
    from zero, [0] when the dropped digits are all zero, [-1] to truncate. *)
Definition _round_down (r : Z) : Z := if r =? 0 then 0 else -1.

Definition _round_half_up (r half : Z) : Z :=
  if half <=? r then 1 else if r =? 0 then 0 else -1.

Definition _round (mode : RoundingMode) (sign : bool) (q r half : Z) : Z :=
  match mode with
  | ROUND_DOWN => _round_down r
  | ROUND_UP => - _round_down r
  | ROUND_HALF_UP => _round_half_up r half
  | ROUND_HALF_DOWN => if r =? half then -1 else _round_half_up r half
  | ROUND_HALF_EVEN =>
      if (r =? half) && Z.even q then -1 else _round_half_up r half
  | ROUND_CEILING => if sign then _round_down r else - _round_down r
  | ROUND_FLOOR => if sign then - _round_down r else _round_down r
  | ROUND_05UP =>
      if negb ((q mod 10 =? 0) || (q mod 10 =? 5)) then _round_down r
      else - _round_down r
  end.

(** NaN payloads are cut to the precision. *)
Definition _fix_nan (ctx : Context) (d : Decimal) : Decimal :=
  match d with
  | NaN s sig p =>
      let max_payload_len := prec ctx - (if clamp ctx then 1 else 0) in
      NaN s sig (Z.to_N (Z.of_N p mod 10 ^ max_payload_len))
  | _ => d
  end.

(** [Decimal._fix]: round to the context's precision and exponent range. *)
Definition _fix (ctx : Context) (d : Decimal) : Result Decimal :=
  match d with
  | NaN _ _ _ => Ok (_fix_nan ctx d)
  | Infinity _ => Ok d
  | Finite s cN e =>
      let c := Z.of_N cN in
      if c =? 0 then
        let exp_max := if clamp ctx then Etop ctx else Emax ctx in
        Ok (Finite s 0 (Z.min (Z.max e (Etiny ctx)) exp_max))
      else
        let exp_min := ndigits c + e - prec ctx in
        if Etop ctx <? exp_min then Raise Overflow
        else
          let exp_min := Z.max exp_min (Etiny ctx) in
          if e <? exp_min then
            let digits := ndigits c + e - exp_min in
            (* fewer than zero digits to keep: round 1E(exp_min-1) instead *)
            let '(c1, e1) := if digits <? 0 then (1, exp_min - 1) else (c, e) in
            let k := exp_min - e1 in
            let q := c1 / 10 ^ k in
            let r := c1 mod 10 ^ k in
            let changed := _round (rounding ctx) s q r (5 * 10 ^ (k - 1)) in
            let coeff := if 0 <? changed then q + 1 else q in
            let carry := (0 <? changed) && (prec ctx <? ndigits coeff) in
            let coeff := if carry then coeff / 10 else coeff in
            let exp_min := if carry then exp_min + 1 else exp_min in
            if Etop ctx <? exp_min then Raise Overflow
            else Ok (Finite s (Z.to_N coeff) exp_min)
          else if clamp ctx && (Etop ctx <? e) then
            Ok (Finite s (Z.to_N (c * 10 ^ (e - Etop ctx))) (Etop ctx))
          else Ok d
  end.

(** [Decimal._check_nans]: a signaling NaN operand is an invalid operation,
    a quiet one is the result. *)
Definition _check_nans (ctx : Context) (a b : Decimal) : option (Result Decimal) :=
  match a, b with
  | NaN _ true _, _ => Some (Raise InvalidOperation)
  | _, NaN _ true _ => Some (Raise InvalidOperation)
  | NaN _ false _, _ => Some (Ok (_fix_nan ctx a))
  | _, NaN _ false _ => Some (Ok (_fix_nan ctx b))
  | _, _ => None
  end.

Definition copy_negate (d : Decimal) : Decimal :=
  match d with
  | Finite s c e => Finite (negb s) c e
  | Infinity s => Infinity (negb s)
  | NaN s sig p => NaN (negb s) sig p
  end.

(** [Decimal._rescale]: the same number with exponent [exp], padded with
    zeros or rounded. *)
Definition _rescale (d : Decimal) (exp : Z) (mode : RoundingMode) : Decimal :=
  match d with
  | Finite s cN e =>
      let c := Z.of_N cN in
      if c =? 0 then Finite s 0 exp
      else if exp <=? e then Finite s (Z.to_N (c * 10 ^ (e - exp))) exp
      else
        let digits := ndigits c + e - exp in
        let '(c1, e1) := if digits <? 0 then (1, exp - 1) else (c, e) in
        let k := exp - e1 in
        let q := c1 / 10 ^ k in
        let r := c1 mod 10 ^ k in
        let changed := _round mode s q r (5 * 10 ^ (k - 1)) in
        Finite s (Z.to_N (if changed =? 1 then q + 1 else q)) exp
  | _ => d
  end.

(** [_normalize]: bring two non-zero operands of an addition to the same
    exponent.  An operand too small to matter at the given precision is
    replaced by a one at an exponent just below the other's last kept
    digit.  The result is the two integers and their common exponent. *)
Definition _normalize (c1 e1 c2 e2 prec : Z) : Z * Z * Z :=
  if e1 <? e2 then
    (* tmp is operand 2, other is operand 1 *)
    let exp := e2 + Z.min (-1) (ndigits c2 - prec - 2) in
    let '(c1, e1) := if ndigits c1 + e1 - 1 <? exp then (1, exp) else (c1, e1) in
    (c1, c2 * 10 ^ (e2 - e1), e1)
  else
    let exp := e1 + Z.min (-1) (ndigits c1 - prec - 2) in
    let '(c2, e2) := if ndigits c2 + e2 - 1 <? exp then (1, exp) else (c2, e2) in
    (c1 * 10 ^ (e1 - e2), c2, e2).

(** [Decimal.__add__] *)
Definition add (ctx : Context) (a b : Decimal) : Result Decimal :=
  match _check_nans ctx a b with
  | Some r => r
  | None =>
      match a, b with
      | Infinity sa, Infinity sb =>
          if negb (eqb sa sb) then Raise InvalidOperation else Ok a
      | Infinity _, _ => Ok a
      | _, Infinity _ => Ok b
      | Finite sa caN ea, Finite sb cbN eb =>
          let ca := Z.of_N caN in
          let cb := Z.of_N cbN in
          let exp := Z.min ea eb in
          let negativezero :=
            match rounding ctx with
            | ROUND_FLOOR => negb (eqb sa sb)
            | _ => false
            end in
          if (ca =? 0) && (cb =? 0) then
            _fix ctx (Finite ((sa && sb) || negativezero) 0 exp)
          else if ca =? 0 then
            _fix ctx (_rescale b (Z.max exp (eb - prec ctx - 1)) (rounding ctx))
          else if cb =? 0 then
            _fix ctx (_rescale a (Z.max exp (ea - prec ctx - 1)) (rounding ctx))
          else
            let '(i1, i2, e) := _normalize ca ea cb eb (prec ctx) in
            if negb (eqb sa sb) then
              if i1 =? i2 then _fix ctx (Finite negativezero 0 exp)
              else if i1 <? i2 then _fix ctx (Finite sb (Z.to_N (i2 - i1)) e)
              else _fix ctx (Finite sa (Z.to_N (i1 - i2)) e)
            else _fix ctx (Finite sa (Z.to_N (i1 + i2)) e)
      | _, _ => Ok a
      end
  end.

(** [Decimal.__sub__]: [a + (-b)], after the check for NaNs. *)
Definition sub (ctx : Context) (a b : Decimal) : Result Decimal :=
  match _check_nans ctx a b with
  | Some r => r
  | None => add ctx a (copy_negate b)
  end.

(** [Decimal.__mul__] *)
Definition mul (ctx : Context) (a b : Decimal) : Result Decimal :=
  let resultsign := xorb (_sign a) (_sign b) in
  match _check_nans ctx a b with
  | Some r => r
  | None =>
      match a, b with
      | Infinity _, _ =>
          if nonzero b then Ok (Infinity resultsign) else Raise InvalidOperation
      | _, Infinity _ =>
          if nonzero a then Ok (Infinity resultsign) else Raise InvalidOperation
      | Finite _ ca ea, Finite _ cb eb =>
          _fix ctx (Finite resultsign (ca * cb)%N (ea + eb))
      | _, _ => Ok a
      end
  end.

(** The loop of [__truediv__] that strips trailing zeros of an exact
    quotient while the exponent is below the ideal one. *)
Fixpoint strip_zeros (fuel : nat) (coeff exp ideal_exp : Z) : Z * Z :=
  match fuel with
  | O => (coeff, exp)
  | S f =>
      if (exp <? ideal_exp) && (coeff mod 10 =? 0)
      then strip_zeros f (coeff / 10) (exp + 1) ideal_exp
      else (coeff, exp)
  end.

(** [Decimal.__truediv__] *)
Definition truediv (ctx : Context) (a b : Decimal) : Result Decimal :=
  let sign := xorb (_sign a) (_sign b) in
  match _check_nans ctx a b with
  | Some r => r
  | None =>
      match a, b with
      | Infinity _, Infinity _ => Raise InvalidOperation
      | Infinity _, _ => Ok (Infinity sign)
      | _, Infinity _ => Ok (Finite sign 0 (Etiny ctx))
      | Finite _ caN ea, Finite _ cbN eb =>
          let ca := Z.of_N caN in
          let cb := Z.of_N cbN in
          if cb =? 0 then
            if ca =? 0 then Raise InvalidOperation (* DivisionUndefined *)
            else Raise DivisionByZero
          else if ca =? 0 then _fix ctx (Finite sign 0 (ea - eb))
          else
            let shift := ndigits cb - ndigits ca + prec ctx + 1 in
            let exp := ea - eb - shift in
            let '(coeff, remainder) :=
              if 0 <=? shift then
                ((ca * 10 ^ shift) / cb, (ca * 10 ^ shift) mod cb)
              else
                (ca / (cb * 10 ^ (- shift)), ca mod (cb * 10 ^ (- shift))) in
            let '(coeff, exp) :=
              if negb (remainder =? 0) then
                (if coeff mod 5 =? 0 then coeff + 1 else coeff, exp)
              else
                strip_zeros (Z.to_nat (ea - eb - exp)) coeff exp (ea - eb) in
            _fix ctx (Finite sign (Z.to_N coeff) exp)
      | _, _ => Ok a
      end
  end.

(** *** Decimals and strings *)

(** Strings are sequences of code points below 256; the conversions work
    on the list of characters. *)
Definition digit_char (d : N) : ascii := ascii_of_N (48 + d).

Definition is_digit (c : ascii) : bool :=
  ((48 <=? N_of_ascii c) && (N_of_ascii c <=? 57))%N.

Definition digit_val (c : ascii) : N := (N_of_ascii c - 48)%N.

(** [str(n)] for a non-negative integer, the last digit first computed. *)
Fixpoint str_N_aux (fuel : nat) (n : N) (acc : list ascii) : list ascii :=
  match fuel with
  | O => acc
  | S f =>
      let acc' := digit_char (n mod 10) :: acc in
      if (n <? 10)%N then acc' else str_N_aux f (n / 10) acc'
  end.

Definition str_N (n : N) : list ascii :=
  str_N_aux (S (N.to_nat (N.log2 n))) n [].

(** [int(s)] for a string of digits. *)
Definition int_of_digits (l : list ascii) : N :=
  fold_left (fun acc c => (10 * acc + digit_val c)%N) l 0%N.

(** ["%+d" % z] *)
Definition format_signed (z : Z) : list ascii :=
  (if z <? 0 then "-"%char else "+"%char) :: str_N (Z.abs_N z).

(** The characters of [Decimal.__str__], the scientific string of a
    decimal. *)
Definition _str_finite (c : N) (e : Z) : list ascii :=
  let _int := str_N c in
  let len := Z.of_nat (length _int) in
  let leftdigits := e + len in
  let dotplace :=
    if (e <=? 0) && (-6 <? leftdigits) then leftdigits else 1 in
  let intpart :=
    if dotplace <=? 0 then ["0"%char]
    else if len <=? dotplace then
      _int ++ replicate (Z.to_nat (dotplace - len)) "0"%char
    else take (Z.to_nat dotplace) _int in
  let fracpart :=
    if dotplace <=? 0 then
      "."%char :: replicate (Z.to_nat (- dotplace)) "0"%char ++ _int
    else if len <=? dotplace then []
    else "."%char :: drop (Z.to_nat dotplace) _int in
  let exp :=
    if leftdigits =? dotplace then []
    else "E"%char :: format_signed (leftdigits - dotplace) in
  intpart ++ fracpart ++ exp.

Definition _str_chars (d : Decimal) : list ascii :=
  (if _sign d then ["-"%char] else [])
  ++ match d with
     | Infinity _ => list_ascii_of_string "Infinity"
     | NaN _ signaling p =>
         list_ascii_of_string (if signaling then "sNaN" else "NaN")
         ++ (if (p =? 0)%N then [] else str_N p)
     | Finite _ c e => _str_finite c e
     end.

Definition __str__ (d : Decimal) : string :=
  string_of_list_ascii (_str_chars d).

(** [str.isspace] on a code point below 256. *)
Definition is_space (c : ascii) : bool :=
  let n := N_of_ascii c in
  ((9 <=? n) && (n <=? 13) || (28 <=? n) && (n <=? 32)
   || (n =? 133) || (n =? 160))%N.

Fixpoint lstrip (l : list ascii) : list ascii :=
  match l with
  | c :: l' => if is_space c then lstrip l' else l
  | [] => []
  end.

(** [s.strip()] *)
Definition strip (l : list ascii) : list ascii :=
  rev (lstrip (rev (lstrip l))).

(** [s.replace("_", "")] *)
Definition remove_underscores (l : list ascii) : list ascii :=
  List.filter (fun c => negb (Ascii.eqb c "_")) l.

(** The longest prefix of digits, and the rest. *)
Fixpoint span_digits (l : list ascii) : list ascii * list ascii :=
  match l with
  | c :: l' =>
      if is_digit c then
        let '(ds, rest) := span_digits l' in (c :: ds, rest)
      else ([], l)
  | [] => ([], [])
  end.

(** An optional sign: whether it is a minus, and the rest. *)
Definition take_sign (l : list ascii) : bool * list ascii :=
  match l with
  | "-"%char :: l' => (true, l')
  | "+"%char :: l' => (false, l')
  | _ => (false, l)
  end.

(** Case-insensitive match of a lower-case word at the head of a string:
    the rest when it matches. *)
Fixpoint take_word (w l : list ascii) : option (list ascii) :=
  match w, l with
  | [], _ => Some l
  | x :: w', c :: l' =>
      if Ascii.eqb c x || Ascii.eqb c (ascii_of_N (N_of_ascii x - 32))
      then take_word w' l' else None
  | _ :: _, [] => None
  end.

(** The grammar of numeric strings ([_parser]): a sign, then a number with
    at least one digit and an optional exponent, or an infinity, or a NaN
    with its diagnostic digits. *)
Definition parse_special (sign : bool) (l : list ascii) : option Decimal :=
  match take_word (list_ascii_of_string "infinity") l,
        take_word (list_ascii_of_string "inf") l with
  | Some [], _ | _, Some [] => Some (Infinity sign)
  | _, _ =>
      let '(signaling, l1) :=
        match take_word ["s"%char] l with
        | Some l1 => (true, l1)
        | None => (false, l)
        end in
      match take_word (list_ascii_of_string "nan") l1 with
      | Some l2 =>
          let '(diag, rest) := span_digits l2 in
          match rest with
          | [] => Some (NaN sign signaling (int_of_digits diag))
          | _ => None
          end
      | None => None
      end
  end.

(** The optional fraction: a point and digits. *)
Definition take_fraction (l : list ascii) : list ascii * list ascii :=
  match l with
  | "."%char :: l' => span_digits l'
  | _ => ([], l)
  end.

(** The optional exponent, which ends the string: [E], a sign and at
    least one digit; [0] without it. *)
Definition parse_exponent (l : list ascii) : option Z :=
  match l with
  | [] => Some 0
  | c :: l' =>
      if Ascii.eqb c "E" || Ascii.eqb c "e" then
        let '(esign, l1) := take_sign l' in
        let '(edigits, l2) := span_digits l1 in
        match edigits, l2 with
        | _ :: _, [] =>
            let e := Z.of_N (int_of_digits edigits) in
            Some (if esign then - e else e)
        | _, _ => None
        end
      else None
  end.

Definition parse_number (sign : bool) (l : list ascii) : option Decimal :=
  let '(intpart, l1) := span_digits l in
  let '(fracpart, l2) := take_fraction l1 in
  exp ← parse_exponent l2;
  Some (Finite sign (int_of_digits (intpart ++ fracpart))
          (exp - Z.of_nat (length fracpart))).

Definition _parser (l : list ascii) : option Decimal :=
  let '(sign, l1) := take_sign l in
  match l1 with
  | c :: l2 =>
      if is_digit c
         || Ascii.eqb c "." && match l2 with d :: _ => is_digit d | [] => false end
      then parse_number sign l1
      else parse_special sign l1
  | [] => None
  end.

(** [Decimal(value)] for a string: a conversion syntax error is an invalid
    operation. *)
Definition Decimal_of_str (value : string) : Result Decimal :=
  match _parser (remove_underscores (strip (list_ascii_of_string value))) with
  | Some d => Ok d
  | None => Raise InvalidOperation
  end.

End decimal.

(** ** Python's [float] arithmetic *)

Module pyfloat.

Import decimal.

(** A Python [float] is an IEEE 754 binary64 number. *)
Definition float : Type := spec_float.

Definition fprec : Z := 53.
Definition femax : Z := 1024.

Definition fzero : float := S754_zero false.
Definition fone : float := S754_finite false 4503599627370496 (-52).

Definition is_nan (x : float) : bool :=
  match x with S754_nan => true | _ => false end.

Definition is_inf (x : float) : bool :=
  match x with S754_infinity _ => true | _ => false end.

Definition is_zero (x : float) : bool :=
  match x with S754_zero _ => true | _ => false end.

(** [x == floor(x)] for a finite [x]. *)
Definition is_integer (x : float) : bool :=
  match x with
  | S754_zero _ => true
  | S754_finite _ m e =>
      if 0 <=? e then true else Z.pos m mod 2 ^ (- e) =? 0
  | _ => false
  end.

(** [DOUBLE_IS_ODD_INTEGER(x)]: [fmod(fabs(x), 2.0) == 1.0]. *)
Definition is_odd_integer (x : float) : bool :=
  match x with
  | S754_finite _ m e =>
      if 0 <? e then false
      else (Z.pos m mod 2 ^ (- e) =? 0) && Z.odd (Z.pos m / 2 ^ (- e))
  | _ => false
  end.

(** [copysign(0.0, x)] *)
Definition copysign_zero (x : float) : float :=
  match x with
  | S754_zero s | S754_infinity s | S754_finite s _ _ => S754_zero s
  | S754_nan => S754_zero false
  end.

(** [Decimal.__float__]: [float(str(d))], the binary64 number nearest to
    the decimal (ties to even); a signaling NaN cannot be converted. *)
Definition __float__ (d : Decimal) : Result float :=
  match d with
  | NaN _ true _ => Raise (ValueError "cannot convert signaling NaN to float")
  | NaN _ false _ => Ok S754_nan
  | Infinity s => Ok (S754_infinity s)
  | Finite s c e =>
      match c with
      | N0 => Ok (S754_zero s)
      | Npos p =>
          Ok (SFdiv fprec femax
                (S754_finite s (p * Z.to_pos (10 ^ Z.max e 0)) 0)
                (S754_finite false (Z.to_pos (10 ^ Z.max (- e) 0)) 0))
      end
  end.

(** [x / y] on floats. *)
Definition float_truediv (x y : float) : Result float :=
  if is_zero y then Raise (ZeroDivisionError "float division by zero")
  else Ok (SFdiv fprec femax x y).

(** The number of trailing zero bits of a mantissa. *)
Fixpoint trailing_zeros (m : positive) : Z :=
  match m with
  | xO p => 1 + trailing_zeros p
  | _ => 0
  end.

(** [Decimal.from_float]: the exact decimal expansion of a float. *)
Definition from_float (x : float) : Decimal :=
  match x with
  | S754_nan => NaN false false 0
  | S754_infinity s => Infinity s
  | S754_zero s => Finite s 0 0
  | S754_finite s m e =>
      if 0 <=? e then Finite s (Z.to_N (Z.pos m * 2 ^ e)) 0
      else
        let g := Z.min (trailing_zeros m) (- e) in
        let k := - e - g in
        Finite s (Z.to_N (Z.pos m / 2 ^ g * 5 ^ k)) (- k)
  end.

(** What [pow] on two floats evaluates to: a float, or a complex number
    (whose value no caller here looks at). *)
Inductive Number : Type :=
  | Float (x : float)
  | Complex.

(** [Decimal(value)] for the value of a [pow]. *)
Definition Decimal_new (v : Number) : Result Decimal :=
  match v with
  | Float x => Ok (from_float x)
  | Complex =>
      Raise (TypeError "conversion from complex to Decimal is not supported")
  end.

(** The error indicator of the C library. *)
Inductive Errno : Type := ENONE | ERANGE | EDOM.

(** The C mathematical library: [pow] on doubles with the [errno] it sets,
    and the [errno] after the complex power of two doubles. *)
Class Libm : Type := {
  libm_pow : float -> float -> float * Errno;
  libm_cpow_errno : float -> float -> Errno
}.

Section float_pow.

Context `{Libm}.

(** Complex power of a negative float by a non-integral float. *)
Definition complex_pow (v w : float) : Result Number :=
  match libm_cpow_errno v w with
  | ENONE => Ok Complex
  | ERANGE => Raise (OverflowError "complex exponentiation")
  | EDOM => Raise (ZeroDivisionError "0.0 to a negative or complex power")
  end.

(** [_Py_ADJUST_ERANGE1] *)
Definition adjust_erange1 (x : float) (errno : Errno) : Errno :=
  match errno with
  | ENONE => if is_inf x then ERANGE else ENONE
  | ERANGE => if is_zero x then ENONE else ERANGE
  | EDOM => EDOM
  end.

(** [float.__pow__], the special cases sorted out before the C library's
    [pow] is called on a positive base other than one and a finite
    non-zero exponent. *)
Definition float_pow (iv iw : float) : Result Number :=
  if is_zero iw then Ok (Float fone)
  else if is_nan iv then Ok (Float iv)
  else if is_nan iw then
    Ok (Float (if SFeqb iv fone then fone else iw))
  else if is_inf iw then
    let iv := SFabs iv in
    if SFeqb iv fone then Ok (Float fone)
    else if eqb (SFltb fzero iw) (SFltb fone iv) then Ok (Float (SFabs iw))
    else Ok (Float fzero)
  else if is_inf iv then
    let iw_is_odd := is_odd_integer iw in
    if SFltb fzero iw then Ok (Float (if iw_is_odd then iv else SFabs iv))
    else Ok (Float (if iw_is_odd then copysign_zero iv else fzero))
  else if is_zero iv then
    if SFltb iw fzero then
      Raise (ZeroDivisionError "0.0 cannot be raised to a negative power")
    else Ok (Float (if is_odd_integer iw then iv else fzero))
  else if SFltb iv fzero && negb (is_integer iw) then complex_pow iv iw
  else
    let negate_result := SFltb iv fzero && is_odd_integer iw in
    let iv := SFabs iv in
    if SFeqb iv fone then
      Ok (Float (if negate_result then SFopp fone else fone))
    else
      let '(ix, errno) := libm_pow iv iw in
      let errno := adjust_erange1 ix errno in
      let ix := if negate_result then SFopp ix else ix in
      match errno with
      | ENONE => Ok (Float ix)
      | ERANGE => Raise (OverflowError "(34, 'Numerical result out of range')")
      | EDOM => Raise (ValueError "(33, 'Numerical argument out of domain')")
      end.

End float_pow.

End pyfloat.

(** ** [app/operations.py] *)

Module operations.

Import decimal pyfloat.

(** An address of the interpreter's heap. *)
Definition address : Type := nat.

(** What calling a class without arguments does, the check for abstract
    methods that [object.__new__] makes apart.
    - [by_object init]: the class keeps the construction of [object]:
      [object.__new__] builds a new object and [__init__] is called on it
      without arguments; [init] is what [__init__] does then, it returns
      or raises (a [TypeError] when it requires an argument).
    - [by_class outcome]: the class or its metaclass builds the instances
      itself ([__new__], [__call__]): the call raises, or it returns an
      object of some class, a new one ([None]) or one that exists already
      at an address. *)
Inductive Construction (T : Type) : Type :=
  | by_object (init : Result unit)
  | by_class (outcome : Result (T * option address)).

Arguments by_object {T} init.
Arguments by_class {T} outcome.

(** Class objects.  [Operation] is the abstract base class, the next six
    are the operation classes of the module, [UserOperation] stands for
    any other subclass of [Operation] (with its [execute] method, or
    [None] when it leaves [execute] abstract), and [OtherClass] for a
    class that does not inherit from [Operation].  A class of the user
    comes with what [bool(cls)] gives ([truth]: a metaclass can make a
    class falsy) and with its construction. *)
#[warnings="-register-all"]
Inductive PyType : Type :=
  | Operation
  | Addition
  | Subtraction
  | Multiplication
  | Division
  | Power
  | Root
  | UserOperation (name : string)
      (method : option (Decimal -> Decimal -> Result Decimal))
      (truth : Result bool) (construction : Construction PyType)
  | OtherClass (name : string)
      (truth : Result bool) (construction : Construction PyType).

(** [issubclass(cls, Operation)] *)
Definition issubclass_Operation (cls : PyType) : bool :=
  match cls with
  | OtherClass _ _ _ => false
  | _ => true
  end.

Definition __name__ (cls : PyType) : string :=
  match cls with
  | Operation => "Operation"
  | Addition => "Addition"
  | Subtraction => "Subtraction"
  | Multiplication => "Multiplication"
  | Division => "Division"
  | Power => "Power"
  | Root => "Root"
  | UserOperation name _ _ _ => name
  | OtherClass name _ _ => name
  end.

(** A class with an abstract method: [object.__new__] refuses to build
    an instance of it. *)
Definition is_abstract (cls : PyType) : bool :=
  match cls with
  | Operation | UserOperation _ None _ _ => true
  | _ => false
  end.

(** [bool(cls)]: a class is true unless its metaclass says otherwise. *)
Definition truth (cls : PyType) : Result bool :=
  match cls with
  | UserOperation _ _ t _ | OtherClass _ t _ => t
  | _ => Ok true
  end.

(** The classes of the module keep the construction of [object] and
    define no [__init__]. *)
Definition construction (cls : PyType) : Construction PyType :=
  match cls with
  | UserOperation _ _ _ c | OtherClass _ _ c => c
  | _ => by_object (Ok tt)
  end.

(** Objects.  The operations keep no state: what an object does is
    determined by its class, and [instance cls] is an object of the class
    [cls] as far as its behaviour goes.  Its identity is its address in
    the heap, below. *)
Inductive Object : Type :=
  | instance (cls : PyType).

Definition type (o : Object) : PyType :=
  match o with instance cls => cls end.

(** Calling a class without arguments, [cls()]: the object that the call
    returns, or the exception that it raises.  With the construction of
    [object], an abstract class raises [TypeError] before [__init__]
    runs. *)
Definition call (cls : PyType) : Result Object :=
  match construction cls with
  | by_object init =>
      if is_abstract cls then
        Raise (TypeError ("Can't instantiate abstract class " +:+ __name__ cls
                          +:+ " with abstract method execute"))
      else _ ← init; Ok (instance cls)
  | by_class outcome => r ← outcome; Ok (instance (fst r))
  end.

(** The heap: the objects that exist, each at its address, which is its
    position in the order of their creation. *)
Definition Heap : Type := list Object.

(** [cls()] in a heap.  A call that builds an object puts it at an
    address that no object has; a class that hands out an object that
    exists already gives the address of that object; a call that raises
    leaves no object behind. *)
Definition call_in (h : Heap) (cls : PyType) : Result address * Heap :=
  match call cls with
  | Raise e => (Raise e, h)
  | Ok o =>
      match construction cls with
      | by_class (Ok (_, Some a)) => (Ok a, h)
      | _ => (Ok (length h), h ++ [o])
      end
  end.

(** [str.lower] on code points below 256. *)
Definition lower_char (c : ascii) : ascii :=
  let n := nat_of_ascii c in
  if ((65 <=? n) && (n <=? 90)
      || (192 <=? n) && (n <=? 222) && negb (n =? 215))%nat
  then ascii_of_nat (n + 32)
  else c.

Fixpoint lower (s : string) : string :=
  match s with
  | EmptyString => EmptyString
  | String c s' => String (lower_char c) (lower s')
  end.

Section execute.

(** The operations run under the decimal context of the thread and with
    the C library of the platform. *)
Variable ctx : Context.
Context `{Libm}.

Definition Addition_execute (a b : Decimal) : Result Decimal :=
  add ctx a b.

Definition Subtraction_execute (a b : Decimal) : Result Decimal :=
  sub ctx a b.

Definition Multiplication_execute (a b : Decimal) : Result Decimal :=
  mul ctx a b.

(** [Division.validate_operands] has a docstring and no statement: it
    returns [None] for every pair of operands. *)
Definition Division_validate_operands (a b : Decimal) : Result unit :=
  Ok tt.

(** [Division.execute] divides at once; it does not call
    [validate_operands]. *)
Definition Division_execute (a b : Decimal) : Result Decimal :=
  truediv ctx a b.

(** [Decimal(pow(float(a), float(b)))] *)
Definition Power_execute (a b : Decimal) : Result Decimal :=
  x ← __float__ a;
  y ← __float__ b;
  v ← float_pow x y;
  Decimal_new v.

(** [Decimal(pow(float(a), 1 / float(b)))] *)
Definition Root_execute (a b : Decimal) : Result Decimal :=
  x ← __float__ a;
  y ← __float__ b;
  w ← float_truediv fone y;
  v ← float_pow x w;
  Decimal_new v.

(** Method dispatch of [op.execute(a, b)]. *)
Definition execute (op : Object) (a b : Decimal) : Result Decimal :=
  match type op with
  | Addition => Addition_execute a b
  | Subtraction => Subtraction_execute a b
  | Multiplication => Multiplication_execute a b
  | Division => Division_execute a b
  | Power => Power_execute a b
  | Root => Root_execute a b
  | UserOperation _ (Some method) _ _ => method a b
  | Operation | UserOperation _ None _ _ =>
      (* built in the way of [object], no instance exists; the abstract
         body is [pass] *)
      Raise (TypeError "abstract method")
  | OtherClass name _ _ =>
      Raise (AttributeError ("'" +:+ name +:+ "' object has no attribute 'execute'"))
  end.

End execute.

(** *** [OperationFactory] *)

(** The class attribute [_operations] as the module defines it. *)
Definition _operations : gmap string PyType :=
  <["add" := Addition]> (<["subtract" := Subtraction]>
  (<["multiply" := Multiplication]> (<["divide" := Division]>
  (<["power" := Power]> (<["root" := Root]> ∅))))).

(** [register_operation] and [create_operation] read and update the
    dictionary, which is passed in and out. *)
Definition register_operation (ops : gmap string PyType)
    (name : string) (operation_class : PyType) : Result (gmap string PyType) :=
  if negb (issubclass_Operation operation_class) then
    Raise (TypeError "Operation class must inherit from Operation")
  else Ok (<[lower name := operation_class]> ops).

(** [create_operation]: the object that it returns, or the exception.
    [if not operation_class] is true when the dictionary has no class
    under the name, and when it has one that is falsy. *)
Definition create_operation (ops : gmap string PyType)
    (operation_type : string) : Result Object :=
  match ops !! lower operation_type with
  | None => Raise (ValueError ("Unknown operation: " +:+ operation_type))
  | Some operation_class =>
      t ← truth operation_class;
      if negb t
      then Raise (ValueError ("Unknown operation: " +:+ operation_type))
      else call operation_class
  end.

(** [create_operation] in a heap: the address of the object that it
    returns, and the heap after the call. *)
Definition create_operation_in (h : Heap) (ops : gmap string PyType)
    (operation_type : string) : Result address * Heap :=
  match ops !! lower operation_type with
  | None => (Raise (ValueError ("Unknown operation: " +:+ operation_type)), h)
  | Some operation_class =>
      match truth operation_class with
      | Raise e => (Raise e, h)
      | Ok t =>
          if negb t
          then (Raise (ValueError ("Unknown operation: " +:+ operation_type)), h)
          else call_in h operation_class
      end
  end.

End operations.

(** ** Python's [datetime] *)

Module pydatetime.

Import decimal.

(** A naive [datetime]. *)
Record datetime : Type := {
  year : N;
  month : N;
  day : N;
  hour : N;
  minute : N;
  second : N;
  microsecond : N
}.

Definition is_leap (y : N) : bool :=
  ((y mod 4 =? 0) && (negb (y mod 100 =? 0) || (y mod 400 =? 0)))%N.

Definition days_in_month (y m : N) : N :=
  match m with
  | 2 => if is_leap y then 29 else 28
  | 4 | 6 | 9 | 11 => 30
  | _ => 31
  end%N.

(** The ranges that the [datetime] constructor checks. *)
Definition valid_datetime (dt : datetime) : bool :=
  ((1 <=? year dt) && (year dt <=? 9999)
   && (1 <=? month dt) && (month dt <=? 12)
   && (1 <=? day dt) && (day dt <=? days_in_month (year dt) (month dt))
   && (hour dt <? 24) && (minute dt <? 60) && (second dt <? 60)
   && (microsecond dt <? 1000000))%N.

(** ["%0*d" % (width, n)] *)
Definition zfill (width : nat) (n : N) : list ascii :=
  let s := str_N n in
  replicate (width - length s) "0"%char ++ s.

(** [datetime.isoformat()]: [YYYY-MM-DDTHH:MM:SS], and [.ffffff] when the
    microsecond is not zero. *)
Definition isoformat (dt : datetime) : string :=
  string_of_list_ascii
    (zfill 4 (year dt) ++ "-"%char :: zfill 2 (month dt) ++ "-"%char
     :: zfill 2 (day dt) ++ "T"%char :: zfill 2 (hour dt) ++ ":"%char
     :: zfill 2 (minute dt) ++ ":"%char :: zfill 2 (second dt)
     ++ (if (microsecond dt =? 0)%N then []
         else "."%char :: zfill 6 (microsecond dt))).

(** A field of exactly [width] digits, and the rest. *)
Definition take_field (width : nat) (l : list ascii) : option (N * list ascii) :=
  let ds := take width l in
  if (length ds =? width)%nat && forallb is_digit ds
  then Some (int_of_digits ds, drop width l)
  else None.

(** A separator character. *)
Definition take_char (c : ascii) (l : list ascii) : option (list ascii) :=
  match l with
  | c' :: l' => if Ascii.eqb c' c then Some l' else None
  | [] => None
  end.

(** [datetime.fromisoformat] on the strings that [isoformat] writes for a
    naive datetime; anything else is a [ValueError]. *)
Definition parse_isoformat (l : list ascii) : option datetime :=
  '(y, l) ← take_field 4 l;
  l ← take_char "-" l;
  '(mo, l) ← take_field 2 l;
  l ← take_char "-" l;
  '(d, l) ← take_field 2 l;
  l ← take_char "T" l;
  '(h, l) ← take_field 2 l;
  l ← take_char ":" l;
  '(mi, l) ← take_field 2 l;
  l ← take_char ":" l;
  '(s, l) ← take_field 2 l;
  '(us, l) ← match l with
             | [] => Some (0%N, [])
             | _ => l ← take_char "." l; take_field 6 l
             end;
  let dt := {| year := y; month := mo; day := d; hour := h; minute := mi;
               second := s; microsecond := us |} in
  match l with
  | [] => if valid_datetime dt then Some dt else None
  | _ => None
  end.

Definition fromisoformat (s : string) : Result datetime :=
  match parse_isoformat (list_ascii_of_string s) with
  | Some dt => Ok dt
  | None => Raise (ValueError "Invalid isoformat string")
  end.

End pydatetime.

(** ** The calculation record, the memento and the engine

    [app/calculation.py], [app/calculator_memento.py] and
    [app/calculator.py] are not among the sources; only their tests are.
    The definitions of this part follow the specification. *)

(** Modelled from the spec: the mappings of primitive fields that [to_dict]
    builds and [from_dict] reads. *)
#[warnings="-register-all"]
Inductive PyValue : Type :=
  | PyStr (s : string)
  | PyList (l : list PyValue)
  | PyDict (d : gmap string PyValue).

(** Modelled from the spec: [data[key]], expected to be a string; a missing
    or malformed field is a [ValidationError]. *)
Definition get_str (data : PyValue) (key : string) : Result string :=
  match data with
  | PyDict d =>
      match d !! key with
      | Some (PyStr s) => Ok s
      | _ => Raise ValidationError
      end
  | _ => Raise ValidationError
  end.

(** Modelled from the spec: [data[key]], expected to be a list. *)
Definition get_list (data : PyValue) (key : string) : Result (list PyValue) :=
  match data with
  | PyDict d =>
      match d !! key with
      | Some (PyList l) => Ok l
      | _ => Raise ValidationError
      end
  | _ => Raise ValidationError
  end.

(** Modelled from the spec: a field that does not parse is a
    [ValidationError]. *)
Definition validated {A : Type} (r : Result A) : Result A :=
  match r with
  | Ok a => Ok a
  | Raise _ => Raise ValidationError
  end.

(** Modelled from the spec: every entry in turn, up to the first
    exception. *)
Fixpoint mapM {A B : Type} (f : A -> Result B) (l : list A) : Result (list B) :=
  match l with
  | [] => Ok []
  | x :: l' => y ← f x; ys ← mapM f l'; Ok (y :: ys)
  end.

Module calculation.

Import decimal pyfloat pydatetime operations.

(** Modelled from the spec: [app/calculation.py] is missing.  A
    [Calculation] holds the operation name, the two operands, the result
    and the time of its creation. *)
Record Calculation : Type := {
  operation : string;
  operand1 : Decimal;
  operand2 : Decimal;
  result : Decimal;
  timestamp : datetime
}.

(** Modelled from the spec: the lookup of [app/calculation.py] is missing.
    The operation that a calculation's name stands for is found through
    the registry; the repository's tests name a calculation by the class of
    its operation (["Addition"]), so the match is on the class name of the
    registered classes. *)
Definition matching_operation (ops : gmap string PyType) (name : string) :
    option PyType :=
  (fun found => snd (snd found))
    <$> list_find (fun kv => __name__ (snd kv) = name) (map_to_list ops).

Section Calculation.

Variable ctx : Context.
Context `{Libm}.

(** Modelled from the spec: the constructor of [app/calculation.py] is
    missing.  It takes the operation name and the operands, and computes
    and stores the result at once by invoking the matching operation; it
    fails with an [OperationError] when the lookup fails or [execute]
    raises. *)
Definition Calculation_new (ops : gmap string PyType) (operation : string)
    (operand1 operand2 : Decimal) (now : datetime) : Result Calculation :=
  match matching_operation ops operation with
  | None => Raise OperationError
  | Some cls =>
      match (op ← call cls; execute ctx op operand1 operand2) with
      | Ok r =>
          Ok {| operation := operation; operand1 := operand1;
                operand2 := operand2; result := r; timestamp := now |}
      | Raise _ => Raise OperationError
      end
  end.

(** Modelled from the spec: [Calculation.to_dict] is missing.  It gives a
    mapping with the string-encoded operation name, operands and result,
    and the ISO 8601 timestamp. *)
Definition to_dict (c : Calculation) : PyValue :=
  PyDict (<["operation" := PyStr (operation c)]>
         (<["operand1" := PyStr (__str__ (operand1 c))]>
         (<["operand2" := PyStr (__str__ (operand2 c))]>
         (<["result" := PyStr (__str__ (result c))]>
         (<["timestamp" := PyStr (isoformat (timestamp c))]> ∅))))).

(** Modelled from the spec: [Calculation.from_dict] is missing.  It
    reconstructs a calculation from the mapping, through the constructor
    (which computes the result again), and fails with a [ValidationError]
    on a missing or malformed field. *)
Definition from_dict (ops : gmap string PyType) (data : PyValue) :
    Result Calculation :=
  name ← get_str data "operation";
  s1 ← get_str data "operand1";
  a ← validated (Decimal_of_str s1);
  s2 ← get_str data "operand2";
  b ← validated (Decimal_of_str s2);
  sr ← get_str data "result";
  _ ← validated (Decimal_of_str sr);
  st ← get_str data "timestamp";
  ts ← validated (fromisoformat st);
  Calculation_new ops name a b ts.

End Calculation.

End calculation.

Module calculator_memento.

Import decimal pyfloat pydatetime operations calculation.

(** Modelled from the spec: [app/calculator_memento.py] is missing.  A
    memento is a snapshot of the history with the time it was taken. *)
Record CalculatorMemento : Type := {
  history : list Calculation;
  timestamp : datetime
}.

(** Modelled from the spec: [CalculatorMemento.to_dict] is missing:
    [{history: [calc.to_dict() for each], timestamp: iso8601}]. *)
Definition to_dict (m : CalculatorMemento) : PyValue :=
  PyDict (<["history" := PyList (calculation.to_dict <$> history m)]>
         (<["timestamp" := PyStr (isoformat (timestamp m))]> ∅)).

Section CalculatorMemento.

Variable ctx : Context.
Context `{Libm}.

(** Modelled from the spec: [CalculatorMemento.from_dict] is missing.  It
    reconstructs the history, each entry through [Calculation.from_dict],
    and parses the timestamp; a malformed structure is a
    [ValidationError]. *)
Definition from_dict (ops : gmap string PyType) (data : PyValue) :
    Result CalculatorMemento :=
  entries ← get_list data "history";
  h ← mapM (calculation.from_dict ctx ops) entries;
  st ← get_str data "timestamp";
  ts ← validated (fromisoformat st);
  Ok {| history := h; timestamp := ts |}.

End CalculatorMemento.

End calculator_memento.

Module calculator.

Import decimal pyfloat pydatetime operations calculation calculator_memento.

(** Modelled from the spec: the observers of [app/history.py] are missing.
    There are two built-in kinds. *)
Inductive Observer : Type :=
  | LoggingObserver
  | AutoSaveObserver.

(** Modelled from the spec: [app/calculator.py] is missing.  The engine
    holds the history in chronological order, the undo and the redo stack
    of mementos with the most recent last, and the observers in the order
    of their registration; [notified] records which observer was notified
    of which calculation. *)
Record Calculator : Type := {
  history : list Calculation;
  undo_stack : list CalculatorMemento;
  redo_stack : list CalculatorMemento;
  observers : list Observer;
  notified : list (Observer * Calculation)
}.

(** Modelled from the spec: a new engine has no history and empty
    stacks. *)
Definition Calculator_new : Calculator :=
  {| history := []; undo_stack := []; redo_stack := [];
     observers := []; notified := [] |}.

(** Modelled from the spec: [add_observer] registers an observer. *)
Definition add_observer (calc : Calculator) (o : Observer) : Calculator :=
  {| history := history calc; undo_stack := undo_stack calc;
     redo_stack := redo_stack calc; observers := observers calc ++ [o];
     notified := notified calc |}.

(** Modelled from the spec: the stacks have their most recent element
    last; [pop] gives the stack without its last element, and that
    element. *)
Definition pop {A : Type} (stack : list A) : option (list A * A) :=
  match rev stack with
  | [] => None
  | x :: rest => Some (rev rest, x)
  end.

Section Calculator.

Variable ctx : Context.
Context `{Libm}.

(** Modelled from the spec: the validation of operands is missing.  An
    operand is parsed to a decimal; a non-numeric input is a
    [ValidationError]. *)
Definition validate_number (value : string) : Result Decimal :=
  match Decimal_of_str value with
  | Ok d => Ok d
  | Raise _ => Raise ValidationError
  end.

(** Modelled from the spec: [Calculator.perform_operation] is missing.  It
    validates the operands, resolves the operation through the registry and
    creates the calculation (an [OperationError] when that fails), pushes a
    memento of the history before the operation on the undo stack, appends
    the calculation to the history, clears the redo stack, notifies every
    observer and returns the result. *)
Definition perform_operation (ops : gmap string PyType) (calc : Calculator)
    (operation_name operand1 operand2 : string) (now : datetime) :
    Result (Decimal * Calculator) :=
  a ← validate_number operand1;
  b ← validate_number operand2;
  op ← match create_operation ops operation_name with
       | Ok op => Ok op
       | Raise _ => Raise OperationError
       end;
  c ← Calculation_new ctx ops (__name__ (type op)) a b now;
  Ok (result c,
      {| history := history calc ++ [c];
         undo_stack := undo_stack calc
           ++ [{| calculator_memento.history := history calc;
                  calculator_memento.timestamp := now |}];
         redo_stack := [];
         observers := observers calc;
         notified := notified calc ++ ((fun o => (o, c)) <$> observers calc) |}).

End Calculator.

(** Modelled from the spec: [Calculator.undo] is missing.  With an empty
    undo stack there is nothing to undo ([None]); otherwise a memento of
    the current history is pushed on the redo stack, and the most recent
    memento is popped from the undo stack and the history restored from
    it. *)
Definition undo (calc : Calculator) (now : datetime) : option Calculator :=
  match pop (undo_stack calc) with
  | None => None
  | Some (rest, memento) =>
      Some {| history := calculator_memento.history memento;
              undo_stack := rest;
              redo_stack := redo_stack calc
                ++ [{| calculator_memento.history := history calc;
                       calculator_memento.timestamp := now |}];
              observers := observers calc;
              notified := notified calc |}
  end.

(** Modelled from the spec: [Calculator.redo] is missing; it is the mirror
    of [undo] on the redo stack. *)
Definition redo (calc : Calculator) (now : datetime) : option Calculator :=
  match pop (redo_stack calc) with
  | None => None
  | Some (rest, memento) =>
      Some {| history := calculator_memento.history memento;
              undo_stack := undo_stack calc
                ++ [{| calculator_memento.history := history calc;
                       calculator_memento.timestamp := now |}];
              redo_stack := rest;
              observers := observers calc;
              notified := notified calc |}
  end.

(** Modelled from the spec: [Calculator.clear_history] is missing; it
    empties the history and both stacks. *)
Definition clear_history (calc : Calculator) : Calculator :=
  {| history := []; undo_stack := []; redo_stack := [];
     observers := observers calc; notified := notified calc |}.

(** Modelled from the spec: the commands of the engine that change its
    state. *)
Inductive Command : Type :=
  | PerformOperation (operation_name operand1 operand2 : string)
  | Undo
  | Redo
  | ClearHistory
  | AddObserver (o : Observer).

Section reachable.

Variable ctx : Context.
Context `{Libm}.
Variable ops : gmap string PyType.

(** Modelled from the spec: one command at one reading of the clock; a
    command that fails leaves the engine as it was. *)
Definition run (calc : Calculator) (cmd : Command) (now : datetime) : Calculator :=
  match cmd with
  | PerformOperation name a b =>
      match perform_operation ctx ops calc name a b now with
      | Ok (_, calc') => calc'
      | Raise _ => calc
      end
  | Undo => default calc (undo calc now)
  | Redo => default calc (redo calc now)
  | ClearHistory => clear_history calc
  | AddObserver o => add_observer calc o
  end.

(** Modelled from the spec: the states that a new engine reaches by
    commands. *)
Inductive reachable : Calculator -> Prop :=
  | reachable_new : reachable Calculator_new
  | reachable_run calc cmd now :
      reachable calc -> reachable (run calc cmd now).

End reachable.

End calculator.

(** ** Notions of the statements *)

Import decimal pyfloat operations pydatetime calculation calculator_memento
  calculator.

(** A C library for the examples: its [pow] reports a domain error.  The
    statements below hold for every C library. *)
Definition example_libm : Libm :=
  {| libm_pow := fun _ _ => (S754_nan, EDOM);
     libm_cpow_errno := fun _ _ => ENONE |}.

(** Decimals for the examples. *)
Definition Decimal_of_Z (z : Z) : Decimal := Finite (z <? 0) (Z.abs_N z) 0.

(** The clock of the examples. *)
Definition example_now : datetime :=
  {| year := 2026; month := 11; day := 3; hour := 14; minute := 12;
     second := 0; microsecond := 0 |}.

(** Every class of the dictionary inherits from [Operation]. *)
Definition registry_ok (ops : gmap string PyType) : Prop :=
  forall name cls, ops !! name = Some cls -> issubclass_Operation cls = true.

(** The inputs of a root that the specification names as invalid: an even
    integer degree of a negative number. *)
Definition is_negative (a : Decimal) : bool :=
  match a with
  | Finite true c _ => negb (c =? 0)%N
  | Infinity true => true
  | _ => false
  end.

Definition is_even_integer (b : Decimal) : bool :=
  match b with
  | Finite _ c e =>
      if 0 <? e then true
      else (Z.of_N c mod 10 ^ (- e) =? 0) && Z.even (Z.of_N c / 10 ^ (- e))
  | _ => false
  end.

Definition even_root_of_negative (a b : Decimal) : bool :=
  is_negative a && is_even_integer b && nonzero b.

(** The inputs on which the float power is complex: a negative finite
    float [float(a)] and an exponent [1 / float(b)] that is finite and not
    an integer. *)
Definition complex_root (a b : Decimal) : bool :=
  match __float__ a, __float__ b with
  | Ok (S754_finite true _ _), Ok (S754_finite sy my ey) =>
      match SFdiv fprec femax fone (S754_finite sy my ey) with
      | S754_finite sw mw ew => negb (is_integer (S754_finite sw mw ew))
      | _ => false
      end
  | _, _ => false
  end.

(** Characters that [strip] and [replace("_", "")] leave alone. *)
Definition plain (c : ascii) : bool :=
  negb (is_space c) && negb (Ascii.eqb c "_").

(** The sign of a decimal as a factor. *)
Definition sgn (s : bool) : Z := if s then -1 else 1.

(** The finite decimal [(s, c, e)] in units of [10^m], for [m <= e]. *)
Definition units (m : Z) (s : bool) (c : N) (e : Z) : Z :=
  sgn s * Z.of_N c * 10 ^ (e - m).

(** Two decimals with non-negative coefficients have the same value. *)
Definition same_value (c1 e1 c2 e2 : Z) : Prop :=
  c1 * 10 ^ (e1 - Z.min e1 e2) = c2 * 10 ^ (e2 - Z.min e1 e2).

(** The exponent at which [__truediv__] computes the quotient. *)
Definition division_exp (ctx : Context) (ca : N) (ea : Z) (cb : N) (eb : Z) : Z :=
  ea - eb - (ndigits (Z.of_N cb) - ndigits (Z.of_N ca) + prec ctx + 1).

(** The value of a result against the exact value of the operation on the
    operands, for finite decimals: both sides are taken in units of a power
    of ten below all the exponents, where they are integers. *)
Definition is_sum (a b r : Decimal) : Prop :=
  match a, b, r with
  | Finite sa ca ea, Finite sb cb eb, Finite sr cr er =>
      let m := Z.min (Z.min ea eb) er in
      units m sr cr er = units m sa ca ea + units m sb cb eb
  | _, _, _ => False
  end.

Definition is_difference (a b r : Decimal) : Prop :=
  match a, b, r with
  | Finite sa ca ea, Finite sb cb eb, Finite sr cr er =>
      let m := Z.min (Z.min ea eb) er in
      units m sr cr er = units m sa ca ea - units m sb cb eb
  | _, _, _ => False
  end.

Definition is_product (a b r : Decimal) : Prop :=
  match a, b, r with
  | Finite sa ca ea, Finite sb cb eb, Finite sr cr er =>
      let m := Z.min (ea + eb) er in
      units m sr cr er = units m (xorb sa sb) (ca * cb) (ea + eb)
  | _, _, _ => False
  end.

(** [r] is the quotient of [a] by [b]: [r * b] is [a]. *)
Definition is_quotient (a b r : Decimal) : Prop :=
  match a, b, r with
  | Finite sa ca ea, Finite sb cb eb, Finite sr cr er =>
      let m := Z.min (er + eb) ea in
      units m (xorb sr sb) (cr * cb) (er + eb) = units m sa ca ea
  | _, _, _ => False
  end.

(** The decimal [d] is the float [x]: the same special value, or the same
    number, [c * 10^k = m * 2^e] with both sides cleared of negative
    exponents. *)
Definition same_number (x : float) (d : Decimal) : Prop :=
  match x, d with
  | S754_zero s, Finite s' c _ => s = s' /\ c = 0%N
  | S754_infinity s, Infinity s' => s = s'
  | S754_nan, NaN _ false _ => True
  | S754_finite s m e, Finite s' c k =>
      s = s' /\ k <= 0
      /\ Z.of_N c * 2 ^ Z.max (- e) 0 = Z.pos m * 2 ^ Z.max e 0 * 10 ^ (- k)
  | _, _ => False
  end.

(** The calculations that exist: made by the constructor, at a time that
    is a datetime. *)
Definition constructed (ctx : Context) `{Libm} (ops : gmap string PyType)
    (c : Calculation) : Prop :=
  Calculation_new ctx ops (operation c) (operand1 c) (operand2 c)
    (calculation.timestamp c) = Ok c
  /\ valid_datetime (calculation.timestamp c) = true.

(** The calculation of the repository's test: [Calculation("Addition",
    Decimal("2"), Decimal("3"))], whose result is [Decimal("5")]. *)
Definition example_calculation : Calculation :=
  {| operation := "Addition"; operand1 := Decimal_of_Z 2;
     operand2 := Decimal_of_Z 3; result := Decimal_of_Z 5;
     calculation.timestamp := example_now |}.

(** The engine after [add 2 3]. *)
Definition example_added : Calculator :=
  run DefaultContext (H := example_libm) _operations Calculator_new
    (PerformOperation "add" "2" "3") example_now.

(** The engine after [add 2 3] and [undo]: its redo stack holds the
    undone state. *)
Definition example_undone : Calculator :=
  run DefaultContext (H := example_libm) _operations
    (run DefaultContext (H := example_libm) _operations Calculator_new
       (PerformOperation "add" "2" "3") example_now)
    Undo example_now.


(** The dictionaries that the factory can hold: the one that the module
    defines, updated by calls of [register_operation].  A call that raises
    leaves the dictionary as it is. *)
Inductive registered : gmap string PyType -> Prop :=
  | registered_module : registered _operations
  | registered_register ops name cls ops' :
      registered ops ->
      register_operation ops name cls = Ok ops' ->
      registered ops'.

(** [Decimal.is_qnan] and [Decimal.is_snan] *)
Definition is_qnan (d : Decimal) : bool :=
  match d with NaN _ false _ => true | _ => false end.

Definition is_snan (d : Decimal) : bool :=
  match d with NaN _ true _ => true | _ => false end.

(** [Decimal(1)] *)
Definition Decimal_one : Decimal := Finite false 1 0.

(** What the context allows a finite decimal to be: a coefficient of at
    most [prec] digits, an exponent not below [Etiny], and the exponent of
    the first digit not above [Emax]. *)
Definition within_context (ctx : Context) (d : Decimal) : Prop :=
  match d with
  | Finite _ c e =>
      ndigits (Z.of_N c) <= prec ctx
      /\ Etiny ctx <= e
      /\ e + ndigits (Z.of_N c) - 1 <= Emax ctx
  | _ => True
  end.

(** A class that [create_operation] can instantiate in the way of
    [object]: it is true, it is not abstract, it keeps the construction of
    [object], and its [__init__] accepts a call without arguments and
    returns. *)
Definition instantiable (cls : PyType) : Prop :=
  truth cls = Ok true
  /\ is_abstract cls = false
  /\ construction cls = by_object (Ok tt).

(** The outcome [out] of a call in the heap [h] is a fresh instance of
    [cls]: the call returns an address at which [h] has no object, the
    heap after the call has an instance of [cls] there, and the objects of
    [h] are where they were. *)
Definition fresh_instance (h : Heap) (cls : PyType)
    (out : Result address * Heap) : Prop :=
  exists a h',
    out = (Ok a, h')
    /\ h !! a = None
    /\ h' !! a = Some (instance cls)
    /\ forall b o, h !! b = Some o -> h' !! b = Some o.

(** The exception of [create_operation] for a name that it does not
    know. *)
Definition unknown_operation (name : string) : PyException :=
  ValueError ("Unknown operation: " +:+ name).

(** Classes for the examples: a subclass of [Operation] that implements
    [execute], one whose [__init__] requires an argument, one that its
    metaclass makes falsy, and one that hands out a single instance, which
    exists at address 0. *)
Definition Modulus : PyType :=
  UserOperation "Modulus" (Some (fun a b => Ok a)) (Ok true) (by_object (Ok tt)).

Definition Scaled : PyType :=
  UserOperation "Scaled" (Some (fun a b => Ok a)) (Ok true)
    (by_object (Raise (TypeError
       "Scaled.__init__() missing 1 required positional argument: 'k'"))).

Definition Falsy : PyType :=
  UserOperation "Falsy" (Some (fun a b => Ok a)) (Ok false) (by_object (Ok tt)).

Definition Single : PyType :=
  UserOperation "Single" (Some (fun a b => Ok a)) (Ok true)
    (by_class (Ok (Addition, Some 0%nat))).
(** * Properties *)

Import decimal pyfloat operations.

(** ** Division by zero *)

(** What [Division.execute] does with a zero divisor, by the kind of the
    dividend. *)
Lemma Division_execute_zero_divisor (ctx : Context) (a : Decimal) (s : bool) (e : Z) :
  Division_execute ctx a (Finite s 0 e) =
  match a with
  | Finite _ N0 _ => Raise InvalidOperation
  | Finite _ _ _ => Raise DivisionByZero
  | Infinity sa => Ok (Infinity (xorb sa s))
  | NaN _ true _ => Raise InvalidOperation
  | NaN _ false _ => Ok (_fix_nan ctx a)
  end.
Proof.
  destruct a as [sa [|p] ea|sa|sa [|] p]; reflexivity.
Qed.

(** C1: [Division.execute(a, 0)] should fail with a [ValidationError].
    It never does: for no dividend [a] and no sign and exponent of the
    zero divisor is the outcome a [ValidationError]. *)
Theorem Division_execute_zero_never_ValidationError :
  forall (ctx : Context) (a : Decimal) (s : bool) (e : Z),
    Division_execute ctx a (Finite s 0 e) <> Raise ValidationError.
Proof.
  intros ctx a s e. rewrite Division_execute_zero_divisor.
  destruct a as [sa [|p] ea|sa|sa [|] p]; discriminate.
Qed.

(** [Division.execute(Decimal(1), Decimal(0))] raises the [decimal]
    module's [DivisionByZero]. *)
Example Division_execute_1_0 :
  Division_execute DefaultContext (Finite false 1 0) (Finite false 0 0)
  = Raise DivisionByZero.
Proof. reflexivity. Qed.

(** ** The operation factory *)

Lemma _operations_ok : registry_ok _operations.
Proof.
  intros name cls Hlook. unfold _operations in Hlook.
  repeat (apply lookup_insert_Some in Hlook as [[_ <-]|[_ Hlook]]; [reflexivity|]).
  rewrite lookup_empty in Hlook. discriminate.
Qed.

Lemma register_operation_ok ops name cls ops' :
  registry_ok ops ->
  register_operation ops name cls = Ok ops' ->
  registry_ok ops'.
Proof.
  unfold register_operation. intros Hok Hreg.
  destruct (issubclass_Operation cls) eqn:Hsub; simpl in Hreg; [|discriminate].
  injection Hreg as <-. intros k c Hlook.
  apply lookup_insert_Some in Hlook as [[_ <-]|[_ Hlook]]; eauto.
Qed.

Lemma lower_char_idemp c : lower_char (lower_char c) = lower_char c.
Proof.
  destruct c as [[] [] [] [] [] [] [] []]; reflexivity.
Qed.

Lemma lower_idemp s : lower (lower s) = lower s.
Proof.
  induction s as [|c s IH]; simpl; [reflexivity|].
  by rewrite lower_char_idemp, IH.
Qed.

(** *** Calling a class *)

Lemma call_instantiable (cls : PyType) :
  instantiable cls -> call cls = Ok (instance cls).
Proof.
  intros (_ & Habs & Hcons). unfold call. rewrite Hcons, Habs. reflexivity.
Qed.

Lemma call_in_instantiable (h : Heap) (cls : PyType) :
  instantiable cls -> call_in h cls = (Ok (length h), h ++ [instance cls]).
Proof.
  intros Hcls. unfold call_in. rewrite (call_instantiable cls Hcls).
  destruct Hcls as (_ & _ & ->). reflexivity.
Qed.

(** An object appended to the heap is a fresh one. *)
Lemma fresh_instance_new (h : Heap) (cls : PyType) :
  fresh_instance h cls (Ok (length h), h ++ [instance cls]).
Proof.
  exists (length h), (h ++ [instance cls]). split; [reflexivity|].
  split; [apply lookup_ge_None_2; lia|].
  split; [apply list_lookup_middle; reflexivity|].
  intros b o Hb. apply lookup_app_l_Some. exact Hb.
Qed.

(** C5, as the code has it: [create_operation] looks the lower-cased name
    up.  Without a class under the name, or with a falsy one, it raises
    [ValueError("Unknown operation: <name>")].  Otherwise it calls the
    class and returns or raises what the call does.  For a class that is
    not abstract and is built in the way of [object] by a constructor
    that accepts a call without arguments, the result is a fresh instance
    of the class: a new object at every call.  An abstract class (such as
    [Operation] itself, which [register_operation] accepts) raises the
    [TypeError] of its instantiation, and a constructor that raises makes
    [create_operation] raise the same. *)
Theorem create_operation_lookup :
  forall (ops : gmap string PyType) (name : string),
    (ops !! lower name = None ->
       create_operation ops name = Raise (unknown_operation name))
    /\ (forall cls, ops !! lower name = Some cls ->
          (truth cls = Ok false ->
             create_operation ops name = Raise (unknown_operation name))
          /\ (forall e, truth cls = Raise e ->
                create_operation ops name = Raise e)
          /\ (truth cls = Ok true ->
                create_operation ops name = call cls
                /\ forall h, create_operation_in h ops name = call_in h cls)
          /\ (instantiable cls ->
                create_operation ops name = Ok (instance cls)
                /\ forall h,
                     fresh_instance h cls (create_operation_in h ops name)
                     /\ exists a1 h1 a2 h2,
                          create_operation_in h ops name = (Ok a1, h1)
                          /\ create_operation_in h1 ops name = (Ok a2, h2)
                          /\ a1 <> a2)
          /\ (truth cls = Ok true -> is_abstract cls = true ->
                (exists init, construction cls = by_object init) ->
                exists msg, create_operation ops name = Raise (TypeError msg))
          /\ (forall e, truth cls = Ok true -> is_abstract cls = false ->
                construction cls = by_object (Raise e) ->
                create_operation ops name = Raise e)).
Proof.
  intros ops name. unfold create_operation, create_operation_in.
  split; [intros ->; reflexivity|].
  intros cls ->. split; [intros ->; reflexivity|].
  split; [intros e ->; reflexivity|].
  split; [intros ->; split; reflexivity|].
  split; [|split].
  - intros Hcls. pose proof Hcls as (Htrue & _ & _). rewrite Htrue.
    cbn [mbind Result_bind negb].
    split; [apply call_instantiable, Hcls|].
    intros h. rewrite !call_in_instantiable by exact Hcls.
    split; [apply fresh_instance_new|].
    eexists. eexists. eexists. eexists.
    split; [reflexivity|]. split; [apply call_in_instantiable, Hcls|].
    rewrite length_app. cbn [length]. lia.
  - intros -> Habs [init Hcons]. cbn [mbind Result_bind negb].
    unfold call. rewrite Hcons, Habs. eauto.
  - intros e -> Habs Hcons. cbn [mbind Result_bind negb].
    unfold call. rewrite Hcons, Habs. reflexivity.
Qed.

(** C5 fails as stated: after [register_operation("Base", Operation)],
    which succeeds, the name has a registered match and
    [create_operation("BASE")] returns no instance but raises
    [TypeError]. *)
Lemma create_operation_abstract_counterexample :
  ~ (forall (ops : gmap string PyType) (name : string) (cls : PyType),
       ops !! lower name = Some cls ->
       create_operation ops name = Ok (instance cls)).
Proof.
  intros Hclaim.
  specialize (Hclaim (<["base" := Operation]> _operations) "BASE"%string Operation).
  discriminate Hclaim. reflexivity.
Qed.

(** The dictionary of the counterexample is the one that
    [register_operation] builds. *)
Example register_Operation_itself :
  register_operation _operations "Base" Operation
  = Ok (<["base" := Operation]> _operations).
Proof. reflexivity. Qed.

(** The built-in names are found in any case. *)
Example create_operation_builtin :
  create_operation _operations "Divide" = Ok (instance Division)
  /\ create_operation _operations "ROOT" = Ok (instance Root)
  /\ create_operation _operations "bogus"
     = Raise (ValueError "Unknown operation: bogus").
Proof. repeat split; vm_compute; reflexivity. Qed.

(** C6: [register_operation] raises [TypeError] for a class that does not
    inherit from [Operation]; for a class that does, it maps the
    lower-cased name to the class and leaves the other names as they were,
    and registering the name again replaces the entry without an error. *)
Theorem register_operation_contract :
  forall (ops : gmap string PyType) (name : string) (cls cls' : PyType),
    (issubclass_Operation cls = false ->
       register_operation ops name cls
       = Raise (TypeError "Operation class must inherit from Operation"))
    /\ (issubclass_Operation cls = true ->
       exists ops',
         register_operation ops name cls = Ok ops'
         /\ ops' !! lower name = Some cls
         /\ (forall other, other <> lower name -> ops' !! other = ops !! other)
         /\ (issubclass_Operation cls' = true ->
             exists ops'',
               register_operation ops' name cls' = Ok ops''
               /\ ops'' !! lower name = Some cls'
               /\ ops'' = <[lower name := cls']> ops)).
Proof.
  intros ops name cls cls'. unfold register_operation. split.
  - intros ->. reflexivity.
  - intros ->. simpl. eexists. split; [reflexivity|].
    split; [apply lookup_insert_eq|].
    split; [intros other Hne; by apply lookup_insert_ne|].
    intros ->. simpl. eexists. split; [reflexivity|].
    split; [apply lookup_insert_eq|apply insert_insert_eq].
Qed.

(** The scenario of the specification: a registered custom operation is
    created under any spelling of its name and works. *)
Example register_modulus :
  exists ops,
    register_operation _operations "Modulus" Modulus = Ok ops
    /\ create_operation ops "modulus" = Ok (instance Modulus)
    /\ create_operation ops "MODULUS" = Ok (instance Modulus)
    /\ register_operation _operations "int"
         (OtherClass "int" (Ok true) (by_object (Ok tt)))
       = Raise (TypeError "Operation class must inherit from Operation").
Proof.
  eexists. split; [reflexivity|]. repeat split; vm_compute; reflexivity.
Qed.

(** Classes that [register_operation] accepts and [create_operation]
    does not instantiate: a constructor that requires an argument raises
    [TypeError], and a falsy class is taken for an unknown name.  A class
    that hands out an object that exists already returns that object and
    builds none. *)
Example create_operation_other_classes :
  create_operation (<["scaled" := Scaled]> _operations) "scaled"
  = Raise (TypeError
      "Scaled.__init__() missing 1 required positional argument: 'k'")
  /\ create_operation (<["falsy" := Falsy]> _operations) "falsy"
     = Raise (ValueError "Unknown operation: falsy")
  /\ create_operation_in [instance Addition]
       (<["single" := Single]> _operations) "single"
     = (Ok 0%nat, [instance Addition])
  /\ create_operation_in [instance Addition] _operations "add"
     = (Ok 1%nat, [instance Addition; instance Addition]).
Proof. repeat split; vm_compute; reflexivity. Qed.

(** ** Roots *)

(** A finite decimal always converts to a float. *)
Lemma __float___Finite s c e : exists x, __float__ (Finite s c e) = Ok x.
Proof. destruct c; simpl; eauto. Qed.

Lemma __float___zero s e : __float__ (Finite s 0 e) = Ok (S754_zero s).
Proof. reflexivity. Qed.

(** C10, as the code has it: with a zero degree the division
    [1 / float(b)] raises [ZeroDivisionError], whatever the sign and the
    exponent of the zero; only a signaling NaN as [a] fails earlier, in
    [float(a)], with a [ValueError]. *)
Theorem Root_execute_zero_degree :
  forall (L : Libm) (a : Decimal) (s : bool) (e : Z),
    Root_execute a (Finite s 0 e) =
    match a with
    | NaN _ true _ => Raise (ValueError "cannot convert signaling NaN to float")
    | _ => Raise (ZeroDivisionError "float division by zero")
    end.
Proof.
  intros L a s e. unfold Root_execute.
  destruct a as [sa [|p] ea|sa|sa [|] pl]; reflexivity.
Qed.

(** C10 fails as stated for a signaling NaN: [float(a)] is evaluated
    first and raises [ValueError]. *)
Lemma Root_execute_sNaN_counterexample :
  ~ (forall (L : Libm) (a : Decimal),
       exists msg,
         Root_execute a (Decimal_of_Z 0) = Raise (ZeroDivisionError msg)).
Proof.
  intros Hclaim.
  destruct (Hclaim example_libm (NaN false true 0)) as [msg Hmsg].
  discriminate Hmsg.
Qed.

(** C7, as the code has it: [Root.execute] checks nothing itself.  Where
    the float power is complex, the call raises ([TypeError] from
    [Decimal] of the complex number, or [OverflowError] from the complex
    power). *)
Theorem Root_execute_complex_root :
  forall (L : Libm) (a b : Decimal),
    complex_root a b = true ->
    exists msg,
      Root_execute a b = Raise (TypeError msg)
      \/ Root_execute a b = Raise (OverflowError msg)
      \/ Root_execute a b = Raise (ZeroDivisionError msg).
Proof.
  intros L a b Hc. unfold complex_root in Hc. unfold Root_execute.
  destruct (__float__ a) as [[sz|si| |[|] ma ea]|ea]; try discriminate.
  destruct (__float__ b) as [[sz|si| |sy my ey]|eb]; try discriminate.
  cbn [mbind Result_bind]. unfold float_truediv. cbn [is_zero mbind Result_bind].
  destruct (SFdiv fprec femax fone (S754_finite sy my ey))
    as [sz|si| |sw mw ew] eqn:Hw; try discriminate.
  rewrite negb_true_iff in Hc.
  unfold float_pow.
  cbn [is_zero is_nan is_inf SFltb SFcompare fzero andb negb].
  rewrite Hc. cbn [negb mbind Result_bind]. unfold complex_pow.
  destruct (libm_cpow_errno _ _); cbn [mbind Result_bind Decimal_new]; eauto.
Qed.

Lemma Root_execute_complex_root_witness :
  complex_root (Decimal_of_Z (-8)) (Decimal_of_Z 2) = true
  /\ exists msg,
      Root_execute (H := example_libm) (Decimal_of_Z (-8)) (Decimal_of_Z 2)
        = Raise (TypeError msg)
      \/ Root_execute (H := example_libm) (Decimal_of_Z (-8)) (Decimal_of_Z 2)
        = Raise (OverflowError msg)
      \/ Root_execute (H := example_libm) (Decimal_of_Z (-8)) (Decimal_of_Z 2)
        = Raise (ZeroDivisionError msg).
Proof.
  split; [vm_compute; reflexivity|].
  apply (Root_execute_complex_root example_libm); vm_compute; reflexivity.
Defined.

(** C7 fails as stated: the even root of a negative number is not always
    reported.  A degree too large for a float becomes infinite, the
    exponent [1 / float(b)] is [0.0] and the result is [1]; a radicand too
    large for a float becomes an infinity and so does the result; one too
    small becomes a zero.  A NaN operand comes back as a NaN. *)
Lemma Root_execute_unreported_counterexample :
  ~ (forall (L : Libm) (a b : Decimal),
       even_root_of_negative a b = true -> raises (Root_execute a b)).
Proof.
  intros Hclaim.
  destruct (Hclaim example_libm (Decimal_of_Z (-8)) (Finite false 1 400)) as [e He].
  - vm_compute. reflexivity.
  - vm_compute in He. discriminate He.
Qed.

Example Root_execute_unreported :
  Root_execute (H := example_libm) (Decimal_of_Z (-8)) (Finite false 1 400)
  = Ok (Decimal_of_Z 1)
  /\ Root_execute (H := example_libm) (Finite true 1 400) (Decimal_of_Z 2)
     = Ok (Infinity false)
  /\ Root_execute (H := example_libm) (Finite true 1 (-400)) (Decimal_of_Z 2)
     = Ok (Decimal_of_Z 0)
  /\ Root_execute (H := example_libm) (NaN false false 0) (Decimal_of_Z 2)
     = Ok (NaN false false 0).
Proof. repeat split; vm_compute; reflexivity. Qed.

(** ** Undo and redo *)

Import pydatetime calculation calculator_memento calculator.

Lemma pop_app {A : Type} (stack : list A) (x : A) :
  pop (stack ++ [x]) = Some (stack, x).
Proof.
  unfold pop. rewrite rev_unit, rev_involutive. reflexivity.
Qed.

Lemma pop_nil {A : Type} : pop (@nil A) = None.
Proof. reflexivity. Qed.

Lemma pop_Some {A : Type} (stack : list A) :
  stack <> [] -> exists rest x, stack = rest ++ [x] /\ pop stack = Some (rest, x).
Proof.
  intros Hne. destruct (exists_last Hne) as [rest [x ->]].
  exists rest, x. split; [reflexivity|apply pop_app].
Qed.

Section engine.

Variable ctx : Context.
Context `{Libm}.
Variable ops : gmap string PyType.

(** A successful [perform_operation] leaves the engine with the new
    calculation appended, the old history on the undo stack and an empty
    redo stack. *)
Lemma perform_operation_Ok calc name a b now r calc' :
  perform_operation ctx ops calc name a b now = Ok (r, calc') ->
  exists c,
    r = calculation.result c
    /\ history calc' = history calc ++ [c]
    /\ undo_stack calc'
       = undo_stack calc
         ++ [{| calculator_memento.history := history calc;
                calculator_memento.timestamp := now |}]
    /\ redo_stack calc' = [].
Proof.
  unfold perform_operation. intros Hp.
  destruct (validate_number a) as [da|]; [|discriminate].
  destruct (validate_number b) as [db|]; [|discriminate].
  cbn [mbind Result_bind] in Hp.
  destruct (create_operation ops name) as [op|]; [|discriminate].
  cbn [mbind Result_bind] in Hp.
  destruct (Calculation_new ctx ops _ da db now) as [c|]; [|discriminate].
  cbn [mbind Result_bind] in Hp. injection Hp as <- <-.
  exists c. repeat split.
Qed.

End engine.

(** C2: in a reachable state of the engine whose redo stack is not empty,
    a successful [perform_operation] leaves the redo stack empty, and a
    [redo] after it has nothing to redo. *)
Theorem perform_operation_clears_redo :
  forall (ctx : Context) (L : Libm) (ops : gmap string PyType)
         (calc calc' : Calculator) (name a b : string) (now : datetime)
         (r : Decimal),
    reachable ctx ops calc ->
    redo_stack calc <> [] ->
    perform_operation ctx ops calc name a b now = Ok (r, calc') ->
    redo_stack calc' = [] /\ forall now', redo calc' now' = None.
Proof.
  intros ctx L ops calc calc' name a b now r _ _ Hp.
  apply perform_operation_Ok in Hp as (c & _ & _ & _ & Hredo).
  split; [exact Hredo|].
  intros now'. unfold redo. rewrite Hredo. reflexivity.
Qed.

Lemma perform_operation_clears_redo_witness :
  exists r calc',
    perform_operation DefaultContext (H := example_libm) _operations
      example_undone "multiply" "4" "5" example_now = Ok (r, calc')
    /\ redo_stack example_undone <> []
    /\ redo_stack calc' = []
    /\ forall now', redo calc' now' = None.
Proof.
  destruct (perform_operation DefaultContext (H := example_libm) _operations
              example_undone "multiply" "4" "5" example_now)
    as [[r calc']|e] eqn:Hp; [|vm_compute in Hp; discriminate Hp].
  exists r, calc'. split; [reflexivity|].
  assert (Hne : redo_stack example_undone <> []) by (vm_compute; discriminate).
  split; [exact Hne|].
  apply (perform_operation_clears_redo DefaultContext example_libm _operations
           example_undone calc' "multiply" "4" "5" example_now r).
  - unfold example_undone. apply reachable_run, reachable_run, reachable_new.
  - exact Hne.
  - exact Hp.
Defined.

(** C9: with a non-empty undo stack, [undo] succeeds, the [redo] right
    after it succeeds too and restores the history as it was before the
    undo; the stacks come back as well, up to the time of the memento on
    top of the undo stack. *)
Theorem undo_then_redo :
  forall (calc : Calculator) (now now' : datetime),
    undo_stack calc <> [] ->
    exists calc1 calc2,
      undo calc now = Some calc1
      /\ redo calc1 now' = Some calc2
      /\ history calc2 = history calc
      /\ redo_stack calc2 = redo_stack calc
      /\ calculator_memento.history <$> undo_stack calc2
         = calculator_memento.history <$> undo_stack calc.
Proof.
  intros calc now now' Hne.
  destruct (pop_Some _ Hne) as (rest & m & Hstack & Hpop).
  unfold undo. rewrite Hpop. eexists. eexists.
  split; [reflexivity|].
  unfold redo. cbn [redo_stack history undo_stack]. rewrite pop_app.
  split; [reflexivity|].
  cbn [history redo_stack undo_stack calculator_memento.history].
  split; [reflexivity|]. split; [reflexivity|].
  rewrite Hstack, !fmap_app. reflexivity.
Qed.

Lemma undo_then_redo_witness :
  undo_stack example_added <> []
  /\ exists calc1 calc2,
      undo example_added example_now = Some calc1
      /\ redo calc1 example_now = Some calc2
      /\ history calc2 = history example_added
      /\ redo_stack calc2 = redo_stack example_added
      /\ calculator_memento.history <$> undo_stack calc2
         = calculator_memento.history <$> undo_stack example_added.
Proof.
  assert (Hne : undo_stack example_added <> []) by (vm_compute; discriminate).
  split; [exact Hne|].
  exact (undo_then_redo example_added example_now example_now Hne).
Defined.

(** The scenario of the specification: [add 2 3], then [undo] empties the
    history, then [redo] brings the calculation back. *)
Example add_undo_redo :
  (operation <$> history example_added) = ["Addition"%string]
  /\ (calculation.result <$> history example_added) = [Decimal_of_Z 5]
  /\ (history <$> undo example_added example_now) = Some []
  /\ (history <$> (undo example_added example_now
                     ≫= fun calc => redo calc example_now))
     = Some (history example_added).
Proof. repeat split; vm_compute; reflexivity. Qed.

(** Nothing to undo and nothing to redo in a new engine. *)
Example undo_redo_empty :
  undo Calculator_new example_now = None
  /\ redo Calculator_new example_now = None.
Proof. split; reflexivity. Qed.

(** ** Decimals and strings *)

Lemma N_log2_div10 (n : N) : (10 <= n)%N -> (N.log2 (n / 10) < N.log2 n)%N.
Proof.
  intros Hn.
  destruct (N.lt_ge_cases (N.log2 (n / 10)) (N.log2 n)) as [Hlt|Hge]; [exact Hlt|].
  exfalso.
  assert (Hq : (0 < n / 10)%N) by (apply N.div_str_pos; lia).
  apply N.log2_le_pow2 in Hge; [|exact Hq].
  assert (Hn' : (n < 2 ^ N.succ (N.log2 n))%N)
    by (apply N.log2_spec; lia).
  rewrite N.pow_succ_r' in Hn'.
  pose proof (N.Div0.mul_div_le n 10) as Hm. lia.
Qed.

Lemma str_N_aux_S (f : nat) (n : N) (acc : list ascii) :
  str_N_aux (S f) n acc
  = if (n <? 10)%N then digit_char (n mod 10) :: acc
    else str_N_aux f (n / 10) (digit_char (n mod 10) :: acc).
Proof. reflexivity. Qed.

(** With enough fuel the digits do not depend on it. *)
Lemma str_N_aux_fuel (f1 : nat) :
  forall f2 n acc,
    (N.to_nat (N.log2 n) < f1)%nat -> (N.to_nat (N.log2 n) < f2)%nat ->
    str_N_aux f1 n acc = str_N_aux f2 n acc.
Proof.
  induction f1 as [|f1 IH]; intros f2 n acc H1 H2; [lia|].
  destruct f2 as [|f2]; [lia|].
  rewrite !str_N_aux_S.
  destruct (n <? 10)%N eqn:Hn; [reflexivity|].
  apply N.ltb_ge in Hn. pose proof (N_log2_div10 n Hn).
  apply IH; lia.
Qed.

Lemma str_N_aux_acc (f : nat) :
  forall n acc,
    (N.to_nat (N.log2 n) < f)%nat ->
    str_N_aux f n acc = str_N_aux f n [] ++ acc.
Proof.
  induction f as [|f IH]; intros n acc Hf; [lia|].
  rewrite !str_N_aux_S.
  destruct (n <? 10)%N eqn:Hn; [reflexivity|].
  apply N.ltb_ge in Hn. pose proof (N_log2_div10 n Hn).
  rewrite IH by lia.
  rewrite (IH _ [_]) by lia.
  rewrite <- app_assoc. reflexivity.
Qed.

(** The digits of a number: the digits of its tenth, and its last digit. *)
Lemma str_N_eq (n : N) :
  str_N n = if (n <? 10)%N then [digit_char n]
            else str_N (n / 10) ++ [digit_char (n mod 10)].
Proof.
  unfold str_N at 1. rewrite str_N_aux_S.
  destruct (n <? 10)%N eqn:Hn.
  - apply N.ltb_lt in Hn. rewrite N.mod_small by exact Hn. reflexivity.
  - apply N.ltb_ge in Hn. pose proof (N_log2_div10 n Hn).
    rewrite str_N_aux_acc by lia.
    f_equal. unfold str_N. apply str_N_aux_fuel; lia.
Qed.

Lemma digit_char_val (d : N) : (d < 10)%N -> digit_val (digit_char d) = d.
Proof.
  intros Hd. unfold digit_val, digit_char.
  rewrite N_ascii_embedding by lia. lia.
Qed.

Lemma digit_char_is_digit (d : N) : (d < 10)%N -> is_digit (digit_char d) = true.
Proof.
  intros Hd. unfold is_digit, digit_char.
  rewrite N_ascii_embedding by lia.
  apply andb_true_intro. split; apply N.leb_le; lia.
Qed.

Lemma int_of_digits_snoc (l : list ascii) (c : ascii) :
  int_of_digits (l ++ [c]) = (10 * int_of_digits l + digit_val c)%N.
Proof. unfold int_of_digits. rewrite fold_left_app. reflexivity. Qed.

(** [int(str(n)) == n] *)
Lemma int_of_digits_str_N (n : N) : int_of_digits (str_N n) = n.
Proof.
  induction n as [n IH] using (well_founded_induction N.lt_wf_0).
  rewrite str_N_eq. destruct (n <? 10)%N eqn:Hn.
  - apply N.ltb_lt in Hn. unfold int_of_digits. simpl.
    rewrite digit_char_val by exact Hn. lia.
  - apply N.ltb_ge in Hn. rewrite int_of_digits_snoc.
    rewrite IH by (apply N.div_lt; lia).
    rewrite digit_char_val by (apply N.mod_lt; lia).
    symmetry. apply N.div_mod'.
Qed.

Lemma str_N_digits (n : N) : forallb is_digit (str_N n) = true.
Proof.
  induction n as [n IH] using (well_founded_induction N.lt_wf_0).
  rewrite str_N_eq. destruct (n <? 10)%N eqn:Hn.
  - apply N.ltb_lt in Hn. simpl. rewrite digit_char_is_digit by exact Hn.
    reflexivity.
  - apply N.ltb_ge in Hn. rewrite forallb_app.
    rewrite IH by (apply N.div_lt; lia). simpl.
    rewrite digit_char_is_digit by (apply N.mod_lt; lia). reflexivity.
Qed.

Lemma str_N_nonempty (n : N) : str_N n <> [].
Proof.
  rewrite str_N_eq. destruct (n <? 10)%N; [discriminate|].
  intros Happ. apply app_eq_nil in Happ as [_ Hnil]. discriminate.
Qed.

(** Leading zeros do not change the integer. *)
Lemma int_of_digits_zeros (k : nat) (l : list ascii) :
  int_of_digits (replicate k "0"%char ++ l) = int_of_digits l.
Proof.
  unfold int_of_digits. rewrite fold_left_app. f_equal.
  induction k as [|k IH]; [reflexivity|]. simpl. exact IH.
Qed.

Lemma replicate_zero_digits (k : nat) :
  forallb is_digit (replicate k "0"%char) = true.
Proof. induction k as [|k IH]; [reflexivity|]. simpl. exact IH. Qed.

(** A run of digits that ends the string, or that a character other than
    a digit follows, is what [span_digits] takes. *)
Lemma span_digits_app (ds rest : list ascii) :
  forallb is_digit ds = true ->
  match rest with c :: _ => is_digit c = false | [] => True end ->
  span_digits (ds ++ rest) = (ds, rest).
Proof.
  intros Hds Hrest. induction ds as [|d ds IH]; simpl.
  - destruct rest as [|c rest]; [reflexivity|]. simpl. rewrite Hrest. reflexivity.
  - simpl in Hds. apply andb_prop in Hds as [Hd Hds].
    rewrite Hd, IH by exact Hds. reflexivity.
Qed.

Lemma span_digits_all (ds : list ascii) :
  forallb is_digit ds = true -> span_digits ds = (ds, []).
Proof.
  intros Hds. rewrite <- (app_nil_r ds) at 1.
  apply span_digits_app; [exact Hds|exact I].
Qed.

(** *** The string of a decimal parses back to the decimal *)

Lemma is_digit_plain (c : ascii) : is_digit c = true -> plain c = true.
Proof.
  destruct c as [[] [] [] [] [] [] [] []]; try discriminate; reflexivity.
Qed.

Lemma digits_plain (l : list ascii) :
  forallb is_digit l = true -> forallb plain l = true.
Proof.
  induction l as [|c l IH]; [reflexivity|]. simpl.
  intros Hl. apply andb_prop in Hl as [Hc Hl].
  rewrite is_digit_plain, IH by assumption. reflexivity.
Qed.

Lemma lstrip_plain (l : list ascii) : forallb plain l = true -> lstrip l = l.
Proof.
  destruct l as [|c l]; [reflexivity|]. simpl. intros Hl.
  apply andb_prop in Hl as [Hc _]. unfold plain in Hc.
  apply andb_prop in Hc as [Hc _]. apply negb_true_iff in Hc.
  rewrite Hc. reflexivity.
Qed.

Lemma forallb_rev {A : Type} (f : A -> bool) (l : list A) :
  forallb f l = true -> forallb f (rev l) = true.
Proof.
  rewrite !forallb_forall. intros Hl x Hx. apply Hl, in_rev, Hx.
Qed.

Lemma strip_plain (l : list ascii) : forallb plain l = true -> strip l = l.
Proof.
  intros Hl. unfold strip. rewrite (lstrip_plain l Hl).
  rewrite lstrip_plain by (apply forallb_rev, Hl).
  apply rev_involutive.
Qed.

Lemma remove_underscores_plain (l : list ascii) :
  forallb plain l = true -> remove_underscores l = l.
Proof.
  unfold remove_underscores.
  induction l as [|c l IH]; [reflexivity|]. simpl. intros Hl.
  apply andb_prop in Hl as [Hc Hl]. unfold plain in Hc.
  apply andb_prop in Hc as [_ Hc]. rewrite Hc, IH by exact Hl. reflexivity.
Qed.

Lemma is_digit_not_sign (c : ascii) (l : list ascii) :
  is_digit c = true -> take_sign (c :: l) = (false, c :: l).
Proof.
  destruct c as [[] [] [] [] [] [] [] []]; try discriminate; reflexivity.
Qed.

Lemma take_sign_format_signed (z : Z) :
  take_sign (format_signed z) = (z <? 0, str_N (Z.abs_N z)).
Proof. unfold format_signed. destruct (z <? 0); reflexivity. Qed.

Lemma format_signed_plain (z : Z) : forallb plain (format_signed z) = true.
Proof.
  unfold format_signed. simpl.
  rewrite digits_plain by apply str_N_digits.
  destruct (z <? 0); reflexivity.
Qed.

Lemma take_fraction_parts (hasdot : bool) (fd rest : list ascii) :
  forallb is_digit fd = true ->
  (hasdot = false -> fd = []) ->
  match rest with
  | c :: _ => is_digit c = false /\ c <> "."%char
  | [] => True
  end ->
  take_fraction ((if hasdot then "."%char :: fd else []) ++ rest) = (fd, rest).
Proof.
  intros Hfd Hdot Hrest. destruct hasdot.
  - simpl. apply span_digits_app; [exact Hfd|].
    destruct rest; [exact I|apply Hrest].
  - rewrite (Hdot eq_refl). simpl. destruct rest as [|c rest]; [reflexivity|].
    destruct Hrest as [_ Hc]. unfold take_fraction.
    destruct c as [[] [] [] [] [] [] [] []]; try reflexivity. congruence.
Qed.

Lemma parse_exponent_format_signed (ev : Z) :
  parse_exponent ("E"%char :: format_signed ev) = Some ev.
Proof.
  unfold parse_exponent. cbn [Ascii.eqb orb Bool.eqb].
  rewrite take_sign_format_signed.
  rewrite span_digits_all by apply str_N_digits.
  destruct (str_N (Z.abs_N ev)) as [|c0 l0] eqn:Hstr;
    [exfalso; exact (str_N_nonempty _ Hstr)|].
  rewrite <- Hstr, int_of_digits_str_N.
  f_equal. destruct (ev <? 0) eqn:Hneg; lia.
Qed.

(** The number that [parse_number] reads from an integer part, an
    optional point and fraction, and an optional exponent. *)
Lemma parse_number_parts (sign hasdot : bool) (ip fd : list ascii)
    (hasexp : bool) (ev : Z) :
  forallb is_digit ip = true ->
  forallb is_digit fd = true ->
  (hasdot = false -> fd = []) ->
  (hasexp = false -> ev = 0) ->
  parse_number sign
    (ip ++ (if hasdot then "."%char :: fd else [])
        ++ (if hasexp then "E"%char :: format_signed ev else []))
  = Some (Finite sign (int_of_digits (ip ++ fd)) (ev - Z.of_nat (length fd))).
Proof.
  intros Hip Hfd Hdot Hexp. unfold parse_number.
  set (exppart := if hasexp then "E"%char :: format_signed ev else []).
  assert (Hhead : match exppart with
                  | c :: _ => is_digit c = false /\ c <> "."%char
                  | [] => True
                  end)
    by (unfold exppart; destruct hasexp; [split; [reflexivity|discriminate]|exact I]).
  rewrite (span_digits_app ip); [|exact Hip|].
  2:{ destruct hasdot; [reflexivity|].
      simpl. destruct exppart; [exact I|apply Hhead]. }
  rewrite take_fraction_parts by assumption.
  unfold exppart. destruct hasexp.
  - rewrite parse_exponent_format_signed. reflexivity.
  - rewrite (Hexp eq_refl). reflexivity.
Qed.

Lemma forallb_take_drop {A : Type} (f : A -> bool) (k : nat) (l : list A) :
  forallb f l = true ->
  forallb f (take k l) = true /\ forallb f (drop k l) = true.
Proof.
  intros Hl. rewrite <- (take_drop k l), forallb_app in Hl.
  apply andb_prop in Hl. exact Hl.
Qed.

(** The parts of the string of a finite decimal. *)
Lemma _str_finite_parts (c : N) (e : Z) :
  exists (hasdot hasexp : bool) (ip fd : list ascii) (ev : Z),
    _str_finite c e
    = ip ++ (if hasdot then "."%char :: fd else [])
         ++ (if hasexp then "E"%char :: format_signed ev else [])
    /\ forallb is_digit ip = true
    /\ forallb is_digit fd = true
    /\ (hasdot = false -> fd = [])
    /\ (hasexp = false -> ev = 0)
    /\ ip <> []
    /\ int_of_digits (ip ++ fd) = c
    /\ ev - Z.of_nat (length fd) = e.
Proof.
  unfold _str_finite.
  pose proof (str_N_digits c) as Hdig.
  pose proof (str_N_nonempty c) as Hne.
  pose proof (int_of_digits_str_N c) as Hint.
  set (_int := str_N c) in *. clearbody _int.
  assert (Hlen : (0 < length _int)%nat)
    by (destruct _int; [congruence|simpl; lia]).
  set (len := Z.of_nat (length _int)).
  assert (Hlen' : 0 < len) by (unfold len; lia).
  destruct ((e <=? 0) && (-6 <? e + len)) eqn:Hcond.
  - (* no exponent *)
    apply andb_prop in Hcond as [He _]. apply Z.leb_le in He.
    rewrite Z.eqb_refl.
    destruct (e + len <=? 0) eqn:Hdp.
    + apply Z.leb_le in Hdp.
      exists true, false, ["0"%char],
        (replicate (Z.to_nat (- (e + len))) "0"%char ++ _int), 0.
      repeat split; try discriminate.
      * rewrite forallb_app, replicate_zero_digits, Hdig. reflexivity.
      * change (["0"%char] ++ replicate (Z.to_nat (- (e + len))) "0"%char ++ _int)
          with (replicate (S (Z.to_nat (- (e + len)))) "0"%char ++ _int).
        rewrite int_of_digits_zeros. exact Hint.
      * rewrite length_app, length_replicate. unfold len in *. lia.
    + apply Z.leb_gt in Hdp.
      destruct (len <=? e + len) eqn:Hge.
      * apply Z.leb_le in Hge. assert (e = 0) as -> by lia.
        replace (0 + len - len) with 0 by lia.
        exists false, false, _int, [], 0. simpl.
        rewrite !app_nil_r. repeat split; auto.
      * apply Z.leb_gt in Hge.
        destruct (forallb_take_drop is_digit (Z.to_nat (e + len)) _int Hdig)
          as [Htake Hdrop].
        exists true, false, (take (Z.to_nat (e + len)) _int),
          (drop (Z.to_nat (e + len)) _int), 0.
        repeat split; try assumption; try discriminate.
        -- intros Hnil. apply (f_equal (@length ascii)) in Hnil.
           rewrite length_take in Hnil. unfold len in *.
           change (length (@nil ascii)) with 0%nat in Hnil. lia.
        -- rewrite take_drop. exact Hint.
        -- rewrite length_drop. unfold len in *. lia.
  - (* scientific notation: one digit before the point *)
    change (1 <=? 0) with false. cbv iota.
    destruct (len <=? 1) eqn:Hone.
    + apply Z.leb_le in Hone. assert (Hl1 : len = 1) by lia.
      rewrite Hl1. change (1 - 1) with 0. simpl (replicate _ _).
      rewrite app_nil_r.
      destruct (e + 1 =? 1) eqn:He.
      * apply Z.eqb_eq in He. assert (e = 0) as -> by lia.
        rewrite Hl1 in Hcond. discriminate Hcond.
      * exists false, true, _int, [], (e + 1 - 1).
        repeat split; auto; try discriminate.
        -- rewrite app_nil_r. exact Hint.
        -- simpl. lia.
    + apply Z.leb_gt in Hone.
      destruct (forallb_take_drop is_digit (Z.to_nat 1) _int Hdig)
        as [Htake Hdrop].
      assert (Htl : take (Z.to_nat 1) _int <> [])
        by (destruct _int; [congruence|discriminate]).
      assert (Hdl : Z.of_nat (length (drop (Z.to_nat 1) _int)) = len - 1)
        by (rewrite length_drop; unfold len in *; lia).
      destruct (e + len =? 1) eqn:He.
      * apply Z.eqb_eq in He.
        exists true, false, (take (Z.to_nat 1) _int),
          (drop (Z.to_nat 1) _int), 0.
        repeat split; try assumption; try discriminate.
        -- rewrite take_drop. exact Hint.
        -- lia.
      * exists true, true, (take (Z.to_nat 1) _int),
          (drop (Z.to_nat 1) _int), (e + len - 1).
        repeat split; try assumption; try discriminate.
        -- rewrite take_drop. exact Hint.
        -- lia.
Qed.

Lemma _parser_str_finite (s : bool) (c : N) (e : Z) :
  _parser ((if s then ["-"%char] else []) ++ _str_finite c e)
  = Some (Finite s c e)
  /\ forallb plain (_str_finite c e) = true.
Proof.
  destruct (_str_finite_parts c e)
    as (hasdot & hasexp & ip & fd & ev & Hshape & Hip & Hfd & Hdot & Hexp
        & Hne & Hint & Hev).
  pose proof (parse_number_parts s hasdot ip fd hasexp ev Hip Hfd Hdot Hexp)
    as Hparse.
  rewrite <- Hshape, Hint, Hev in Hparse.
  split.
  - destruct ip as [|c0 ip']; [congruence|].
    simpl in Hip. apply andb_prop in Hip as [Hc0 _].
    rewrite Hshape in *. simpl app in *.
    unfold _parser. destruct s.
    + simpl app. cbn [take_sign]. rewrite Hc0. exact Hparse.
    + simpl app. rewrite is_digit_not_sign by exact Hc0.
      rewrite Hc0. exact Hparse.
  - rewrite Hshape, !forallb_app, (digits_plain ip Hip).
    destruct hasdot, hasexp; cbn -[format_signed];
      rewrite ?(digits_plain fd Hfd), ?format_signed_plain; reflexivity.
Qed.

Lemma _parser_str_chars (d : Decimal) :
  _parser (_str_chars d) = Some d /\ forallb plain (_str_chars d) = true.
Proof.
  destruct d as [s c e|s|s sig p]; unfold _str_chars; cbn [_sign].
  - destruct (_parser_str_finite s c e) as [Hparse Hplain].
    split; [exact Hparse|].
    rewrite forallb_app, Hplain. destruct s; reflexivity.
  - destruct s; split; reflexivity.
  - assert (Hpay : span_digits (if (p =? 0)%N then [] else str_N p)
                   = ((if (p =? 0)%N then [] else str_N p), [])
                   /\ int_of_digits (if (p =? 0)%N then [] else str_N p) = p
                   /\ forallb plain (if (p =? 0)%N then [] else str_N p) = true).
    { destruct (p =? 0)%N eqn:Hp.
      - apply N.eqb_eq in Hp. subst p. repeat split.
      - split; [apply span_digits_all, str_N_digits|].
        split; [apply int_of_digits_str_N|apply digits_plain, str_N_digits]. }
    destruct Hpay as (Hspan & Hint & Hplain).
    set (payload := if (p =? 0)%N then [] else str_N p) in *.
    destruct s, sig; simpl;
      (split; [unfold _parser, parse_special; simpl; rewrite Hspan, Hint;
               reflexivity
              |exact Hplain]).
Qed.

(** [Decimal(str(d))] is [d]: sign, coefficient and exponent, or the
    special value with its payload, come back as they were. *)
Lemma Decimal_of_str___str__ (d : Decimal) : Decimal_of_str (__str__ d) = Ok d.
Proof.
  destruct (_parser_str_chars d) as [Hparse Hplain].
  unfold Decimal_of_str, __str__.
  rewrite list_ascii_of_string_of_list_ascii.
  rewrite strip_plain, remove_underscores_plain by assumption.
  rewrite Hparse. reflexivity.
Qed.

(** *** The ISO format of a datetime parses back to the datetime *)

Lemma length_str_N (k : nat) :
  forall n, (n < 10 ^ N.of_nat (S k))%N -> (length (str_N n) <= S k)%nat.
Proof.
  induction k as [|k IH]; intros n Hn; rewrite str_N_eq.
  - change (10 ^ N.of_nat 1)%N with 10%N in Hn.
    apply N.ltb_lt in Hn. rewrite Hn. simpl. lia.
  - destruct (n <? 10)%N eqn:H10; [simpl; lia|].
    rewrite length_app. simpl.
    assert (Hdiv : (n / 10 < 10 ^ N.of_nat (S k))%N).
    { apply N.Div0.div_lt_upper_bound.
      replace (N.of_nat (S (S k))) with (N.succ (N.of_nat (S k))) in Hn by lia.
      rewrite N.pow_succ_r' in Hn. exact Hn. }
    specialize (IH _ Hdiv). lia.
Qed.

Section zfill.

Variable width : nat.
Variable n : N.
Hypothesis Hwidth : (n < 10 ^ N.of_nat (S width))%N.

Lemma length_zfill : length (zfill (S width) n) = S width.
Proof.
  unfold zfill. rewrite length_app, length_replicate.
  pose proof (length_str_N width n Hwidth). lia.
Qed.

Lemma zfill_digits : forallb is_digit (zfill (S width) n) = true.
Proof.
  unfold zfill. rewrite forallb_app, replicate_zero_digits, str_N_digits.
  reflexivity.
Qed.

Lemma int_of_digits_zfill : int_of_digits (zfill (S width) n) = n.
Proof.
  unfold zfill. rewrite int_of_digits_zeros. apply int_of_digits_str_N.
Qed.

Lemma take_field_zfill (rest : list ascii) :
  take_field (S width) (zfill (S width) n ++ rest) = Some (n, rest).
Proof.
  unfold take_field.
  pose proof length_zfill as Hlen. pose proof zfill_digits as Hdig.
  pose proof int_of_digits_zfill as Hint.
  set (z := zfill (S width) n) in *. clearbody z.
  rewrite <- Hlen, take_app_length, drop_app_length.
  rewrite Nat.eqb_refl, Hdig, Hint. reflexivity.
Qed.

End zfill.

Lemma days_in_month_le (y m : N) : (days_in_month y m <= 31)%N.
Proof.
  unfold days_in_month.
  destruct m as [|[[[[] | [] |] | [[] | [] |] |] | [[[] | [] |] | [[] | [] |] |] |]];
    try destruct (is_leap y); lia.
Qed.

(** [datetime.fromisoformat(dt.isoformat())] is [dt]. *)
Lemma fromisoformat_isoformat (dt : datetime) :
  valid_datetime dt = true -> fromisoformat (isoformat dt) = Ok dt.
Proof.
  intros Hvalid. pose proof Hvalid as Hv. unfold valid_datetime in Hv.
  repeat (apply andb_prop in Hv as [Hv ?]).
  repeat match goal with
         | H : (_ <=? _)%N = true |- _ => apply N.leb_le in H
         | H : (_ <? _)%N = true |- _ => apply N.ltb_lt in H
         end.
  pose proof (days_in_month_le (year dt) (month dt)).
  unfold fromisoformat, isoformat.
  rewrite list_ascii_of_string_of_list_ascii.
  unfold parse_isoformat.
  rewrite (take_field_zfill 3) by (simpl; lia).
  cbn [mbind option_bind take_char Ascii.eqb Bool.eqb].
  rewrite (take_field_zfill 1) by (simpl; lia).
  cbn [mbind option_bind take_char Ascii.eqb Bool.eqb].
  rewrite (take_field_zfill 1) by (simpl; lia).
  cbn [mbind option_bind take_char Ascii.eqb Bool.eqb].
  rewrite (take_field_zfill 1) by (simpl; lia).
  cbn [mbind option_bind take_char Ascii.eqb Bool.eqb].
  rewrite (take_field_zfill 1) by (simpl; lia).
  cbn [mbind option_bind take_char Ascii.eqb Bool.eqb].
  rewrite (take_field_zfill 1) by (simpl; lia).
  cbn [mbind option_bind].
  destruct (microsecond dt =? 0)%N eqn:Hus.
  - apply N.eqb_eq in Hus. cbn [mbind option_bind].
    replace {| year := year dt; month := month dt; day := day dt;
               hour := hour dt; minute := minute dt; second := second dt;
               microsecond := 0 |} with dt
      by (destruct dt; simpl in *; congruence).
    rewrite Hvalid. reflexivity.
  - cbn [mbind option_bind take_char Ascii.eqb Bool.eqb].
    rewrite <- (app_nil_r (zfill 6 _)).
    rewrite (take_field_zfill 5) by (simpl; lia).
    cbn [mbind option_bind].
    replace {| year := year dt; month := month dt; day := day dt;
               hour := hour dt; minute := minute dt; second := second dt;
               microsecond := microsecond dt |} with dt
      by (destruct dt; reflexivity).
    rewrite Hvalid. reflexivity.
Qed.

(** ** Serialization *)

Section serialization.

Variable ctx : Context.
Context `{Libm}.
Variable ops : gmap string PyType.

Lemma Calculation_new_constructed name a b now c :
  Calculation_new ctx ops name a b now = Ok c ->
  valid_datetime now = true ->
  constructed ctx ops c.
Proof.
  intros Hnew Hvalid. unfold constructed.
  assert (Hfields : operation c = name /\ operand1 c = a /\ operand2 c = b
                    /\ calculation.timestamp c = now).
  { unfold Calculation_new in Hnew.
    destruct (matching_operation ops name); [|discriminate].
    destruct (_ ≫= _); [|discriminate].
    injection Hnew as <-. repeat split. }
  destruct Hfields as (-> & -> & -> & ->). split; assumption.
Qed.

Lemma Calculation_from_dict_to_dict (c : Calculation) :
  constructed ctx ops c ->
  calculation.from_dict ctx ops (calculation.to_dict c) = Ok c.
Proof.
  intros [Hnew Hvalid].
  unfold calculation.from_dict, calculation.to_dict, get_str.
  repeat (rewrite lookup_insert_eq || rewrite lookup_insert_ne by done).
  cbn [mbind Result_bind].
  rewrite !Decimal_of_str___str__. cbn [validated mbind Result_bind].
  rewrite fromisoformat_isoformat by exact Hvalid.
  cbn [validated mbind Result_bind].
  exact Hnew.
Qed.

Lemma mapM_from_dict_to_dict (h : list Calculation) :
  Forall (constructed ctx ops) h ->
  mapM (calculation.from_dict ctx ops) (calculation.to_dict <$> h) = Ok h.
Proof.
  induction 1 as [|c h Hc _ IH]; [reflexivity|].
  cbn [fmap list_fmap mapM].
  rewrite Calculation_from_dict_to_dict by exact Hc.
  cbn [mbind Result_bind]. rewrite IH. reflexivity.
Qed.

Lemma CalculatorMemento_from_dict_to_dict (m : CalculatorMemento) :
  Forall (constructed ctx ops) (calculator_memento.history m) ->
  valid_datetime (calculator_memento.timestamp m) = true ->
  calculator_memento.from_dict ctx ops (calculator_memento.to_dict m) = Ok m.
Proof.
  intros Hh Hvalid.
  unfold calculator_memento.from_dict, calculator_memento.to_dict,
    get_list, get_str.
  repeat (rewrite lookup_insert_eq || rewrite lookup_insert_ne by done).
  cbn [mbind Result_bind].
  rewrite mapM_from_dict_to_dict by exact Hh.
  cbn [mbind Result_bind].
  rewrite fromisoformat_isoformat by exact Hvalid.
  cbn [validated mbind Result_bind].
  destruct m. reflexivity.
Qed.

End serialization.

(** C3: [Calculation.from_dict(c.to_dict())] gives [c] back, with the
    operation name, the operands and the result as they were: the
    decimals are the same decimals, sign, digits and exponent.  And
    [CalculatorMemento.from_dict(CalculatorMemento(h).to_dict())] gives
    the memento back, every calculation of the history field for field and
    the timestamp. *)
Theorem from_dict_to_dict_round_trip :
  forall (ctx : Context) (L : Libm) (ops : gmap string PyType)
         (c : Calculation) (m : CalculatorMemento),
    constructed ctx ops c ->
    Forall (constructed ctx ops) (calculator_memento.history m) ->
    valid_datetime (calculator_memento.timestamp m) = true ->
    calculation.from_dict ctx ops (calculation.to_dict c) = Ok c
    /\ calculator_memento.from_dict ctx ops (calculator_memento.to_dict m)
       = Ok m.
Proof.
  intros ctx L ops c m Hc Hh Hvalid. split.
  - apply Calculation_from_dict_to_dict, Hc.
  - apply CalculatorMemento_from_dict_to_dict; assumption.
Qed.

Example example_calculation_new :
  Calculation_new DefaultContext (H := example_libm) _operations "Addition"
    (Decimal_of_Z 2) (Decimal_of_Z 3) example_now
  = Ok example_calculation.
Proof. vm_compute. reflexivity. Qed.

Lemma from_dict_to_dict_round_trip_witness :
  let m := {| calculator_memento.history := [example_calculation];
              calculator_memento.timestamp := example_now |} in
  calculation.from_dict DefaultContext (H := example_libm) _operations
    (calculation.to_dict example_calculation) = Ok example_calculation
  /\ calculator_memento.from_dict DefaultContext (H := example_libm) _operations
       (calculator_memento.to_dict m) = Ok m.
Proof.
  assert (Hc : constructed DefaultContext (H := example_libm) _operations
                 example_calculation)
    by (split; vm_compute; reflexivity).
  apply (from_dict_to_dict_round_trip DefaultContext example_libm _operations).
  - exact Hc.
  - constructor; [exact Hc|constructor].
  - vm_compute. reflexivity.
Defined.

(** ** Decimal arithmetic *)

Lemma Z_log2_div10 (n : Z) : 10 <= n -> Z.log2 (n / 10) < Z.log2 n.
Proof.
  intros Hn.
  destruct (Z.lt_ge_cases (Z.log2 (n / 10)) (Z.log2 n)) as [Hlt|Hge]; [exact Hlt|].
  exfalso.
  assert (Hq : 0 < n / 10) by (apply Z.div_str_pos; lia).
  apply Z.log2_le_pow2 in Hge; [|exact Hq].
  assert (Hn' : n < 2 ^ Z.succ (Z.log2 n)) by (apply Z.log2_spec; lia).
  rewrite Z.pow_succ_r in Hn' by apply Z.log2_nonneg.
  pose proof (Z.mul_div_le n 10 ltac:(lia)) as Hm. lia.
Qed.

Lemma ndigits_aux_S (f : nat) (n : Z) :
  ndigits_aux (S f) n = if n <? 10 then 1 else 1 + ndigits_aux f (n / 10).
Proof. reflexivity. Qed.

Lemma ndigits_aux_fuel (f1 : nat) :
  forall f2 n,
    (Z.to_nat (Z.log2 n) <= f1)%nat -> (Z.to_nat (Z.log2 n) <= f2)%nat ->
    ndigits_aux f1 n = ndigits_aux f2 n.
Proof.
  induction f1 as [|f1 IH]; intros f2 n H1 H2.
  - assert (Hn : n < 10).
    { destruct (Z.lt_ge_cases n 10) as [Hlt|Hge]; [exact Hlt|].
      pose proof (Z_log2_div10 n Hge). pose proof (Z.log2_nonneg (n / 10)). lia. }
    destruct f2 as [|f2]; [reflexivity|].
    rewrite ndigits_aux_S. apply Z.ltb_lt in Hn. rewrite Hn. reflexivity.
  - destruct f2 as [|f2].
    + symmetry. rewrite ndigits_aux_S.
      assert (Hn : n < 10).
      { destruct (Z.lt_ge_cases n 10) as [Hlt|Hge]; [exact Hlt|].
        pose proof (Z_log2_div10 n Hge). pose proof (Z.log2_nonneg (n / 10)). lia. }
      apply Z.ltb_lt in Hn. rewrite Hn. reflexivity.
    + rewrite !ndigits_aux_S. destruct (n <? 10) eqn:Hn; [reflexivity|].
      apply Z.ltb_ge in Hn. pose proof (Z_log2_div10 n Hn).
      pose proof (Z.log2_nonneg (n / 10)).
      f_equal. apply IH; lia.
Qed.

(** The number of digits: one more than that of the tenth. *)
Lemma ndigits_eq (n : Z) :
  ndigits n = if n <? 10 then 1 else 1 + ndigits (n / 10).
Proof.
  unfold ndigits. destruct (n <? 10) eqn:Hn.
  - destruct (Z.to_nat (Z.log2 n)); [reflexivity|].
    rewrite ndigits_aux_S, Hn. reflexivity.
  - apply Z.ltb_ge in Hn. pose proof (Z_log2_div10 n Hn).
    pose proof (Z.log2_nonneg (n / 10)).
    destruct (Z.to_nat (Z.log2 n)) as [|f] eqn:Hf; [lia|].
    rewrite ndigits_aux_S. apply Z.ltb_ge in Hn. rewrite Hn.
    f_equal. apply ndigits_aux_fuel; lia.
Qed.

Lemma ndigits_pos (n : Z) : 1 <= ndigits n.
Proof.
  unfold ndigits. generalize (Z.to_nat (Z.log2 n)). intros f. revert n.
  induction f as [|f IH]; intros n; [simpl; lia|].
  rewrite ndigits_aux_S. destruct (n <? 10); [lia|].
  specialize (IH (n / 10)). lia.
Qed.

(** A positive integer lies between the powers of ten that its number of
    digits gives. *)
Lemma ndigits_bounds (n : Z) :
  0 < n -> 10 ^ (ndigits n - 1) <= n < 10 ^ ndigits n.
Proof.
  induction n as [n IH] using (well_founded_induction (Z.lt_wf 0)).
  intros Hn. rewrite ndigits_eq. destruct (n <? 10) eqn:H10.
  - apply Z.ltb_lt in H10. simpl. lia.
  - apply Z.ltb_ge in H10.
    assert (Hq : 0 < n / 10) by (apply Z.div_str_pos; lia).
    assert (Hlt : n / 10 < n) by (apply Z.div_lt; lia).
    destruct (IH (n / 10) ltac:(lia) Hq) as [Hlo Hhi].
    pose proof (ndigits_pos (n / 10)) as Hpos.
    replace (1 + ndigits (n / 10) - 1) with (ndigits (n / 10)) by lia.
    replace (1 + ndigits (n / 10)) with (Z.succ (ndigits (n / 10))) by lia.
    rewrite Z.pow_succ_r by lia.
    assert (10 ^ ndigits (n / 10) = 10 * 10 ^ (ndigits (n / 10) - 1)) as Heq.
    { replace (ndigits (n / 10)) with (Z.succ (ndigits (n / 10) - 1)) at 1 by lia.
      apply Z.pow_succ_r. lia. }
    pose proof (Z.mul_div_le n 10 ltac:(lia)).
    pose proof (Z.mul_succ_div_gt n 10 ltac:(lia)).
    lia.
Qed.

Lemma ndigits_le (n p : Z) : 0 < n -> n < 10 ^ p -> ndigits n <= p.
Proof.
  intros Hn Hp. destruct (ndigits_bounds n Hn) as [Hlo _].
  destruct (Z.le_gt_cases (ndigits n) p) as [Hle|Hgt]; [exact Hle|].
  exfalso. assert (0 <= p).
  { destruct (Z.le_gt_cases 0 p); [assumption|].
    rewrite Z.pow_neg_r in Hp by lia. lia. }
  pose proof (Z.pow_le_mono_r 10 p (ndigits n - 1) ltac:(lia) ltac:(lia)). lia.
Qed.

Lemma ndigits_gt (n p : Z) : 0 <= p -> 10 ^ p <= n -> p < ndigits n.
Proof.
  intros Hp Hn. assert (0 < n) by (pose proof (Z.pow_pos_nonneg 10 p); lia).
  destruct (ndigits_bounds n ltac:(lia)) as [_ Hhi].
  destruct (Z.lt_ge_cases p (ndigits n)) as [Hlt|Hge]; [exact Hlt|].
  exfalso. pose proof (ndigits_pos n).
  pose proof (Z.pow_le_mono_r 10 (ndigits n) p ltac:(lia) ltac:(lia)). lia.
Qed.

Lemma ndigits_unique (n k : Z) :
  10 ^ (k - 1) <= n < 10 ^ k -> 1 <= k -> ndigits n = k.
Proof.
  intros [Hlo Hhi] Hk.
  assert (0 < n) by (pose proof (Z.pow_pos_nonneg 10 (k - 1)); lia).
  pose proof (ndigits_le n k ltac:(lia) Hhi).
  pose proof (ndigits_gt n (k - 1) ltac:(lia) Hlo). lia.
Qed.

(** Appending zeros adds digits. *)
Lemma ndigits_shift (n j : Z) :
  0 < n -> 0 <= j -> ndigits (n * 10 ^ j) = ndigits n + j.
Proof.
  intros Hn Hj. destruct (ndigits_bounds n Hn) as [Hlo Hhi].
  pose proof (ndigits_pos n). pose proof (Z.pow_pos_nonneg 10 j ltac:(lia) Hj).
  apply ndigits_unique; [|lia]. split.
  - replace (ndigits n + j - 1) with (ndigits n - 1 + j) by lia.
    rewrite Z.pow_add_r by lia. nia.
  - rewrite Z.pow_add_r by lia. nia.
Qed.

Section fix_exact.

Variable ctx : Context.
Hypothesis Hprec : 0 < prec ctx.

(** A coefficient within the precision at an exponent within the range
    is left as it is. *)
Lemma _fix_fits (s : bool) (c : N) (e : Z) :
  Z.of_N c < 10 ^ prec ctx ->
  Etiny ctx <= e <= Etop ctx ->
  _fix ctx (Finite s c e) = Ok (Finite s c e).
Proof.
  intros Hc He. unfold _fix.
  destruct (Z.of_N c =? 0) eqn:Hz.
  - apply Z.eqb_eq in Hz. assert (c = 0%N) as -> by lia.
    unfold Etop in *. f_equal. f_equal.
    destruct (clamp ctx); unfold Etop; lia.
  - apply Z.eqb_neq in Hz.
    pose proof (ndigits_le (Z.of_N c) (prec ctx) ltac:(lia) Hc) as Hnd.
    destruct (Etop ctx <? ndigits (Z.of_N c) + e - prec ctx) eqn:Hov;
      [apply Z.ltb_lt in Hov; lia|].
    destruct (e <? Z.max (ndigits (Z.of_N c) + e - prec ctx) (Etiny ctx)) eqn:Hr;
      [apply Z.ltb_lt in Hr; lia|].
    destruct (Etop ctx <? e) eqn:Htop; [apply Z.ltb_lt in Htop; lia|].
    rewrite andb_false_r. reflexivity.
Qed.

End fix_exact.

Lemma pow10_pos (j : Z) : 0 <= j -> 0 < 10 ^ j.
Proof. intros Hj. apply Z.pow_pos_nonneg; lia. Qed.

Lemma pow10_lt_inv (a b : Z) : 0 <= a -> 10 ^ a < 10 ^ b -> a < b.
Proof.
  intros Ha Hlt. destruct (Z.lt_ge_cases a b) as [H|H]; [exact H|].
  exfalso. destruct (Z.lt_ge_cases b 0) as [Hb|Hb].
  - rewrite (Z.pow_neg_r 10 b) in Hlt by lia. pose proof (pow10_pos a Ha). lia.
  - pose proof (Z.pow_le_mono_r 10 b a ltac:(lia) H). lia.
Qed.

(** When the difference of the operands fits the precision, neither is
    replaced: [_normalize] aligns them exactly at the smaller exponent. *)
Lemma _normalize_exact (c1 e1 c2 e2 p : Z) :
  0 < c1 -> 0 < c2 -> 0 < p ->
  Z.abs (c1 * 10 ^ (e1 - Z.min e1 e2) - c2 * 10 ^ (e2 - Z.min e1 e2)) < 10 ^ p ->
  _normalize c1 e1 c2 e2 p
  = (c1 * 10 ^ (e1 - Z.min e1 e2), c2 * 10 ^ (e2 - Z.min e1 e2), Z.min e1 e2).
Proof.
  intros H1 H2 Hp Hfit. unfold _normalize.
  destruct (ndigits_bounds c1 H1) as [Hlo1 Hhi1].
  destruct (ndigits_bounds c2 H2) as [Hlo2 Hhi2].
  pose proof (ndigits_pos c1) as Hn1. pose proof (ndigits_pos c2) as Hn2.
  pose proof (pow10_pos p ltac:(lia)) as Hpp.
  destruct (e1 <? e2) eqn:Hlt.
  - apply Z.ltb_lt in Hlt. replace (Z.min e1 e2) with e1 in * by lia.
    replace (e1 - e1) with 0 in * by lia. rewrite Z.pow_0_r, Z.mul_1_r in *.
    destruct (ndigits c1 + e1 - 1 <? e2 + Z.min (-1) (ndigits c2 - p - 2)) eqn:Hrep;
      [|reflexivity].
    exfalso. apply Z.ltb_lt in Hrep.
    assert (Hd : ndigits c1 + p + 1 <= ndigits c2 - 1 + (e2 - e1)) by lia.
    pose proof (Z.pow_le_mono_r 10 _ _ ltac:(lia) Hd) as Hmono.
    replace (ndigits c1 + p + 1) with (ndigits c1 + (p + 1)) in Hmono by lia.
    rewrite !Z.pow_add_r in Hmono by lia.
    rewrite Z.pow_1_r in Hmono.
    pose proof (Z.pow_le_mono_r 10 1 (ndigits c1) ltac:(lia) ltac:(lia)) as Hten.
    rewrite Z.pow_1_r in Hten.
    pose proof (pow10_pos (e2 - e1) ltac:(lia)).
    nia.
  - apply Z.ltb_ge in Hlt. replace (Z.min e1 e2) with e2 in * by lia.
    replace (e2 - e2) with 0 in * by lia. rewrite Z.pow_0_r, Z.mul_1_r in *.
    destruct (ndigits c2 + e2 - 1 <? e1 + Z.min (-1) (ndigits c1 - p - 2)) eqn:Hrep;
      [|reflexivity].
    exfalso. apply Z.ltb_lt in Hrep.
    assert (Hd : ndigits c2 + p + 1 <= ndigits c1 - 1 + (e1 - e2)) by lia.
    pose proof (Z.pow_le_mono_r 10 _ _ ltac:(lia) Hd) as Hmono.
    replace (ndigits c2 + p + 1) with (ndigits c2 + (p + 1)) in Hmono by lia.
    rewrite !Z.pow_add_r in Hmono by lia.
    rewrite Z.pow_1_r in Hmono.
    pose proof (Z.pow_le_mono_r 10 1 (ndigits c2) ltac:(lia) ltac:(lia)) as Hten.
    rewrite Z.pow_1_r in Hten.
    pose proof (pow10_pos (e1 - e2) ltac:(lia)).
    nia.
Qed.

Lemma _rescale_pad (s : bool) (c : N) (e exp : Z) (mode : RoundingMode) :
  c <> 0%N -> exp <= e ->
  _rescale (Finite s c e) exp mode
  = Finite s (Z.to_N (Z.of_N c * 10 ^ (e - exp))) exp.
Proof.
  intros Hc He. unfold _rescale.
  destruct (Z.of_N c =? 0) eqn:Hz; [apply Z.eqb_eq in Hz; lia|].
  destruct (exp <=? e) eqn:Hle; [reflexivity|apply Z.leb_gt in Hle; lia].
Qed.

Section add_exact.

Variable ctx : Context.
Hypothesis Hprec : 0 < prec ctx.

(** Addition is exact when the sum, written at the smaller exponent of
    the operands, fits the precision. *)
Lemma add_exact (sa : bool) (ca : N) (ea : Z) (sb : bool) (cb : N) (eb : Z) :
  let e := Z.min ea eb in
  let S := units e sa ca ea + units e sb cb eb in
  Z.abs S < 10 ^ prec ctx ->
  Etiny ctx <= e <= Etop ctx ->
  exists s,
    add ctx (Finite sa ca ea) (Finite sb cb eb) = Ok (Finite s (Z.abs_N S) e)
    /\ (S <> 0 -> s = (S <? 0)).
Proof.
  intros e S Hfit He. unfold add. cbn [_check_nans].
  pose proof (pow10_pos (ea - e) ltac:(lia)) as Hpa.
  pose proof (pow10_pos (eb - e) ltac:(lia)) as Hpb.
  pose proof (pow10_pos (prec ctx) ltac:(lia)) as Hpp.
  assert (HS : S = sgn sa * Z.of_N ca * 10 ^ (ea - e)
                   + sgn sb * Z.of_N cb * 10 ^ (eb - e)) by reflexivity.
  clearbody S. fold e.
  destruct (Z.of_N ca =? 0) eqn:Hca; destruct (Z.of_N cb =? 0) eqn:Hcb;
    cbn [andb].
  - (* both zero *)
    apply Z.eqb_eq in Hca, Hcb. rewrite Hca, Hcb in HS.
    assert (S = 0) as -> by lia.
    eexists. split; [|intros Hne; congruence].
    apply (_fix_fits ctx Hprec); [simpl; lia|exact He].
  - (* a is zero *)
    apply Z.eqb_eq in Hca. apply Z.eqb_neq in Hcb. rewrite Hca in HS.
    assert (Hb : Z.abs S = Z.of_N cb * 10 ^ (eb - e))
      by (rewrite HS; destruct sb; unfold sgn; nia).
    assert (Hd : eb - e < prec ctx).
    { apply pow10_lt_inv; [lia|]. nia. }
    replace (Z.max e (eb - prec ctx - 1)) with e by lia.
    rewrite _rescale_pad by lia.
    exists sb. split.
    + rewrite (_fix_fits ctx Hprec); [|lia|exact He].
      do 2 f_equal. lia.
    + intros _. rewrite HS. destruct sb; unfold sgn; symmetry;
        [apply Z.ltb_lt|apply Z.ltb_ge]; nia.
  - (* b is zero *)
    apply Z.eqb_eq in Hcb. apply Z.eqb_neq in Hca. rewrite Hcb in HS.
    assert (Ha : Z.abs S = Z.of_N ca * 10 ^ (ea - e))
      by (rewrite HS; destruct sa; unfold sgn; nia).
    assert (Hd : ea - e < prec ctx).
    { apply pow10_lt_inv; [lia|]. nia. }
    replace (Z.max e (ea - prec ctx - 1)) with e by lia.
    rewrite _rescale_pad by lia.
    exists sa. split.
    + rewrite (_fix_fits ctx Hprec); [|lia|exact He].
      do 2 f_equal. lia.
    + intros _. rewrite HS. destruct sa; unfold sgn; symmetry;
        [apply Z.ltb_lt|apply Z.ltb_ge]; nia.
  - (* neither is zero *)
    apply Z.eqb_neq in Hca, Hcb.
    rewrite (_normalize_exact (Z.of_N ca) ea (Z.of_N cb) eb (prec ctx));
      try lia.
    2:{ fold e. destruct sa, sb; unfold sgn in HS; nia. }
    fold e.
    set (i1 := Z.of_N ca * 10 ^ (ea - e)) in *.
    set (i2 := Z.of_N cb * 10 ^ (eb - e)) in *.
    assert (Hi1 : 0 < i1) by (unfold i1; nia).
    assert (Hi2 : 0 < i2) by (unfold i2; nia).
    assert (HS' : S = sgn sa * i1 + sgn sb * i2) by (rewrite HS; unfold i1, i2; lia).
    clearbody i1 i2.
    destruct (negb (eqb sa sb)) eqn:Hsign.
    + (* opposite signs *)
      assert (Hopp : sgn sb = - sgn sa) by (destruct sa, sb; try discriminate; reflexivity).
      destruct (i1 =? i2) eqn:Heq; [|destruct (i1 <? i2) eqn:Hlt].
      * apply Z.eqb_eq in Heq. assert (S = 0) as -> by nia.
        eexists. split; [|intros Hne; congruence].
        apply (_fix_fits ctx Hprec); [simpl; lia|exact He].
      * apply Z.ltb_lt in Hlt. exists sb. split.
        -- rewrite (_fix_fits ctx Hprec); [|destruct sa, sb; unfold sgn in *; lia|exact He].
           do 2 f_equal. destruct sa, sb; unfold sgn in *; lia.
        -- intros _. destruct sa, sb; try discriminate; unfold sgn in *;
             symmetry; [apply Z.ltb_ge|apply Z.ltb_lt]; lia.
      * apply Z.ltb_ge in Hlt. apply Z.eqb_neq in Heq. exists sa. split.
        -- rewrite (_fix_fits ctx Hprec); [|destruct sa, sb; unfold sgn in *; lia|exact He].
           do 2 f_equal. destruct sa, sb; unfold sgn in *; lia.
        -- intros _. destruct sa, sb; try discriminate; unfold sgn in *;
             symmetry; [apply Z.ltb_lt|apply Z.ltb_ge]; lia.
    + (* the same sign *)
      assert (Hsame : sgn sb = sgn sa) by (destruct sa, sb; try discriminate; reflexivity).
      exists sa. split.
      * rewrite (_fix_fits ctx Hprec); [|destruct sa; unfold sgn in *; lia|exact He].
        do 2 f_equal. destruct sa; unfold sgn in *; lia.
      * intros _. destruct sa; unfold sgn in *; symmetry;
          [apply Z.ltb_lt|apply Z.ltb_ge]; lia.
Qed.

End add_exact.

Section sub_mul_exact.

Variable ctx : Context.
Hypothesis Hprec : 0 < prec ctx.

(** Subtraction is exact under the same condition on the difference. *)
Lemma sub_exact (sa : bool) (ca : N) (ea : Z) (sb : bool) (cb : N) (eb : Z) :
  let e := Z.min ea eb in
  let D := units e sa ca ea - units e sb cb eb in
  Z.abs D < 10 ^ prec ctx ->
  Etiny ctx <= e <= Etop ctx ->
  exists s,
    sub ctx (Finite sa ca ea) (Finite sb cb eb) = Ok (Finite s (Z.abs_N D) e)
    /\ (D <> 0 -> s = (D <? 0)).
Proof.
  intros e D Hfit He. unfold sub. cbn [_check_nans copy_negate].
  assert (HD : D = units e sa ca ea + units e (negb sb) cb eb).
  { unfold D, units. destruct sb; unfold sgn; cbn [negb]; lia. }
  rewrite HD in *. apply (add_exact ctx Hprec); assumption.
Qed.

(** Multiplication is exact when the product of the coefficients fits the
    precision. *)
Lemma mul_exact (sa : bool) (ca : N) (ea : Z) (sb : bool) (cb : N) (eb : Z) :
  Z.of_N (ca * cb) < 10 ^ prec ctx ->
  Etiny ctx <= ea + eb <= Etop ctx ->
  mul ctx (Finite sa ca ea) (Finite sb cb eb)
  = Ok (Finite (xorb sa sb) (ca * cb) (ea + eb)).
Proof.
  intros Hfit He. unfold mul. cbn [_check_nans _sign].
  apply (_fix_fits ctx Hprec); assumption.
Qed.

End sub_mul_exact.

(** *** Division *)

Lemma same_value_at (m c1 e1 c2 e2 : Z) :
  m <= e1 -> m <= e2 ->
  same_value c1 e1 c2 e2 <-> c1 * 10 ^ (e1 - m) = c2 * 10 ^ (e2 - m).
Proof.
  intros H1 H2. unfold same_value.
  set (k := Z.min e1 e2).
  assert (Hk1 : k <= e1) by lia. assert (Hk2 : k <= e2) by lia.
  assert (Hkm : m <= k) by lia. clearbody k.
  replace (e1 - m) with ((e1 - k) + (k - m)) by lia.
  replace (e2 - m) with ((e2 - k) + (k - m)) by lia.
  rewrite !Z.pow_add_r by lia.
  pose proof (pow10_pos (k - m) ltac:(lia)). split; intros Heq; nia.
Qed.

Lemma _round_exact (mode : RoundingMode) (s : bool) (q half : Z) :
  0 < half -> _round mode s q 0 half = 0.
Proof.
  intros Hhalf. unfold _round, _round_half_up, _round_down.
  assert (H1 : (half <=? 0) = false) by (apply Z.leb_gt; lia).
  assert (H2 : (0 =? half) = false) by (apply Z.eqb_neq; lia).
  destruct mode; rewrite ?H1, ?H2; change (0 =? 0) with true; cbv iota;
    cbn [andb]; try reflexivity; try (destruct s; reflexivity).
  destruct (negb ((q mod 10 =? 0) || (q mod 10 =? 5))); reflexivity.
Qed.

Lemma strip_zeros_value (fuel : nat) :
  forall coeff exp ideal_exp,
    0 < coeff ->
    exists c' e',
      strip_zeros fuel coeff exp ideal_exp = (c', e')
      /\ 0 < c' /\ exp <= e' /\ e' <= Z.max exp ideal_exp
      /\ coeff = c' * 10 ^ (e' - exp).
Proof.
  induction fuel as [|fuel IH]; intros coeff exp ideal Hc.
  - exists coeff, exp. simpl. replace (exp - exp) with 0 by lia.
    repeat split; lia.
  - cbn [strip_zeros].
    destruct ((exp <? ideal) && (coeff mod 10 =? 0)) eqn:Hcond.
    + apply andb_prop in Hcond as [Hlt Hmod].
      apply Z.ltb_lt in Hlt. apply Z.eqb_eq in Hmod.
      assert (Hdiv : coeff = 10 * (coeff / 10))
        by (pose proof (Z.div_mod coeff 10 ltac:(lia)); lia).
      destruct (IH (coeff / 10) (exp + 1) ideal ltac:(lia))
        as (c' & e' & Hs & Hc' & Hle & Hmax & Hval).
      exists c', e'. rewrite Hs. repeat split; try lia.
      rewrite Hdiv at 1. rewrite Hval.
      replace (e' - exp) with (Z.succ (e' - (exp + 1))) by lia.
      rewrite Z.pow_succ_r by lia. lia.
    + exists coeff, exp. replace (exp - exp) with 0 by lia.
      repeat split; lia.
Qed.

Section div_exact.

Variable ctx : Context.
Hypothesis Hprec : 0 < prec ctx.

(** Rounding a coefficient whose value is that of a decimal [q * 10^eq]
    within the precision drops only zeros. *)
Lemma _fix_value (s : bool) (c : N) (e q eq m : Z) :
  0 < Z.of_N c -> m <= e -> m <= eq ->
  0 < q < 10 ^ prec ctx ->
  Z.of_N c * 10 ^ (e - m) = q * 10 ^ (eq - m) ->
  Etiny ctx <= e <= Etop ctx ->
  ndigits (Z.of_N c) + e - prec ctx <= Etop ctx ->
  exists c' e',
    _fix ctx (Finite s c e) = Ok (Finite s c' e')
    /\ e <= e'
    /\ Z.of_N c' * 10 ^ (e' - m) = q * 10 ^ (eq - m).
Proof.
  intros Hc Hme Hmq Hq Hval He Hov.
  destruct (Z.lt_ge_cases (Z.of_N c) (10 ^ prec ctx)) as [Hfits|Hbig].
  - exists c, e. rewrite (_fix_fits ctx Hprec) by assumption.
    repeat split; [lia|exact Hval].
  - pose proof (ndigits_gt (Z.of_N c) (prec ctx) ltac:(lia) Hbig) as Hnd.
    destruct (ndigits_bounds _ Hc) as [Hlo _].
    set (nd := ndigits (Z.of_N c)) in *.
    set (k := nd - prec ctx).
    assert (Hk : 1 <= k) by (unfold k; lia).
    pose proof (pow10_pos (e - m) ltac:(lia)) as Hpem.
    pose proof (pow10_pos (eq - m) ltac:(lia)) as Hpqm.
    assert (Hek : k <= eq - e).
    { assert (Hlt : 10 ^ (prec ctx + (k - 1) + (e - m)) < 10 ^ (prec ctx + (eq - m))).
      { rewrite !Z.pow_add_r by lia.
        replace (nd - 1) with (prec ctx + (k - 1)) in Hlo by (unfold k; lia).
        rewrite Z.pow_add_r in Hlo by lia.
        pose proof (pow10_pos (prec ctx) ltac:(lia)).
        pose proof (pow10_pos (k - 1) ltac:(lia)). nia. }
      apply pow10_lt_inv in Hlt; lia. }
    pose proof (pow10_pos k ltac:(lia)) as Hpk.
    pose proof (pow10_pos (eq - e - k) ltac:(lia)) as Hpr.
    assert (Hc' : Z.of_N c = q * 10 ^ (eq - e - k) * 10 ^ k).
    { replace (eq - m) with ((eq - e - k) + k + (e - m)) in Hval by lia.
      rewrite !Z.pow_add_r in Hval by lia. nia. }
    exists (Z.to_N (q * 10 ^ (eq - e - k))), (nd + e - prec ctx).
    split; [|split; [lia|]].
    + unfold _fix. cbv zeta. fold nd.
      destruct (Z.of_N c =? 0) eqn:Hz; [apply Z.eqb_eq in Hz; lia|].
      destruct (Etop ctx <? nd + e - prec ctx) eqn:Hovb;
        [apply Z.ltb_lt in Hovb; lia|].
      replace (Z.max (nd + e - prec ctx) (Etiny ctx)) with (nd + e - prec ctx) by lia.
      destruct (e <? nd + e - prec ctx) eqn:Hr; [|apply Z.ltb_ge in Hr; lia].
      destruct (nd + e - (nd + e - prec ctx) <? 0) eqn:Hneg;
        [apply Z.ltb_lt in Hneg; lia|].
      cbv iota beta.
      replace (nd + e - prec ctx - e) with k by (unfold k; lia).
      rewrite Hc', Z.mod_mul, Z.div_mul by lia.
      rewrite _round_exact by (pose proof (pow10_pos (k - 1) ltac:(lia)); lia).
      change (0 <? 0) with false. cbn [andb]. cbv iota.
      rewrite Hovb. reflexivity.
    + rewrite Z2N.id by nia.
      replace (nd + e - prec ctx - m) with (k + (e - m)) by (unfold k; lia).
      replace (eq - m) with ((eq - e - k) + k + (e - m)) by lia.
      rewrite !Z.pow_add_r by lia. lia.
Qed.

(** Division is exact when the quotient is a decimal [q * 10^eq] within
    the precision: the result has the value of the quotient, so that the
    result times the divisor is the dividend. *)
Lemma truediv_exact (sa : bool) (ca : N) (ea : Z) (sb : bool) (cb : N) (eb : Z)
    (q eq : Z) :
  let A := Z.of_N ca in
  let B := Z.of_N cb in
  let exp := ea - eb - (ndigits B - ndigits A + prec ctx + 1) in
  0 < A -> 0 < B ->
  0 < q < 10 ^ prec ctx ->
  same_value (q * B) (eq + eb) A ea ->
  Etiny ctx <= exp -> exp + 2 <= Etop ctx -> ea - eb <= Etop ctx ->
  exists c' e',
    truediv ctx (Finite sa ca ea) (Finite sb cb eb)
    = Ok (Finite (xorb sa sb) c' e')
    /\ same_value (Z.of_N c' * B) (e' + eb) A ea.
Proof.
  intros A B exp HA HB Hq Hsame Htiny Htop Hideal.
  set (la := ndigits A) in *. set (lb := ndigits B) in *.
  set (shift := lb - la + prec ctx + 1) in *.
  destruct (ndigits_bounds A HA) as [HloA HhiA].
  destruct (ndigits_bounds B HB) as [HloB HhiB].
  pose proof (ndigits_pos A) as HlaP. pose proof (ndigits_pos B) as HlbP.
  fold la in HloA, HhiA, HlaP. fold lb in HloB, HhiB, HlbP.
  set (M := Z.min (eq + eb) ea).
  assert (HM1 : M <= eq + eb) by (unfold M; lia).
  assert (HM2 : M <= ea) by (unfold M; lia).
  assert (H : q * B * 10 ^ (eq + eb - M) = A * 10 ^ (ea - M)) by exact Hsame.
  pose proof (pow10_pos (prec ctx) ltac:(lia)) as HpP.
  pose proof (pow10_pos (eq + eb - M) ltac:(lia)) as HpT1.
  pose proof (pow10_pos (ea - M) ltac:(lia)) as HpT2.
  pose proof (pow10_pos lb ltac:(lia)) as HpLb.
  pose proof (pow10_pos (la - 1) ltac:(lia)) as HpLa.
  pose proof (pow10_pos (lb - 1) ltac:(lia)) as HpLb1.
  (* the exponent of the quotient is above that of the division *)
  assert (Ht : exp < eq).
  { destruct (Z.lt_ge_cases exp eq) as [Hlt|Hge]; [exact Hlt|]. exfalso.
    assert (Hexp : prec ctx + lb + (eq + eb - M) <= la - 1 + (ea - M))
      by (unfold exp, shift in Hge; lia).
    pose proof (Z.pow_le_mono_r 10 _ _ ltac:(lia) Hexp) as Hmono.
    rewrite !Z.pow_add_r in Hmono by lia.
    assert (q * B < 10 ^ prec ctx * 10 ^ lb) by nia.
    nia. }
  set (t := eq - exp).
  pose proof (pow10_pos t ltac:(unfold t; lia)) as HpT.
  (* the division leaves no remainder *)
  assert (Hdm :
    (if 0 <=? shift
     then (A * 10 ^ shift / B, (A * 10 ^ shift) mod B)
     else (A / (B * 10 ^ (- shift)), A mod (B * 10 ^ (- shift))))
    = (q * 10 ^ t, 0)).
  { destruct (0 <=? shift) eqn:Hs.
    - apply Z.leb_le in Hs. pose proof (pow10_pos shift Hs) as HpS.
      assert (Heq : A * 10 ^ shift = q * 10 ^ t * B).
      { assert (q * B * 10 ^ (eq + eb - M) * 10 ^ shift
                = A * 10 ^ (ea - M) * 10 ^ shift) as H' by (rewrite H; reflexivity).
        assert (Hpw : 10 ^ (eq + eb - M) * 10 ^ shift = 10 ^ t * 10 ^ (ea - M)).
        { rewrite <- !Z.pow_add_r by (unfold t; lia).
          f_equal. unfold t, exp. lia. }
        nia. }
      rewrite Heq, Z.div_mul, Z.mod_mul by lia. reflexivity.
    - apply Z.leb_gt in Hs. pose proof (pow10_pos (- shift) ltac:(lia)) as HpS.
      assert (HMea : M = ea) by (unfold M, t, exp in *; lia).
      rewrite HMea in H. replace (ea - ea) with 0 in H by lia.
      rewrite Z.pow_0_r, Z.mul_1_r in H.
      assert (Heq : A = q * 10 ^ t * (B * 10 ^ (- shift))).
      { rewrite <- H. replace (eq + eb - ea) with (t + - shift)
          by (unfold t, exp; lia).
        rewrite Z.pow_add_r by (unfold t; lia). lia. }
      rewrite Heq at 1 2. rewrite Z.div_mul, Z.mod_mul by nia. reflexivity. }
  (* the coefficient of the division has at most two digits too many *)
  assert (Hnd0 : ndigits (q * 10 ^ t) <= prec ctx + 2).
  { apply ndigits_le; [nia|].
    destruct (0 <=? shift) eqn:Hs.
    - apply Z.leb_le in Hs. pose proof (pow10_pos shift Hs) as HpS.
      injection Hdm as Hdiv _.
      assert (Hmul : q * 10 ^ t * B <= A * 10 ^ shift).
      { rewrite <- Hdiv. rewrite Z.mul_comm. apply Z.mul_div_le. lia. }
      assert (Hpow : 10 ^ la * 10 ^ shift = 10 ^ (lb - 1) * 10 ^ (prec ctx + 2)).
      { rewrite <- !Z.pow_add_r by lia. f_equal. unfold shift. lia. }
      pose proof (pow10_pos (prec ctx + 2) ltac:(lia)).
      pose proof (pow10_pos la ltac:(lia)). nia.
    - apply Z.leb_gt in Hs. pose proof (pow10_pos (- shift) ltac:(lia)) as HpS.
      injection Hdm as Hdiv _.
      assert (Hmul : q * 10 ^ t * (B * 10 ^ (- shift)) <= A).
      { rewrite <- Hdiv. rewrite Z.mul_comm. apply Z.mul_div_le. nia. }
      assert (Hpow : 10 ^ la = 10 ^ (lb - 1) * 10 ^ (- shift) * 10 ^ (prec ctx + 2)).
      { rewrite <- !Z.pow_add_r by lia. f_equal. unfold shift. lia. }
      pose proof (pow10_pos (prec ctx + 2) ltac:(lia)).
      set (X := q * 10 ^ t) in *.
      set (K := 10 ^ (lb - 1) * 10 ^ (- shift)) in *.
      assert (HK : 0 < K) by (unfold K; nia).
      assert (HKB : K <= B * 10 ^ (- shift)) by (unfold K; nia).
      assert (HX : 0 < X) by (unfold X; nia).
      apply (Z.mul_lt_mono_pos_r K); [exact HK|].
      assert (X * K <= X * (B * 10 ^ (- shift))) by nia.
      lia. }
  (* stripping zeros keeps the value *)
  destruct (strip_zeros_value (Z.to_nat (ea - eb - exp)) (q * 10 ^ t) exp (ea - eb)
              ltac:(nia))
    as (c1 & e1 & Hstrip & Hc1 & He1 & He1max & Hval1).
  assert (Hnd1 : ndigits c1 + (e1 - exp) <= prec ctx + 2).
  { rewrite <- ndigits_shift by lia. rewrite <- Hval1. exact Hnd0. }
  destruct (_fix_value (xorb sa sb) (Z.to_N c1) e1 q eq exp)
    as (c' & e' & Hfix & He' & Hval'); try lia.
  { rewrite Z2N.id by lia. rewrite <- Hval1. unfold t. reflexivity. }
  { rewrite Z2N.id by lia. lia. }
  exists c', e'. split.
  - unfold truediv. cbn [_check_nans _sign]. cbv zeta.
    fold A B la lb.
    destruct (B =? 0) eqn:HB0; [apply Z.eqb_eq in HB0; lia|].
    destruct (A =? 0) eqn:HA0; [apply Z.eqb_eq in HA0; lia|].
    fold shift. fold exp. rewrite Hdm. cbv iota beta.
    change (0 =? 0) with true. cbn [negb]. cbv iota.
    rewrite Hstrip. exact Hfix.
  - set (b0 := Z.min (exp + eb) M).
    apply (same_value_at b0); [unfold b0; lia|unfold b0; lia|].
    pose proof (pow10_pos (e' - exp) ltac:(lia)).
    pose proof (pow10_pos (exp + eb - b0) ltac:(unfold b0; lia)).
    pose proof (pow10_pos (M - b0) ltac:(unfold b0; lia)).
    replace (e' + eb - b0) with ((e' - exp) + (exp + eb - b0)) by lia.
    replace (ea - b0) with ((ea - M) + (M - b0)) by lia.
    rewrite !Z.pow_add_r by (unfold b0; lia).
    assert (Hq10 : 10 ^ (eq - exp) * 10 ^ (exp + eb - b0)
                   = 10 ^ (eq + eb - M) * 10 ^ (M - b0)).
    { rewrite <- !Z.pow_add_r by (unfold b0; lia). f_equal. lia. }
    transitivity (Z.of_N c' * 10 ^ (e' - exp) * B * 10 ^ (exp + eb - b0));
      [ring|].
    rewrite Hval'.
    transitivity (q * B * (10 ^ (eq - exp) * 10 ^ (exp + eb - b0))); [ring|].
    rewrite Hq10.
    transitivity (q * B * 10 ^ (eq + eb - M) * 10 ^ (M - b0)); [ring|].
    rewrite H. ring.
Qed.

End div_exact.

(** *** What the four operations return *)

Lemma sgn_abs (s : bool) (S : Z) :
  (S <> 0 -> s = (S <? 0)) -> sgn s * Z.abs S = S.
Proof.
  intros Hs. destruct (Z.eq_dec S 0) as [->|Hne]; [destruct s; reflexivity|].
  rewrite (Hs Hne). destruct (S <? 0) eqn:Hneg; unfold sgn;
    [apply Z.ltb_lt in Hneg|apply Z.ltb_ge in Hneg]; lia.
Qed.

(** C4, as the code has it: the operations compute in the decimal context,
    with its precision.  For finite operands, [Addition], [Subtraction]
    and [Multiplication] return the exact sum, difference and product
    whenever that fits the precision at the exponent of the operation, and
    [Division] returns a decimal that times the divisor is the dividend
    whenever the quotient is a decimal within the precision; the exponents
    have to stay in the range of the context. *)
Theorem arithmetic_exact_within_precision :
  forall (ctx : Context) (sa : bool) (ca : N) (ea : Z)
         (sb : bool) (cb : N) (eb : Z),
    0 < prec ctx ->
    let a := Finite sa ca ea in
    let b := Finite sb cb eb in
    let e := Z.min ea eb in
    (Z.abs (units e sa ca ea + units e sb cb eb) < 10 ^ prec ctx ->
     Etiny ctx <= e <= Etop ctx ->
     exists r, Addition_execute ctx a b = Ok r /\ is_sum a b r)
    /\ (Z.abs (units e sa ca ea - units e sb cb eb) < 10 ^ prec ctx ->
        Etiny ctx <= e <= Etop ctx ->
        exists r, Subtraction_execute ctx a b = Ok r /\ is_difference a b r)
    /\ (Z.of_N (ca * cb) < 10 ^ prec ctx ->
        Etiny ctx <= ea + eb <= Etop ctx ->
        exists r, Multiplication_execute ctx a b = Ok r /\ is_product a b r)
    /\ (forall q eq : Z,
          ca <> 0%N -> cb <> 0%N ->
          0 < q < 10 ^ prec ctx ->
          same_value (q * Z.of_N cb) (eq + eb) (Z.of_N ca) ea ->
          Etiny ctx <= division_exp ctx ca ea cb eb ->
          division_exp ctx ca ea cb eb + 2 <= Etop ctx ->
          ea - eb <= Etop ctx ->
          exists r, Division_execute ctx a b = Ok r /\ is_quotient a b r).
Proof.
  intros ctx sa ca ea sb cb eb Hprec a b e.
  split; [|split; [|split]].
  - intros Hfit He.
    destruct (add_exact ctx Hprec sa ca ea sb cb eb Hfit He) as (s & Hadd & Hs).
    eexists. split; [exact Hadd|].
    unfold is_sum, a, b. cbv zeta. fold e.
    replace (Z.min e e) with e by lia.
    unfold units at 1. replace (e - e) with 0 by lia.
    rewrite Z.pow_0_r, Z.mul_1_r, N2Z.inj_abs_N.
    apply sgn_abs, Hs.
  - intros Hfit He.
    destruct (sub_exact ctx Hprec sa ca ea sb cb eb Hfit He) as (s & Hsub & Hs).
    eexists. split; [exact Hsub|].
    unfold is_difference, a, b. cbv zeta. fold e.
    replace (Z.min e e) with e by lia.
    unfold units at 1. replace (e - e) with 0 by lia.
    rewrite Z.pow_0_r, Z.mul_1_r, N2Z.inj_abs_N.
    apply sgn_abs, Hs.
  - intros Hfit He. eexists. split.
    + apply (mul_exact ctx Hprec); assumption.
    + unfold is_product. cbv zeta. reflexivity.
  - intros q eq Hca Hcb Hq Hsame Htiny Htop Hideal.
    destruct (truediv_exact ctx Hprec sa ca ea sb cb eb q eq)
      as (c' & e' & Hdiv & Hval); try assumption; try lia.
    eexists. split; [exact Hdiv|].
    unfold is_quotient, a, b. cbv zeta. unfold units.
    unfold same_value in Hval. rewrite N2Z.inj_mul.
    replace (sgn (xorb (xorb sa sb) sb)) with (sgn sa) by (destruct sa, sb; reflexivity).
    rewrite <- !Z.mul_assoc. f_equal.
    rewrite !Z.mul_assoc. exact Hval.
Qed.

Lemma arithmetic_exact_within_precision_witness :
  (exists r, Addition_execute DefaultContext (Decimal_of_Z 2) (Decimal_of_Z 3) = Ok r
             /\ is_sum (Decimal_of_Z 2) (Decimal_of_Z 3) r)
  /\ (exists r, Subtraction_execute DefaultContext (Decimal_of_Z 2) (Decimal_of_Z 3) = Ok r
                /\ is_difference (Decimal_of_Z 2) (Decimal_of_Z 3) r)
  /\ (exists r, Multiplication_execute DefaultContext (Decimal_of_Z 2) (Decimal_of_Z 3) = Ok r
                /\ is_product (Decimal_of_Z 2) (Decimal_of_Z 3) r)
  /\ (exists r, Division_execute DefaultContext (Decimal_of_Z 1) (Decimal_of_Z 4) = Ok r
                /\ is_quotient (Decimal_of_Z 1) (Decimal_of_Z 4) r).
Proof.
  assert (Hprec : 0 < prec DefaultContext) by reflexivity.
  destruct (arithmetic_exact_within_precision DefaultContext
              false 2 0 false 3 0 Hprec) as (Hadd & Hsub & Hmul & _).
  destruct (arithmetic_exact_within_precision DefaultContext
              false 1 0 false 4 0 Hprec) as (_ & _ & _ & Hdiv).
  split; [|split; [|split]].
  - apply Hadd; [vm_compute; reflexivity|split; vm_compute; discriminate].
  - apply Hsub; [vm_compute; reflexivity|split; vm_compute; discriminate].
  - apply Hmul; [vm_compute; reflexivity|split; vm_compute; discriminate].
  - apply (Hdiv 25 (-2));
      first [discriminate | split; vm_compute; reflexivity | vm_compute; reflexivity].
Defined.

(** C4 fails as stated: the results are rounded to the 28 digits of the
    context.  [1E+28 + 1] is [1.000000000000000000000000000E+28], which is
    not the sum, and [1 / 3] is [0.3333333333333333333333333333], which
    times 3 is not 1. *)
Lemma arithmetic_rounds_counterexample :
  (exists r,
     Addition_execute DefaultContext (Finite false 1 28) (Decimal_of_Z 1) = Ok r
     /\ r = Finite false 1000000000000000000000000000 1
     /\ ~ is_sum (Finite false 1 28) (Decimal_of_Z 1) r)
  /\ (exists r,
        Division_execute DefaultContext (Decimal_of_Z 1) (Decimal_of_Z 3) = Ok r
        /\ r = Finite false 3333333333333333333333333333 (-28)
        /\ ~ is_quotient (Decimal_of_Z 1) (Decimal_of_Z 3) r).
Proof.
  split; eexists; (split; [vm_compute; reflexivity|]);
    (split; [reflexivity|]); vm_compute; discriminate.
Qed.

(** The sums, products and quotients of the repository's scenarios. *)
Example arithmetic_examples :
  Addition_execute DefaultContext (Decimal_of_Z 2) (Decimal_of_Z 3)
  = Ok (Decimal_of_Z 5)
  /\ Subtraction_execute DefaultContext (Decimal_of_Z 2) (Decimal_of_Z 3)
     = Ok (Decimal_of_Z (-1))
  /\ Multiplication_execute DefaultContext (Decimal_of_Z 2) (Decimal_of_Z 3)
     = Ok (Decimal_of_Z 6)
  /\ Division_execute DefaultContext (Decimal_of_Z 6) (Decimal_of_Z 3)
     = Ok (Decimal_of_Z 2)
  /\ Division_execute DefaultContext (Decimal_of_Z 1) (Decimal_of_Z 4)
     = Ok (Finite false 25 (-2)).
Proof. repeat split; vm_compute; reflexivity. Qed.

(** ** Powers *)

Lemma trailing_zeros_nonneg (m : positive) : 0 <= trailing_zeros m.
Proof. induction m; simpl; lia. Qed.

Lemma trailing_zeros_divides (m : positive) :
  exists k, Z.pos m = k * 2 ^ trailing_zeros m.
Proof.
  induction m as [m IH|m IH|].
  - exists (Z.pos m~1). simpl. lia.
  - destruct IH as [k Hk]. exists k.
    pose proof (trailing_zeros_nonneg m).
    cbn [trailing_zeros]. rewrite Z.pow_add_r, Z.pow_1_r by lia.
    rewrite Pos2Z.inj_xO, Hk. ring.
  - exists 1. reflexivity.
Qed.

(** [Decimal.from_float] is exact. *)
Lemma from_float_exact (x : float) : same_number x (from_float x).
Proof.
  destruct x as [s|s| |s m e]; simpl; try (split; reflexivity); try exact I;
    try reflexivity.
  destruct (0 <=? e) eqn:He.
  - apply Z.leb_le in He. split; [reflexivity|]. split; [lia|].
    pose proof (pow10_pos 0 ltac:(lia)).
    rewrite Z2N.id by (pose proof (Z.pow_pos_nonneg 2 e); lia).
    replace (Z.max (- e) 0) with 0 by lia. replace (Z.max e 0) with e by lia.
    simpl. lia.
  - apply Z.leb_gt in He.
    pose proof (trailing_zeros_nonneg m) as Htz.
    destruct (trailing_zeros_divides m) as [k0 Hk0].
    set (g := Z.min (trailing_zeros m) (- e)).
    assert (Hg : 0 <= g <= trailing_zeros m) by (unfold g; lia).
    assert (Hm : Z.pos m = (k0 * 2 ^ (trailing_zeros m - g)) * 2 ^ g).
    { rewrite Hk0 at 1. rewrite <- Z.mul_assoc, <- Z.pow_add_r by lia.
      do 2 f_equal. lia. }
    pose proof (Z.pow_pos_nonneg 2 g ltac:(lia) ltac:(lia)) as Hp2.
    pose proof (Z.pow_pos_nonneg 2 (trailing_zeros m - g) ltac:(lia) ltac:(lia)).
    assert (Hk0pos : 0 < k0 * 2 ^ (trailing_zeros m - g)) by nia.
    set (n := k0 * 2 ^ (trailing_zeros m - g)) in *.
    split; [reflexivity|]. split; [lia|].
    rewrite Hm, Z.div_mul by lia.
    pose proof (Z.pow_pos_nonneg 5 (- e - g) ltac:(lia) ltac:(lia)).
    rewrite Z2N.id by nia.
    replace (Z.max (- e) 0) with (g + (- e - g)) by lia.
    replace (Z.max e 0) with 0 by lia.
    replace (- - (- e - g)) with (- e - g) by lia.
    change 10 with (2 * 5) at 1. rewrite Z.pow_mul_l, Z.pow_add_r by lia.
    simpl (2 ^ 0). ring.
Qed.

(** C8: [Power.execute(a, b)] is [Decimal(pow(float(a), float(b)))].  When
    it returns, the operands converted to floats, the power of the floats
    was a float, and the result is that float converted to a decimal
    without rounding; when it raises, one of the conversions or the power
    raised, or the power was a complex number, which [Decimal] refuses. *)
Theorem Power_execute_float_path :
  forall (L : Libm) (a b : Decimal),
    match Power_execute a b with
    | Ok d =>
        exists x y z,
          __float__ a = Ok x /\ __float__ b = Ok y
          /\ float_pow x y = Ok (Float z)
          /\ d = from_float z /\ same_number z d
    | Raise exn =>
        __float__ a = Raise exn
        \/ (exists x, __float__ a = Ok x /\ __float__ b = Raise exn)
        \/ (exists x y,
              __float__ a = Ok x /\ __float__ b = Ok y
              /\ (float_pow x y = Raise exn
                  \/ float_pow x y = Ok Complex
                     /\ exn = TypeError "conversion from complex to Decimal is not supported"))
    end.
Proof.
  intros L a b. unfold Power_execute.
  destruct (__float__ a) as [x|ea]; cbn [mbind Result_bind]; [|left; reflexivity].
  destruct (__float__ b) as [y|eb]; cbn [mbind Result_bind];
    [|right; left; eauto].
  destruct (float_pow x y) as [[z|]|ep] eqn:Hpow;
    cbn [mbind Result_bind Decimal_new].
  - exists x, y, z. repeat (split; [reflexivity|]).
    split; [exact Hpow|]. split; [reflexivity|apply from_float_exact].
  - right. right. exists x, y. repeat (split; [reflexivity|]).
    right. split; [exact Hpow|reflexivity].
  - right. right. exists x, y. repeat (split; [reflexivity|]).
    left. exact Hpow.
Qed.

(** Powers that the C library is not asked for: any number to the power
    zero is one, and a negative number to a fractional power is complex. *)
Example Power_execute_examples :
  Power_execute (H := example_libm) (Decimal_of_Z 5) (Decimal_of_Z 0)
  = Ok (Decimal_of_Z 1)
  /\ Power_execute (H := example_libm) (Decimal_of_Z (-8)) (Finite false 5 (-1))
     = Raise (TypeError "conversion from complex to Decimal is not supported")
  /\ Power_execute (H := example_libm) (Decimal_of_Z 0) (Decimal_of_Z (-1))
     = Raise (ZeroDivisionError "0.0 cannot be raised to a negative power").
Proof. repeat split; vm_compute; reflexivity. Qed.

(** ** More on the operation factory *)

(** X1: a class registered under a name is created under every spelling
    of that name.  For a class that inherits from [Operation] and can be
    instantiated (it is true, not abstract, built in the way of [object]
    by a constructor that accepts a call without arguments),
    [register_operation(name, cls)] succeeds, and then
    [create_operation(name')] returns a fresh instance of [cls] for every
    [name'] that lower-cases to the same string. *)
Theorem register_then_create :
  forall (ops : gmap string PyType) (name name' : string) (cls : PyType),
    issubclass_Operation cls = true ->
    instantiable cls ->
    lower name' = lower name ->
    exists ops',
      register_operation ops name cls = Ok ops'
      /\ create_operation ops' name' = Ok (instance cls)
      /\ forall h, fresh_instance h cls (create_operation_in h ops' name').
Proof.
  intros ops name name' cls Hsub Hcls Hname.
  unfold register_operation. rewrite Hsub. cbn [negb].
  eexists. split; [reflexivity|].
  unfold create_operation, create_operation_in.
  rewrite Hname, lookup_insert_eq.
  pose proof Hcls as (Htrue & _ & _). rewrite Htrue.
  cbn [mbind Result_bind negb].
  split; [apply call_instantiable, Hcls|].
  intros h. rewrite call_in_instantiable by exact Hcls.
  apply fresh_instance_new.
Qed.

Lemma register_then_create_witness :
  exists ops',
    register_operation _operations "Modulus" Modulus = Ok ops'
    /\ create_operation ops' "MODULUS" = Ok (instance Modulus)
    /\ forall h, fresh_instance h Modulus (create_operation_in h ops' "MODULUS").
Proof.
  apply (register_then_create _operations "Modulus" "MODULUS" Modulus).
  - reflexivity.
  - repeat split.
  - reflexivity.
Defined.

(** X2: [register_operation] touches one name only.  After a successful
    registration under [name], [create_operation] does for every name that
    lower-cases to another string what it did before. *)
Theorem register_operation_frame :
  forall (ops ops' : gmap string PyType) (name other : string) (cls : PyType),
    register_operation ops name cls = Ok ops' ->
    lower other <> lower name ->
    create_operation ops' other = create_operation ops other.
Proof.
  intros ops ops' name other cls Hreg Hne.
  unfold register_operation in Hreg.
  destruct (issubclass_Operation cls); cbn [negb] in Hreg; [|discriminate].
  injection Hreg as <-.
  unfold create_operation. rewrite lookup_insert_ne by congruence.
  reflexivity.
Qed.

Lemma register_operation_frame_witness :
  create_operation (<["modulus" := Power]> _operations) "Add"
  = create_operation _operations "Add".
Proof.
  apply (register_operation_frame _operations _ "Modulus" "Add" Power).
  - reflexivity.
  - vm_compute. discriminate.
Defined.

(** X3: [create_operation] does not look at the case of the name.  For
    two names that lower-case to the same string, either there is no
    class to instantiate under that string (none is registered, or the
    registered one is falsy) and each call raises [ValueError] with the
    name as it was given, or the two calls do the same: they instantiate
    the same class and return an object of the same class, or raise the
    same exception. *)
Theorem create_operation_case_insensitive :
  forall (ops : gmap string PyType) (n1 n2 : string),
    lower n1 = lower n2 ->
    (match ops !! lower n1 with
     | Some cls => truth cls = Ok false
     | None => True
     end
     /\ create_operation ops n1 = Raise (unknown_operation n1)
     /\ create_operation ops n2 = Raise (unknown_operation n2))
    \/ (create_operation ops n2 = create_operation ops n1
        /\ exists cls,
             ops !! lower n1 = Some cls
             /\ match truth cls with
                | Ok _ => create_operation ops n1 = call cls
                | Raise e => create_operation ops n1 = Raise e
                end).
Proof.
  intros ops n1 n2 Hlow. unfold create_operation. rewrite <- Hlow.
  destruct (ops !! lower n1) as [cls|]; [|left; repeat split].
  destruct (truth cls) as [[|]|e] eqn:Htruth; cbn [mbind Result_bind negb].
  - right. split; [reflexivity|]. exists cls. rewrite Htruth. split; reflexivity.
  - left. repeat split.
  - right. split; [reflexivity|]. exists cls. rewrite Htruth. split; reflexivity.
Qed.

Lemma create_operation_case_insensitive_witness :
  create_operation _operations "SubTract" = create_operation _operations "subtract"
  /\ create_operation _operations "subtract" = Ok (instance Subtraction).
Proof.
  destruct (create_operation_case_insensitive _operations "subtract" "SubTract"
              eq_refl) as [(_ & Hunknown & _)|[Hsame _]].
  - vm_compute in Hunknown. discriminate Hunknown.
  - split; [exact Hsame|reflexivity].
Defined.

(** X4: the factory of the module knows six names.  On the dictionary as
    the module defines it, [create_operation] returns an object exactly for
    the names that lower-case to [add], [subtract], [multiply], [divide],
    [power] and [root], and the object is an instance of the class of that
    name. *)
Theorem create_operation_module_names :
  forall (name : string) (o : Object),
    create_operation _operations name = Ok o <->
    In (lower name, o)
       [("add"%string, instance Addition);
        ("subtract"%string, instance Subtraction);
        ("multiply"%string, instance Multiplication);
        ("divide"%string, instance Division);
        ("power"%string, instance Power);
        ("root"%string, instance Root)].
Proof.
  intros name o. unfold create_operation. split.
  - destruct (_operations !! lower name) as [cls|] eqn:Hlook; [|discriminate].
    unfold _operations in Hlook. cbn [In].
    repeat (apply lookup_insert_Some in Hlook as [[<- <-]|[_ Hlook]];
            [cbn; intros [= <-]; tauto|]).
    rewrite lookup_empty in Hlook. discriminate.
  - cbn [In]. intros Hin.
    repeat (destruct Hin as [[= <- <-]|Hin]; [reflexivity|]).
    contradiction.
Qed.

(** X5: what every dictionary of the factory keeps.  However many classes
    have been registered, the six names of the module are still
    registered (a name is never removed), and every class in the
    dictionary inherits from [Operation]: [create_operation] never calls
    a class that [register_operation] would refuse. *)
Theorem registered_invariant :
  forall (ops : gmap string PyType),
    registered ops ->
    (forall name, is_Some (_operations !! name) -> is_Some (ops !! name))
    /\ (forall name cls,
          ops !! name = Some cls -> issubclass_Operation cls = true)
    /\ (forall name cls,
          ops !! lower name = Some cls -> truth cls = Ok true ->
          issubclass_Operation cls = true
          /\ create_operation ops name = call cls).
Proof.
  intros ops Hreg.
  assert (Hinv : (forall name, is_Some (_operations !! name) -> is_Some (ops !! name))
                 /\ registry_ok ops).
  { induction Hreg as [|ops name cls ops' Hreg [IHdom IHok] Hcall].
    - split; [auto|apply _operations_ok].
    - split; [|eapply register_operation_ok; eassumption].
      intros k Hk. unfold register_operation in Hcall.
      destruct (issubclass_Operation cls); cbn [negb] in Hcall; [|discriminate].
      injection Hcall as <-.
      destruct (decide (lower name = k)) as [->|Hne].
      + rewrite lookup_insert_eq. eauto.
      + rewrite lookup_insert_ne by assumption. auto. }
  destruct Hinv as [Hdom Hok]. split; [exact Hdom|]. split; [exact Hok|].
  intros name cls Hlook Htrue. split; [exact (Hok _ _ Hlook)|].
  unfold create_operation. rewrite Hlook, Htrue. reflexivity.
Qed.

Lemma registered_invariant_witness :
  is_Some ((<["scaled" := Scaled]> _operations) !! "root")
  /\ issubclass_Operation Scaled = true
  /\ create_operation (<["scaled" := Scaled]> _operations) "SCALED" = call Scaled.
Proof.
  assert (Hreg : registered (<["scaled" := Scaled]> _operations)).
  { apply (registered_register _operations "Scaled" Scaled);
      [apply registered_module|reflexivity]. }
  destruct (registered_invariant _ Hreg) as (Hdom & Hsub & Hcall).
  split; [apply Hdom; vm_compute; eauto|].
  split; [apply (Hsub "scaled"); reflexivity|].
  apply Hcall; reflexivity.
Defined.

(** ** More on the four arithmetic operations *)

(** *** What [_fix] does to any decimal *)

Ltac split_fix H :=
  repeat (cbv beta iota zeta in H;
          match type of H with
          | context [if ?c then _ else _] => destruct c eqn:?
          end).

(** Rounding raises nothing but [Overflow]. *)
Lemma _fix_raises (ctx : Context) (d : Decimal) (e : PyException) :
  _fix ctx d = Raise e -> e = Overflow.
Proof.
  intros H. destruct d as [s c x|s|s sig p]; [|discriminate H..].
  unfold _fix in H. split_fix H; congruence.
Qed.

(** Rounding keeps the sign and the kind of a decimal. *)
Lemma _fix_sign (ctx : Context) (d r : Decimal) :
  _fix ctx d = Ok r -> _sign r = _sign d /\ _is_special r = _is_special d.
Proof.
  intros H. destruct d as [s c x|s|s sig p].
  - unfold _fix in H. split_fix H; try discriminate H;
      injection H as <-; split; reflexivity.
  - injection H as <-. split; reflexivity.
  - injection H as <-. split; reflexivity.
Qed.

Lemma ndigits_0 : ndigits 0 = 1.
Proof. reflexivity. Qed.

Lemma ndigits_1 : ndigits 1 = 1.
Proof. reflexivity. Qed.

(** The quotient by a power of ten has that many digits less. *)
Lemma div_pow10_lt (c n k : Z) :
  0 < c -> c < 10 ^ n -> 0 <= k <= n -> c / 10 ^ k < 10 ^ (n - k).
Proof.
  intros Hc Hn Hk. pose proof (pow10_pos k ltac:(lia)).
  apply Z.div_lt_upper_bound; [lia|].
  rewrite <- Z.pow_add_r by lia. replace (k + (n - k)) with n by lia. exact Hn.
Qed.

Lemma ndigits_nonneg_le (q p : Z) :
  0 <= q -> q < 10 ^ p -> 1 <= p -> ndigits q <= p.
Proof.
  intros Hq Hp H1. destruct (Z.eq_dec q 0) as [->|Hne].
  - rewrite ndigits_0. exact H1.
  - apply ndigits_le; lia.
Qed.

(** What comes out of [_fix] is within the context. *)
Lemma _fix_bounds (ctx : Context) (d r : Decimal) :
  0 < prec ctx -> Emin ctx <= Emax ctx ->
  _fix ctx d = Ok r -> within_context ctx r.
Proof.
  intros Hprec Hrange H.
  destruct d as [s cN e|s|s sig p];
    [|injection H as <-; exact I|injection H as <-; exact I].
  unfold _fix in H. cbv zeta in H.
  assert (Htt : Etiny ctx <= Etop ctx) by (unfold Etiny, Etop; lia).
  assert (Htm : Etop ctx <= Emax ctx) by (unfold Etop; lia).
  destruct (Z.of_N cN =? 0) eqn:Hz.
  { injection H as <-. cbn [within_context]. change (Z.of_N 0) with 0.
    rewrite ndigits_0. destruct (clamp ctx); lia. }
  apply Z.eqb_neq in Hz.
  assert (Hc : 0 < Z.of_N cN) by lia.
  destruct (ndigits_bounds _ Hc) as [Hlo Hhi].
  pose proof (ndigits_pos (Z.of_N cN)) as Hn1.
  set (c := Z.of_N cN) in *. set (n := ndigits c) in *.
  destruct (Etop ctx <? n + e - prec ctx) eqn:Hov; [discriminate H|].
  apply Z.ltb_ge in Hov.
  set (exp_min := Z.max (n + e - prec ctx) (Etiny ctx)) in *.
  assert (Hem : Etiny ctx <= exp_min <= Etop ctx) by (unfold exp_min; lia).
  assert (Hem' : n + e - prec ctx <= exp_min) by (unfold exp_min; lia).
  destruct (e <? exp_min) eqn:Hr.
  - apply Z.ltb_lt in Hr.
    destruct (n + e - exp_min <? 0) eqn:Hneg; cbv beta iota in H.
    + (* nothing of the coefficient is kept *)
      replace (exp_min - (exp_min - 1)) with 1 in H by lia.
      change (1 / 10 ^ 1) with 0 in H. change (1 mod 10 ^ 1) with 1 in H.
      destruct (0 <? _round (rounding ctx) s 0 1 (5 * 10 ^ (1 - 1))).
      * change (0 + 1) with 1 in H. rewrite ndigits_1 in H.
        replace (prec ctx <? 1) with false in H by (symmetry; apply Z.ltb_ge; lia).
        cbn [andb] in H.
        destruct (Etop ctx <? exp_min); [discriminate H|].
        injection H as <-. cbn [within_context]. change (ndigits (Z.of_N 1)) with 1. lia.
      * cbn [andb] in H.
        destruct (Etop ctx <? exp_min); [discriminate H|].
        injection H as <-. cbn [within_context]. change (ndigits (Z.of_N 0)) with 1. lia.
    + apply Z.ltb_ge in Hneg.
      set (k := exp_min - e) in *.
      assert (Hk : 0 < k <= n) by (unfold k; lia).
      pose proof (pow10_pos k ltac:(lia)) as Hpk.
      assert (Hq0 : 0 <= c / 10 ^ k) by (apply Z.div_pos; lia).
      pose proof (div_pow10_lt c n k Hc Hhi ltac:(lia)) as Hq.
      assert (Hnk : n - k <= prec ctx) by (unfold k; lia).
      pose proof (Z.pow_le_mono_r 10 (n - k) (prec ctx) ltac:(lia) Hnk) as Hpp.
      set (q := c / 10 ^ k) in *.
      destruct (0 <? _round (rounding ctx) s q (c mod 10 ^ k) (5 * 10 ^ (k - 1))).
      * destruct (prec ctx <? ndigits (q + 1)) eqn:Hcarry; cbn [andb] in H.
        -- apply Z.ltb_lt in Hcarry.
           assert (Hq1 : q + 1 = 10 ^ prec ctx).
           { destruct (Z.eq_dec (q + 1) (10 ^ prec ctx)) as [Heq|Hne]; [exact Heq|].
             pose proof (ndigits_le (q + 1) (prec ctx) ltac:(lia) ltac:(lia)). lia. }
           destruct (Etop ctx <? exp_min + 1) eqn:Hov2; [discriminate H|].
           apply Z.ltb_ge in Hov2. injection H as <-. cbn [within_context].
           rewrite Hq1.
           replace (prec ctx) with (Z.succ (prec ctx - 1)) at 1 3 by lia.
           rewrite Z.pow_succ_r by lia.
           rewrite (Z.mul_comm 10), Z.div_mul by lia.
           pose proof (pow10_pos (prec ctx - 1) ltac:(lia)).
           rewrite Z2N.id by lia.
           assert (Hnd : ndigits (10 ^ (prec ctx - 1)) = prec ctx).
           { apply ndigits_unique; [|lia]. split; [lia|].
             apply Z.pow_lt_mono_r; lia. }
           rewrite Hnd. unfold Etop in Hov2. lia.
        -- apply Z.ltb_ge in Hcarry.
           destruct (Etop ctx <? exp_min); [discriminate H|].
           injection H as <-. cbn [within_context].
           rewrite Z2N.id by lia. unfold Etop in Hem. lia.
      * cbn [andb] in H.
        destruct (Etop ctx <? exp_min); [discriminate H|].
        injection H as <-. cbn [within_context]. rewrite Z2N.id by lia.
        pose proof (ndigits_nonneg_le q (prec ctx) Hq0 ltac:(lia) ltac:(lia)).
        unfold Etop in Hem. lia.
  - apply Z.ltb_ge in Hr.
    destruct (clamp ctx && (Etop ctx <? e)) eqn:Hclamp.
    + apply andb_prop in Hclamp as [_ Htop]. apply Z.ltb_lt in Htop.
      injection H as <-. cbn [within_context].
      pose proof (pow10_pos (e - Etop ctx) ltac:(lia)).
      rewrite Z2N.id by nia. fold c.
      rewrite ndigits_shift by lia. fold n. unfold Etop in *. lia.
    + injection H as <-. cbn [within_context]. fold c. fold n.
      unfold Etop in *. lia.
Qed.

(** *** The shape of the four operations *)

(** On finite operands an addition ends in [_fix]. *)
Lemma add_Finite_fix (ctx : Context) (sa : bool) (ca : N) (ea : Z)
    (sb : bool) (cb : N) (eb : Z) :
  exists d, add ctx (Finite sa ca ea) (Finite sb cb eb) = _fix ctx d.
Proof.
  unfold add. cbn [_check_nans]. cbv zeta.
  destruct (_normalize (Z.of_N ca) ea (Z.of_N cb) eb (prec ctx)) as [[i1 i2] e].
  repeat match goal with
         | |- context [if ?c then _ else _] => destruct c
         end; eauto.
Qed.

(** An addition returns what [_fix] returns, or one of its operands when
    that is an infinity or a NaN, or raises [InvalidOperation]. *)
Lemma add_cases (ctx : Context) (a b : Decimal) :
  (exists d, add ctx a b = _fix ctx d)
  \/ add ctx a b = Raise InvalidOperation
  \/ exists r, add ctx a b = Ok r /\ _is_special r = true.
Proof.
  destruct a as [sa ca ea|sa|sa [|] pa], b as [sb cb eb|sb|sb [|] pb];
    try (left; apply add_Finite_fix);
    try (right; left; reflexivity);
    try (right; right; eexists; split; reflexivity).
  destruct sa, sb;
    first [right; left; reflexivity
          |right; right; eexists; split; reflexivity].
Qed.

Lemma sub_cases (ctx : Context) (a b : Decimal) :
  (exists d, sub ctx a b = _fix ctx d)
  \/ sub ctx a b = Raise InvalidOperation
  \/ exists r, sub ctx a b = Ok r /\ _is_special r = true.
Proof.
  unfold sub. destruct (_check_nans ctx a b) as [r|] eqn:Hnan.
  - destruct a as [sa ca ea|sa|sa [|] pa], b as [sb cb eb|sb|sb [|] pb];
      try discriminate Hnan; injection Hnan as <-;
      first [right; left; reflexivity
            |right; right; eexists; split; reflexivity].
  - apply add_cases.
Qed.

Lemma mul_cases (ctx : Context) (a b : Decimal) :
  (exists c e, mul ctx a b = _fix ctx (Finite (xorb (_sign a) (_sign b)) c e))
  \/ mul ctx a b = Raise InvalidOperation
  \/ exists r, mul ctx a b = Ok r /\ _is_special r = true.
Proof.
  destruct a as [sa ca ea|sa|sa [|] pa], b as [sb cb eb|sb|sb [|] pb];
    try (left; eexists; eexists; reflexivity);
    try (right; left; reflexivity);
    try (right; right; eexists; split; reflexivity).
  - destruct ca; [right; left; reflexivity|].
    right; right; eexists; split; reflexivity.
  - destruct cb; [right; left; reflexivity|].
    right; right; eexists; split; reflexivity.
Qed.

(** A division of finite operands by a divisor other than zero ends in
    [_fix], with the sign of the quotient. *)
Lemma truediv_Finite_fix (ctx : Context) (sa : bool) (ca : N) (ea : Z)
    (sb : bool) (cb : N) (eb : Z) :
  cb <> 0%N ->
  exists c e,
    truediv ctx (Finite sa ca ea) (Finite sb cb eb)
    = _fix ctx (Finite (xorb sa sb) c e).
Proof.
  intros Hcb. unfold truediv. cbn [_check_nans _sign]. cbv zeta.
  destruct (Z.of_N cb =? 0) eqn:Hz; [apply Z.eqb_eq in Hz; lia|].
  destruct (Z.of_N ca =? 0); [eauto|].
  match goal with
  | |- context [let '(_, _) := ?p in _] => destruct p as [coeff remainder]
  end.
  match goal with
  | |- context [let '(_, _) := ?p in _] => destruct p as [coeff' exp']
  end.
  eauto.
Qed.

Lemma truediv_cases (ctx : Context) (a b : Decimal) :
  (exists c e, truediv ctx a b = _fix ctx (Finite (xorb (_sign a) (_sign b)) c e))
  \/ truediv ctx a b = Raise InvalidOperation
  \/ truediv ctx a b = Raise DivisionByZero
  \/ truediv ctx a b = Ok (Finite (xorb (_sign a) (_sign b)) 0 (Etiny ctx))
  \/ exists r, truediv ctx a b = Ok r /\ _is_special r = true.
Proof.
  destruct a as [sa ca ea|sa|sa [|] pa], b as [sb cb eb|sb|sb [|] pb];
    try (right; left; reflexivity);
    try (right; right; right; left; reflexivity);
    try (right; right; right; right; eexists; split; reflexivity).
  destruct cb as [|pb].
  - destruct ca; [right; left; reflexivity|right; right; left; reflexivity].
  - left. apply truediv_Finite_fix. discriminate.
Qed.

(** *** What the operations raise *)

Lemma __float___raises (d : Decimal) (e : PyException) :
  __float__ d = Raise e ->
  e = ValueError "cannot convert signaling NaN to float".
Proof.
  destruct d as [s [|p] x|s|s [|] p]; try discriminate.
  intros [= <-]. reflexivity.
Qed.

Lemma float_pow_raises `{Libm} (x y : float) (e : PyException) :
  float_pow x y = Raise e ->
  exists msg,
    e = ValueError msg \/ e = OverflowError msg \/ e = ZeroDivisionError msg.
Proof.
  unfold float_pow, complex_pow. intros Hpow.
  repeat match type of Hpow with
         | context [if ?c then _ else _] => destruct c
         end; try discriminate Hpow;
    try (injection Hpow as <-; eauto).
  - destruct (libm_cpow_errno x y); try discriminate Hpow;
      injection Hpow as <-; eauto.
  - destruct (libm_pow (SFabs x) y) as [ix errno].
    destruct (adjust_erange1 ix errno); try discriminate Hpow;
      injection Hpow as <-; eauto.
  - destruct (libm_pow (SFabs x) y) as [ix errno].
    destruct (adjust_erange1 ix errno); try discriminate Hpow;
      injection Hpow as <-; eauto.
Qed.

(** X6: the exceptions of the six operations.  [Addition], [Subtraction]
    and [Multiplication] raise nothing but the signals [InvalidOperation]
    and [Overflow] of the decimal module, [Division] these and
    [DivisionByZero], and [Power] and [Root] nothing but [ValueError],
    [TypeError], [OverflowError] and [ZeroDivisionError].  No operation
    raises the [OperationError] that the docstring of [Operation.execute]
    names, nor a [ValidationError]. *)
Theorem execute_raises_only :
  forall (ctx : Context) (L : Libm) (a b : Decimal) (e : PyException),
    (Addition_execute ctx a b = Raise e ->
       e = InvalidOperation \/ e = Overflow)
    /\ (Subtraction_execute ctx a b = Raise e ->
       e = InvalidOperation \/ e = Overflow)
    /\ (Multiplication_execute ctx a b = Raise e ->
       e = InvalidOperation \/ e = Overflow)
    /\ (Division_execute ctx a b = Raise e ->
       e = InvalidOperation \/ e = DivisionByZero \/ e = Overflow)
    /\ (Power_execute a b = Raise e ->
       exists msg, e = ValueError msg \/ e = TypeError msg
                   \/ e = OverflowError msg \/ e = ZeroDivisionError msg)
    /\ (Root_execute a b = Raise e ->
       exists msg, e = ValueError msg \/ e = TypeError msg
                   \/ e = OverflowError msg \/ e = ZeroDivisionError msg).
Proof.
  intros ctx L a b e. repeat split.
  - unfold Addition_execute. intros Hr.
    destruct (add_cases ctx a b) as [[d Hd]|[Hi|[r [Hs _]]]]; [|left|]; try congruence.
    right. apply (_fix_raises ctx d). congruence.
  - unfold Subtraction_execute. intros Hr.
    destruct (sub_cases ctx a b) as [[d Hd]|[Hi|[r [Hs _]]]]; [|left|]; try congruence.
    right. apply (_fix_raises ctx d). congruence.
  - unfold Multiplication_execute. intros Hr.
    destruct (mul_cases ctx a b) as [(c & x & Hd)|[Hi|[r [Hs _]]]]; [|left|];
      try congruence.
    right. eapply _fix_raises. rewrite <- Hd. exact Hr.
  - unfold Division_execute. intros Hr.
    destruct (truediv_cases ctx a b)
      as [(c & x & Hd)|[Hi|[Hz|[Ht|[r [Hs _]]]]]]; try congruence.
    + right. right. eapply _fix_raises. rewrite <- Hd. exact Hr.
    + left. congruence.
    + right. left. congruence.
  - unfold Power_execute. intros Hr.
    destruct (__float__ a) as [x|ea] eqn:Ha; cbn [mbind Result_bind] in Hr.
    2:{ injection Hr as <-. apply __float___raises in Ha. eauto. }
    destruct (__float__ b) as [y|eb] eqn:Hb; cbn [mbind Result_bind] in Hr.
    2:{ injection Hr as <-. apply __float___raises in Hb. eauto. }
    destruct (float_pow x y) as [[z|]|ep] eqn:Hpow;
      cbn [mbind Result_bind Decimal_new] in Hr; [discriminate Hr| |];
      injection Hr as <-; [eauto|].
    destruct (float_pow_raises _ _ _ Hpow) as [msg [-> | [-> | ->]]]; eauto.
  - unfold Root_execute. intros Hr.
    destruct (__float__ a) as [x|ea] eqn:Ha; cbn [mbind Result_bind] in Hr.
    2:{ injection Hr as <-. apply __float___raises in Ha. eauto. }
    destruct (__float__ b) as [y|eb] eqn:Hb; cbn [mbind Result_bind] in Hr.
    2:{ injection Hr as <-. apply __float___raises in Hb. eauto. }
    unfold float_truediv in Hr.
    destruct (is_zero y); cbn [mbind Result_bind] in Hr;
      [injection Hr as <-; eauto 6|].
    destruct (float_pow x (SFdiv fprec femax fone y)) as [[z|]|ep] eqn:Hpow;
      cbn [mbind Result_bind Decimal_new] in Hr; [discriminate Hr| |];
      injection Hr as <-; [eauto|].
    destruct (float_pow_raises _ _ _ Hpow) as [msg [-> | [-> | ->]]]; eauto 6.
Qed.

(** X7: in a context with a positive precision and [Emin <= Emax], every
    finite result of [Addition], [Subtraction], [Multiplication] and
    [Division] is within the context: its coefficient has at most [prec]
    digits, its exponent is not below [Etiny] and its first digit not
    above [Emax]. *)
Theorem arithmetic_results_within_context :
  forall (ctx : Context) (a b r : Decimal),
    0 < prec ctx ->
    Emin ctx <= Emax ctx ->
    Addition_execute ctx a b = Ok r
    \/ Subtraction_execute ctx a b = Ok r
    \/ Multiplication_execute ctx a b = Ok r
    \/ Division_execute ctx a b = Ok r ->
    within_context ctx r.
Proof.
  intros ctx a b r Hprec Hrange Hop.
  assert (Hspecial : forall r', Ok r' = Ok r -> _is_special r' = true ->
                                within_context ctx r).
  { intros r' [= ->] Hs. destruct r; [discriminate Hs|exact I..]. }
  destruct Hop as [Hr|[Hr|[Hr|Hr]]].
  - unfold Addition_execute in Hr.
    destruct (add_cases ctx a b) as [[d Hd]|[Hi|[r' [Hs Hsp]]]]; try congruence.
    + apply (_fix_bounds ctx d); congruence.
    + apply (Hspecial r'); congruence.
  - unfold Subtraction_execute in Hr.
    destruct (sub_cases ctx a b) as [[d Hd]|[Hi|[r' [Hs Hsp]]]]; try congruence.
    + apply (_fix_bounds ctx d); congruence.
    + apply (Hspecial r'); congruence.
  - unfold Multiplication_execute in Hr.
    destruct (mul_cases ctx a b) as [(c & x & Hd)|[Hi|[r' [Hs Hsp]]]];
      try congruence.
    + eapply _fix_bounds; try eassumption. rewrite <- Hd. exact Hr.
    + apply (Hspecial r'); congruence.
  - unfold Division_execute in Hr.
    destruct (truediv_cases ctx a b)
      as [(c & x & Hd)|[Hi|[Hz|[Ht|[r' [Hs Hsp]]]]]]; try congruence.
    + eapply _fix_bounds; try eassumption. rewrite <- Hd. exact Hr.
    + rewrite Ht in Hr. injection Hr as <-. cbn [within_context].
      change (ndigits (Z.of_N 0)) with 1. unfold Etiny. lia.
    + apply (Hspecial r'); congruence.
Qed.

Lemma arithmetic_results_within_context_witness :
  within_context DefaultContext (Finite false 3333333333333333333333333333 (-28)).
Proof.
  apply (arithmetic_results_within_context DefaultContext
           (Decimal_of_Z 1) (Decimal_of_Z 3)).
  - reflexivity.
  - discriminate.
  - right. right. right. vm_compute. reflexivity.
Defined.

(** X8: the sign of a product and of a quotient.  When neither operand is
    a NaN, what [Multiplication] and [Division] return has the sign of the
    one operand times the sign of the other, zeros and infinities
    included. *)
Theorem product_quotient_sign :
  forall (ctx : Context) (a b r : Decimal),
    is_qnan a || is_qnan b = false ->
    Multiplication_execute ctx a b = Ok r \/ Division_execute ctx a b = Ok r ->
    _sign r = xorb (_sign a) (_sign b).
Proof.
  intros ctx a b r Hnan Hop.
  unfold Multiplication_execute, Division_execute in Hop.
  destruct a as [sa ca ea|sa|sa [|] pa], b as [sb cb eb|sb|sb [|] pb];
    try discriminate Hnan;
    try (destruct Hop as [Hr|Hr]; discriminate Hr).
  - (* finite operands *)
    destruct Hop as [Hr|Hr].
    + change (mul ctx (Finite sa ca ea) (Finite sb cb eb))
        with (_fix ctx (Finite (xorb sa sb) (ca * cb) (ea + eb))) in Hr.
      apply _fix_sign in Hr. apply Hr.
    + destruct cb as [|pb]; [destruct ca; discriminate Hr|].
      destruct (truediv_Finite_fix ctx sa ca ea sb (Npos pb) eb ltac:(discriminate))
        as (c & x & Hd).
      rewrite Hd in Hr. apply _fix_sign in Hr. apply Hr.
  - destruct Hop as [Hr|Hr].
    + cbn in Hr. destruct ca; [discriminate Hr|]. injection Hr as <-. reflexivity.
    + injection Hr as <-. reflexivity.
  - destruct Hop as [Hr|Hr].
    + cbn in Hr. destruct cb; [discriminate Hr|]. injection Hr as <-. reflexivity.
    + injection Hr as <-. reflexivity.
  - destruct Hop as [Hr|Hr]; [|discriminate Hr].
    injection Hr as <-. reflexivity.
Qed.

Lemma product_quotient_sign_witness :
  _sign (Finite true 0 0) = xorb (_sign (Decimal_of_Z 0)) (_sign (Decimal_of_Z (-5))).
Proof.
  apply (product_quotient_sign DefaultContext (Decimal_of_Z 0) (Decimal_of_Z (-5))).
  - reflexivity.
  - left. vm_compute. reflexivity.
Defined.

(** *** Operands in either order *)

(** [_normalize] treats its operands alike. *)
Lemma _normalize_swap (c1 e1 c2 e2 p : Z) :
  _normalize c2 e2 c1 e1 p
  = let '(i1, i2, e) := _normalize c1 e1 c2 e2 p in (i2, i1, e).
Proof.
  unfold _normalize.
  pose proof (ndigits_pos c1) as H1. pose proof (ndigits_pos c2) as H2.
  destruct (e1 <? e2) eqn:H12; destruct (e2 <? e1) eqn:H21;
    try (apply Z.ltb_lt in H12); try (apply Z.ltb_lt in H21);
    try (apply Z.ltb_ge in H12); try (apply Z.ltb_ge in H21); try lia.
  - destruct (ndigits c1 + e1 - 1 <? e2 + Z.min (-1) (ndigits c2 - p - 2));
      reflexivity.
  - destruct (ndigits c2 + e2 - 1 <? e1 + Z.min (-1) (ndigits c1 - p - 2));
      reflexivity.
  - assert (e1 = e2) as -> by lia.
    destruct (ndigits c1 + e2 - 1 <? e2 + Z.min (-1) (ndigits c2 - p - 2)) eqn:Ha;
      [apply Z.ltb_lt in Ha; lia|].
    destruct (ndigits c2 + e2 - 1 <? e2 + Z.min (-1) (ndigits c1 - p - 2)) eqn:Hb;
      [apply Z.ltb_lt in Hb; lia|].
    rewrite Z.sub_diag, Z.pow_0_r, !Z.mul_1_r. reflexivity.
Qed.

Lemma add_Finite_comm (ctx : Context) (sa : bool) (ca : N) (ea : Z)
    (sb : bool) (cb : N) (eb : Z) :
  add ctx (Finite sa ca ea) (Finite sb cb eb)
  = add ctx (Finite sb cb eb) (Finite sa ca ea).
Proof.
  unfold add. cbn [_check_nans]. cbv zeta.
  rewrite (Z.min_comm eb ea), (_normalize_swap (Z.of_N ca) ea (Z.of_N cb) eb).
  destruct (_normalize (Z.of_N ca) ea (Z.of_N cb) eb (prec ctx)) as [[i1 i2] e].
  destruct (Z.of_N ca =? 0), (Z.of_N cb =? 0); cbn [andb];
    [destruct sa, sb; reflexivity|reflexivity|reflexivity|].
  destruct sa, sb; cbn [eqb negb]; rewrite ?(Z.add_comm i2 i1); try reflexivity.
  - destruct (Z.eqb_spec i1 i2) as [->|Hne].
    + rewrite Z.eqb_refl. reflexivity.
    + destruct (Z.eqb_spec i2 i1) as [Heq|_]; [congruence|].
      destruct (Z.ltb_spec i1 i2), (Z.ltb_spec i2 i1); try lia; reflexivity.
  - destruct (Z.eqb_spec i1 i2) as [->|Hne].
    + rewrite Z.eqb_refl. reflexivity.
    + destruct (Z.eqb_spec i2 i1) as [Heq|_]; [congruence|].
      destruct (Z.ltb_spec i1 i2), (Z.ltb_spec i2 i1); try lia; reflexivity.
Qed.

(** X9: [Addition] and [Multiplication] do not depend on the order of
    their operands, unless both are quiet NaNs (then the first one is
    returned): the same decimal comes back, digit for digit, or the same
    exception. *)
Theorem Addition_Multiplication_commute :
  forall (ctx : Context) (a b : Decimal),
    is_qnan a && is_qnan b = false ->
    Addition_execute ctx a b = Addition_execute ctx b a
    /\ Multiplication_execute ctx a b = Multiplication_execute ctx b a.
Proof.
  intros ctx a b Hnan. unfold Addition_execute, Multiplication_execute.
  destruct a as [sa ca ea|sa|sa [|] pa], b as [sb cb eb|sb|sb [|] pb];
    try discriminate Hnan; try (split; reflexivity).
  - split; [apply add_Finite_comm|].
    unfold mul. cbn [_check_nans _sign].
    rewrite (xorb_comm sb sa), (N.mul_comm cb ca), (Z.add_comm eb ea).
    reflexivity.
  - split; [reflexivity|]. cbn. rewrite (xorb_comm sb sa). reflexivity.
  - split; [reflexivity|]. cbn. rewrite (xorb_comm sb sa). reflexivity.
  - split; [destruct sa, sb; reflexivity|].
    cbn. rewrite (xorb_comm sb sa). reflexivity.
Qed.

Lemma Addition_Multiplication_commute_witness :
  Addition_execute DefaultContext (Finite false 15 (-1)) (Decimal_of_Z (-3))
  = Addition_execute DefaultContext (Decimal_of_Z (-3)) (Finite false 15 (-1))
  /\ Multiplication_execute DefaultContext (Finite false 15 (-1)) (Decimal_of_Z (-3))
     = Multiplication_execute DefaultContext (Decimal_of_Z (-3)) (Finite false 15 (-1)).
Proof.
  apply (Addition_Multiplication_commute DefaultContext
           (Finite false 15 (-1)) (Decimal_of_Z (-3))).
  reflexivity.
Defined.

(** *** An operand with itself *)

(** X10: [Subtraction.execute(a, a)].  For a finite [a] it is a zero, in
    every context and without an exception: the zero has the exponent of
    [a] (brought into the range of the context) and is positive, except
    under [ROUND_FLOOR], where it is negative.  For an infinity it raises
    [InvalidOperation]. *)
Theorem Subtraction_execute_self :
  forall (ctx : Context) (a : Decimal),
    Subtraction_execute ctx a a =
    match a with
    | Finite _ _ e =>
        Ok (Finite match rounding ctx with ROUND_FLOOR => true | _ => false end
                   0
                   (Z.min (Z.max e (Etiny ctx))
                          (if clamp ctx then Etop ctx else Emax ctx)))
    | Infinity _ => Raise InvalidOperation
    | NaN _ true _ => Raise InvalidOperation
    | NaN _ false _ => Ok (_fix_nan ctx a)
    end.
Proof.
  intros ctx a. unfold Subtraction_execute, sub.
  destruct a as [s c e|s|s [|] p]; try reflexivity.
  - cbn [_check_nans copy_negate]. unfold add. cbn [_check_nans]. cbv zeta.
    rewrite Z.min_id.
    destruct (Z.of_N c =? 0) eqn:Hz; cbn [andb].
    + destruct s, (rounding ctx); reflexivity.
    + pose proof (ndigits_pos (Z.of_N c)) as Hn.
      unfold _normalize. rewrite Z.ltb_irrefl.
      destruct (ndigits (Z.of_N c) + e - 1
                <? e + Z.min (-1) (ndigits (Z.of_N c) - prec ctx - 2)) eqn:Hrep;
        [apply Z.ltb_lt in Hrep; lia|].
      rewrite Z.sub_diag, Z.pow_0_r, Z.mul_1_r, Z.eqb_refl.
      destruct s, (rounding ctx); reflexivity.
  - cbn. destruct s; reflexivity.
Qed.

(** The loop that strips zeros brings a power of ten down to one. *)
Lemma strip_zeros_pow10 (fuel : nat) :
  forall exp,
    strip_zeros fuel (10 ^ Z.of_nat fuel) exp (exp + Z.of_nat fuel)
    = (1, exp + Z.of_nat fuel).
Proof.
  induction fuel as [|fuel IH]; intros exp.
  - cbn [strip_zeros Z.of_nat]. rewrite Z.pow_0_r, Z.add_0_r. reflexivity.
  - cbn [strip_zeros]. rewrite Nat2Z.inj_succ, Z.pow_succ_r by lia.
    replace (exp <? exp + Z.succ (Z.of_nat fuel)) with true
      by (symmetry; apply Z.ltb_lt; lia).
    rewrite (Z.mul_comm 10), Z.mod_mul, Z.div_mul by lia.
    cbn [andb Z.eqb].
    replace (exp + Z.succ (Z.of_nat fuel)) with (exp + 1 + Z.of_nat fuel) by lia.
    apply IH.
Qed.

(** X11: [Division.execute(a, a)] is one.  For every finite [a] other
    than zero, in a context with a positive precision and
    [Emin <= 0 <= Emax], the quotient is
    [Decimal(1)] exactly (written with trailing zeros only when the
    context clamps and its [Etop] is negative). *)
Theorem Division_execute_self :
  forall (ctx : Context) (s : bool) (c : N) (e : Z),
    0 < prec ctx ->
    Emin ctx <= 0 <= Emax ctx ->
    c <> 0%N ->
    Division_execute ctx (Finite s c e) (Finite s c e)
    = Ok (if clamp ctx && (Etop ctx <? 0)
          then Finite false (Z.to_N (10 ^ (- Etop ctx))) (Etop ctx)
          else Decimal_one).
Proof.
  intros ctx s c e Hprec Hrange Hc.
  unfold Division_execute, truediv. cbn [_check_nans _sign]. cbv zeta.
  assert (Hz : (Z.of_N c =? 0) = false) by (apply Z.eqb_neq; lia).
  rewrite Hz, xorb_nilpotent.
  replace (ndigits (Z.of_N c) - ndigits (Z.of_N c) + prec ctx + 1)
    with (prec ctx + 1) by lia.
  replace (0 <=? prec ctx + 1) with true by (symmetry; apply Z.leb_le; lia).
  rewrite (Z.mul_comm (Z.of_N c)), Z.div_mul, Z.mod_mul by lia.
  cbn [Z.eqb negb].
  replace (e - e - (e - e - (prec ctx + 1))) with (prec ctx + 1) by lia.
  pose proof (strip_zeros_pow10 (Z.to_nat (prec ctx + 1)) (e - e - (prec ctx + 1)))
    as Hstrip.
  rewrite Z2Nat.id in Hstrip by lia.
  replace (e - e - (prec ctx + 1) + (prec ctx + 1)) with (e - e) in Hstrip by lia.
  rewrite Hstrip, Z.sub_diag.
  unfold _fix. change (Z.of_N (Z.to_N 1)) with 1.
  cbn [Z.eqb]. rewrite ndigits_1. cbv zeta.
  replace (Etop ctx <? 1 + 0 - prec ctx) with false
    by (symmetry; apply Z.ltb_ge; unfold Etop; lia).
  replace (0 <? Z.max (1 + 0 - prec ctx) (Etiny ctx)) with false
    by (symmetry; apply Z.ltb_ge; unfold Etiny; lia).
  destruct (clamp ctx && (Etop ctx <? 0)); [|reflexivity].
  rewrite Z.mul_1_l, Z.sub_0_l. reflexivity.
Qed.

Lemma Division_execute_self_witness :
  Division_execute DefaultContext (Finite true 375 (-2)) (Finite true 375 (-2))
  = Ok Decimal_one.
Proof.
  apply (Division_execute_self DefaultContext true 375 (-2)).
  - reflexivity.
  - split; discriminate.
  - discriminate.
Defined.

(** *** NaN operands *)

(** X12: NaN operands of the four arithmetic operations.  A signaling NaN
    as either operand raises [InvalidOperation].  Otherwise a quiet NaN
    operand is no error: the operation returns that NaN (the first
    operand's, when both are), with its payload cut to the precision. *)
Theorem arithmetic_NaN_operands :
  forall (ctx : Context) (a b : Decimal),
    let outcome :=
      if is_snan a || is_snan b then Raise InvalidOperation
      else Ok (_fix_nan ctx (if is_qnan a then a else b)) in
    is_snan a || is_snan b || is_qnan a || is_qnan b = true ->
    Addition_execute ctx a b = outcome
    /\ Subtraction_execute ctx a b = outcome
    /\ Multiplication_execute ctx a b = outcome
    /\ Division_execute ctx a b = outcome.
Proof.
  intros ctx a b outcome Hnan. unfold outcome.
  unfold Addition_execute, Subtraction_execute, Multiplication_execute,
    Division_execute.
  destruct a as [sa ca ea|sa|sa [|] pa], b as [sb cb eb|sb|sb [|] pb];
    try discriminate Hnan; repeat split; reflexivity.
Qed.

Lemma arithmetic_NaN_operands_witness :
  Addition_execute DefaultContext (Decimal_of_Z 1) (NaN false false 0)
  = Ok (NaN false false 0)
  /\ Subtraction_execute DefaultContext (Decimal_of_Z 1) (NaN false false 0)
     = Ok (NaN false false 0)
  /\ Multiplication_execute DefaultContext (Decimal_of_Z 1) (NaN false false 0)
     = Ok (NaN false false 0)
  /\ Division_execute DefaultContext (Decimal_of_Z 1) (NaN false false 0)
     = Ok (NaN false false 0).
Proof.
  apply (arithmetic_NaN_operands DefaultContext (Decimal_of_Z 1) (NaN false false 0)).
  reflexivity.
Defined.

(** ** More on powers and roots *)

(** Every decimal but a signaling NaN converts to a float. *)
Lemma __float___Ok (a : Decimal) :
  is_snan a = false -> exists x, __float__ a = Ok x.
Proof.
  destruct a as [s c e|s|s [|] p]; intros Hs; try discriminate Hs;
    [apply __float___Finite|eexists; reflexivity..].
Qed.

(** X13: a power with exponent zero is one.  Whenever the exponent
    converts to a float zero (a decimal zero of any sign and exponent, or
    a number too small for a float), [Power.execute(a, b)] is [Decimal(1)]
    for every [a], zero, infinite or NaN; only a signaling NaN [a] raises
    the [ValueError] of its conversion. *)
Theorem Power_execute_zero_exponent :
  forall (L : Libm) (a b : Decimal) (y : float),
    __float__ b = Ok y ->
    is_zero y = true ->
    Power_execute a b =
    match a with
    | NaN _ true _ => Raise (ValueError "cannot convert signaling NaN to float")
    | _ => Ok Decimal_one
    end.
Proof.
  intros L a b y Hb Hy. unfold Power_execute.
  destruct (is_snan a) eqn:Hs.
  - destruct a as [s c e|s|s [|] p]; try discriminate Hs. reflexivity.
  - destruct (__float___Ok a Hs) as [x Hx]. rewrite Hx, Hb.
    cbn [mbind Result_bind]. unfold float_pow. rewrite Hy.
    cbn [mbind Result_bind Decimal_new].
    destruct a as [s c e|s|s [|] p]; try discriminate Hs; reflexivity.
Qed.

Lemma Power_execute_zero_exponent_witness :
  Power_execute (H := example_libm) (Infinity true) (Finite true 1 (-400))
  = Ok Decimal_one.
Proof.
  apply (Power_execute_zero_exponent example_libm (Infinity true)
           (Finite true 1 (-400)) (S754_zero true));
    vm_compute; reflexivity.
Defined.

Lemma float_pow_one `{Libm} (y : float) : float_pow fone y = Ok (Float fone).
Proof.
  unfold float_pow. destruct y as [s|s| |s m e]; reflexivity.
Qed.

(** X14: a power of one is one.  Whenever the base converts to the float
    [1.0], [Power.execute(a, b)] is [Decimal(1)] for every exponent,
    infinite or NaN; only a signaling NaN [b] raises the [ValueError] of
    its conversion. *)
Theorem Power_execute_base_one :
  forall (L : Libm) (a b : Decimal),
    __float__ a = Ok fone ->
    Power_execute a b =
    match b with
    | NaN _ true _ => Raise (ValueError "cannot convert signaling NaN to float")
    | _ => Ok Decimal_one
    end.
Proof.
  intros L a b Ha. unfold Power_execute. rewrite Ha. cbn [mbind Result_bind].
  destruct (is_snan b) eqn:Hs.
  - destruct b as [s c e|s|s [|] p]; try discriminate Hs. reflexivity.
  - destruct (__float___Ok b Hs) as [y Hy]. rewrite Hy.
    cbn [mbind Result_bind]. rewrite float_pow_one.
    cbn [mbind Result_bind Decimal_new].
    destruct b as [s c e|s|s [|] p]; try discriminate Hs; reflexivity.
Qed.

Lemma Power_execute_base_one_witness :
  Power_execute (H := example_libm) (Finite false 100 (-2)) (NaN false false 0)
  = Ok Decimal_one.
Proof.
  apply (Power_execute_base_one example_libm (Finite false 100 (-2))
           (NaN false false 0)).
  vm_compute. reflexivity.
Defined.

(** X15: the powers of zero.  For a zero base of any sign and exponent
    the C library is not asked: the result depends on the float of the
    exponent alone.  A negative finite exponent raises
    [ZeroDivisionError]; minus infinity gives infinity; an exponent that is
    a float zero gives one; a NaN gives NaN; a positive exponent gives
    zero, which is negative only for a negative zero and an odd integer
    exponent. *)
Theorem Power_execute_zero_base :
  forall (L : Libm) (s : bool) (e : Z) (b : Decimal) (y : float),
    __float__ b = Ok y ->
    Power_execute (Finite s 0 e) b =
    match y with
    | S754_zero _ => Ok Decimal_one
    | S754_nan => Ok (NaN false false 0)
    | S754_infinity true => Ok (Infinity false)
    | S754_infinity false => Ok (Finite false 0 0)
    | S754_finite true _ _ =>
        Raise (ZeroDivisionError "0.0 cannot be raised to a negative power")
    | S754_finite false _ _ => Ok (Finite (s && is_odd_integer y) 0 0)
    end.
Proof.
  intros L s e b y Hb. unfold Power_execute.
  rewrite __float___zero, Hb. cbn [mbind Result_bind].
  destruct y as [sy|sy| |sy m x].
  - reflexivity.
  - destruct sy; reflexivity.
  - reflexivity.
  - destruct sy; [reflexivity|].
    unfold float_pow. cbn [is_zero is_nan is_inf SFltb SFcompare fzero].
    cbn [mbind Result_bind Decimal_new].
    destruct (is_odd_integer (S754_finite false m x)), s; reflexivity.
Qed.

Lemma Power_execute_zero_base_witness :
  Power_execute (H := example_libm) (Finite true 0 0) (Decimal_of_Z 3)
  = Ok (Finite true 0 0).
Proof.
  apply (Power_execute_zero_base example_libm true 0 (Decimal_of_Z 3)
           (S754_finite false 6755399441055744 (-51))).
  vm_compute. reflexivity.
Defined.

(** X16: a negative base with a fractional exponent.  When the base
    converts to a negative finite float and the exponent to a finite float
    that is not an integer, [Power.execute] returns nothing: it raises
    [TypeError] (the power is a complex number, which [Decimal] refuses),
    or the [OverflowError] or [ZeroDivisionError] of the complex power. *)
Theorem Power_execute_complex :
  forall (L : Libm) (a b : Decimal) (ma : positive) (ea : Z)
         (sy : bool) (my : positive) (ey : Z),
    __float__ a = Ok (S754_finite true ma ea) ->
    __float__ b = Ok (S754_finite sy my ey) ->
    is_integer (S754_finite sy my ey) = false ->
    exists msg,
      Power_execute a b = Raise (TypeError msg)
      \/ Power_execute a b = Raise (OverflowError msg)
      \/ Power_execute a b = Raise (ZeroDivisionError msg).
Proof.
  intros L a b ma ea sy my ey Ha Hb Hint. unfold Power_execute.
  rewrite Ha, Hb. cbn [mbind Result_bind]. unfold float_pow.
  cbn [is_zero is_nan is_inf SFltb SFcompare fzero andb negb].
  rewrite Hint. cbn [negb mbind Result_bind]. unfold complex_pow.
  destruct (libm_cpow_errno _ _); cbn [mbind Result_bind Decimal_new]; eauto.
Qed.

Lemma Power_execute_complex_witness :
  exists msg,
    Power_execute (H := example_libm) (Decimal_of_Z (-8)) (Finite false 5 (-1))
      = Raise (TypeError msg)
    \/ Power_execute (H := example_libm) (Decimal_of_Z (-8)) (Finite false 5 (-1))
      = Raise (OverflowError msg)
    \/ Power_execute (H := example_libm) (Decimal_of_Z (-8)) (Finite false 5 (-1))
      = Raise (ZeroDivisionError msg).
Proof.
  apply (Power_execute_complex example_libm (Decimal_of_Z (-8)) (Finite false 5 (-1))
           4503599627370496 (-49) false 4503599627370496 (-53));
    vm_compute; reflexivity.
Defined.

(** X17: a root of infinite degree is one.  Whenever the degree converts
    to an infinite float (an infinity, or a number too large for a float),
    [1 / float(b)] is zero and [Root.execute(a, b)] is [Decimal(1)] for
    every [a], negative, zero or NaN; only a signaling NaN [a] raises the
    [ValueError] of its conversion. *)
Theorem Root_execute_infinite_degree :
  forall (L : Libm) (a b : Decimal) (s : bool),
    __float__ b = Ok (S754_infinity s) ->
    Root_execute a b =
    match a with
    | NaN _ true _ => Raise (ValueError "cannot convert signaling NaN to float")
    | _ => Ok Decimal_one
    end.
Proof.
  intros L a b s Hb. unfold Root_execute.
  destruct (is_snan a) eqn:Hs.
  - destruct a as [sa c e|sa|sa [|] p]; try discriminate Hs. reflexivity.
  - destruct (__float___Ok a Hs) as [x Hx]. rewrite Hx, Hb.
    cbn [mbind Result_bind]. unfold float_truediv. cbn [is_zero mbind Result_bind].
    change (SFdiv fprec femax fone (S754_infinity s)) with (S754_zero (xorb false s)).
    unfold float_pow. cbn [is_zero mbind Result_bind Decimal_new].
    destruct a as [sa c e|sa|sa [|] p]; try discriminate Hs; reflexivity.
Qed.

Lemma Root_execute_infinite_degree_witness :
  Root_execute (H := example_libm) (Decimal_of_Z (-8)) (Finite false 1 400)
  = Ok Decimal_one.
Proof.
  apply (Root_execute_infinite_degree example_libm (Decimal_of_Z (-8))
           (Finite false 1 400) false).
  vm_compute. reflexivity.
Defined.

(** X18: a signaling NaN operand of [Power] and [Root].  Whichever
    operand it is, the call raises the [ValueError] of the conversion to
    a float, where the four arithmetic operations raise
    [InvalidOperation]. *)
Theorem Power_Root_execute_sNaN :
  forall (L : Libm) (a b : Decimal),
    is_snan a || is_snan b = true ->
    Power_execute a b
    = Raise (ValueError "cannot convert signaling NaN to float")
    /\ Root_execute a b
       = Raise (ValueError "cannot convert signaling NaN to float").
Proof.
  intros L a b Hnan. unfold Power_execute, Root_execute.
  destruct (is_snan a) eqn:Hs.
  - destruct a as [sa c e|sa|sa [|] p]; try discriminate Hs.
    split; reflexivity.
  - destruct (__float___Ok a Hs) as [x Hx]. rewrite Hx.
    cbn [orb] in Hnan.
    destruct b as [sb c e|sb|sb [|] p]; try discriminate Hnan.
    split; reflexivity.
Qed.

Lemma Power_Root_execute_sNaN_witness :
  Power_execute (H := example_libm) (Decimal_of_Z 2) (NaN false true 0)
  = Raise (ValueError "cannot convert signaling NaN to float")
  /\ Root_execute (H := example_libm) (Decimal_of_Z 2) (NaN false true 0)
     = Raise (ValueError "cannot convert signaling NaN to float").
Proof.
  apply (Power_Root_execute_sNaN example_libm (Decimal_of_Z 2) (NaN false true 0)).
  reflexivity.
Defined.

(** ** How far a rounded result is from the exact one *)

(** The digits that rounding drops are not all zero when it rounds up. *)
Lemma _round_up_dropped (mode : RoundingMode) (s : bool) (q r half : Z) :
  0 < half -> 0 < _round mode s q r half -> r <> 0.
Proof.
  intros Hhalf Hpos ->. rewrite _round_exact in Hpos by exact Hhalf. lia.
Qed.

(** [_fix] moves a finite decimal by less than one unit of the last digit
    that it returns. *)
Lemma _fix_error (ctx : Context) (s : bool) (cN : N) (e : Z) (r : Decimal) :
  0 < prec ctx ->
  _fix ctx (Finite s cN e) = Ok r ->
  exists c' e',
    r = Finite s c' e'
    /\ Z.abs (Z.of_N c' * 10 ^ (e' - Z.min e e') - Z.of_N cN * 10 ^ (e - Z.min e e'))
       < 10 ^ (e' - Z.min e e').
Proof.
  intros Hprec H. unfold _fix in H. cbv zeta in H.
  destruct (Z.of_N cN =? 0) eqn:Hz.
  { apply Z.eqb_eq in Hz. injection H as <-. eexists. eexists.
    split; [reflexivity|]. rewrite Hz. change (Z.of_N 0) with 0.
    rewrite !Z.mul_0_l. apply pow10_pos. lia. }
  apply Z.eqb_neq in Hz.
  assert (Hc : 0 < Z.of_N cN) by lia.
  destruct (ndigits_bounds _ Hc) as [Hlo Hhi].
  pose proof (ndigits_pos (Z.of_N cN)) as Hn1.
  set (c := Z.of_N cN) in *. set (n := ndigits c) in *.
  destruct (Etop ctx <? n + e - prec ctx) eqn:Hov; [discriminate H|].
  set (exp_min := Z.max (n + e - prec ctx) (Etiny ctx)) in *.
  assert (Hem' : n + e - prec ctx <= exp_min) by (unfold exp_min; lia).
  destruct (e <? exp_min) eqn:Hr.
  - apply Z.ltb_lt in Hr.
    destruct (n + e - exp_min <? 0) eqn:Hneg; cbv beta iota in H.
    + (* nothing of the coefficient is kept *)
      apply Z.ltb_lt in Hneg.
      replace (exp_min - (exp_min - 1)) with 1 in H by lia.
      change (1 / 10 ^ 1) with 0 in H. change (1 mod 10 ^ 1) with 1 in H.
      assert (Hsmall : c < 10 ^ (exp_min - e)).
      { pose proof (Z.pow_le_mono_r 10 n (exp_min - e) ltac:(lia) ltac:(lia)). lia. }
      destruct (0 <? _round (rounding ctx) s 0 1 (5 * 10 ^ (1 - 1))).
      * change (0 + 1) with 1 in H. rewrite ndigits_1 in H.
        replace (prec ctx <? 1) with false in H by (symmetry; apply Z.ltb_ge; lia).
        cbn [andb] in H.
        destruct (Etop ctx <? exp_min); [discriminate H|].
        injection H as <-. eexists. eexists. split; [reflexivity|].
        change (Z.of_N (Z.to_N 1)) with 1.
        replace (Z.min e exp_min) with e by lia.
        rewrite Z.sub_diag, Z.pow_0_r. lia.
      * cbn [andb] in H.
        destruct (Etop ctx <? exp_min); [discriminate H|].
        injection H as <-. eexists. eexists. split; [reflexivity|].
        change (Z.of_N (Z.to_N 0)) with 0.
        replace (Z.min e exp_min) with e by lia.
        rewrite Z.sub_diag, Z.pow_0_r. lia.
    + apply Z.ltb_ge in Hneg.
      set (k := exp_min - e) in *.
      assert (Hk : 0 < k <= n) by (unfold k; lia).
      pose proof (pow10_pos k ltac:(lia)) as Hpk.
      assert (Hq0 : 0 <= c / 10 ^ k) by (apply Z.div_pos; lia).
      pose proof (div_pow10_lt c n k Hc Hhi ltac:(lia)) as Hq.
      assert (Hnk : n - k <= prec ctx) by (unfold k; lia).
      pose proof (Z.pow_le_mono_r 10 (n - k) (prec ctx) ltac:(lia) Hnk) as Hpp.
      pose proof (Z.div_mod c (10 ^ k) ltac:(lia)) as Hdm.
      pose proof (Z.mod_pos_bound c (10 ^ k) ltac:(lia)) as Hrm.
      set (q := c / 10 ^ k) in *. set (rm := c mod 10 ^ k) in *.
      destruct (0 <? _round (rounding ctx) s q rm (5 * 10 ^ (k - 1))) eqn:Hup.
      * apply Z.ltb_lt in Hup.
        apply _round_up_dropped in Hup;
          [|pose proof (pow10_pos (k - 1) ltac:(lia)); lia].
        destruct (prec ctx <? ndigits (q + 1)) eqn:Hcarry; cbn [andb] in H.
        -- apply Z.ltb_lt in Hcarry.
           assert (Hq1 : q + 1 = 10 ^ prec ctx).
           { destruct (Z.eq_dec (q + 1) (10 ^ prec ctx)) as [Heq|Hne]; [exact Heq|].
             pose proof (ndigits_le (q + 1) (prec ctx) ltac:(lia) ltac:(lia)). lia. }
           destruct (Etop ctx <? exp_min + 1); [discriminate H|].
           injection H as <-. eexists. eexists. split; [reflexivity|].
           rewrite Hq1.
           replace (prec ctx) with (Z.succ (prec ctx - 1)) at 1 by lia.
           rewrite Z.pow_succ_r by lia.
           rewrite (Z.mul_comm 10), Z.div_mul by lia.
           pose proof (pow10_pos (prec ctx - 1) ltac:(lia)) as Hpp1.
           rewrite Z2N.id by lia.
           replace (Z.min e (exp_min + 1)) with e by lia.
           rewrite Z.sub_diag, Z.pow_0_r, Z.mul_1_r.
           replace (exp_min + 1 - e) with (Z.succ k) by (unfold k; lia).
           rewrite Z.pow_succ_r by lia.
           assert (Hten : 10 ^ (prec ctx - 1) * 10 = q + 1).
           { rewrite Hq1. replace (prec ctx) with (Z.succ (prec ctx - 1)) at 2 by lia.
             rewrite Z.pow_succ_r by lia. lia. }
           nia.
        -- destruct (Etop ctx <? exp_min); [discriminate H|].
           injection H as <-. eexists. eexists. split; [reflexivity|].
           rewrite Z2N.id by lia.
           replace (Z.min e exp_min) with e by lia.
           rewrite Z.sub_diag, Z.pow_0_r, Z.mul_1_r. fold k. nia.
      * cbn [andb] in H.
        destruct (Etop ctx <? exp_min); [discriminate H|].
        injection H as <-. eexists. eexists. split; [reflexivity|].
        rewrite Z2N.id by lia.
        replace (Z.min e exp_min) with e by lia.
        rewrite Z.sub_diag, Z.pow_0_r, Z.mul_1_r. fold k. nia.
  - apply Z.ltb_ge in Hr.
    destruct (clamp ctx && (Etop ctx <? e)) eqn:Hclamp.
    + apply andb_prop in Hclamp as [_ Htop]. apply Z.ltb_lt in Htop.
      injection H as <-. eexists. eexists. split; [reflexivity|].
      pose proof (pow10_pos (e - Etop ctx) ltac:(lia)).
      rewrite Z2N.id by nia. fold c.
      replace (Z.min e (Etop ctx)) with (Etop ctx) by lia.
      rewrite Z.sub_diag, Z.pow_0_r, Z.mul_1_r, Z.sub_diag. simpl. lia.
    + injection H as <-. eexists. eexists. split; [reflexivity|].
      fold c. rewrite Z.min_id, !Z.sub_diag, Z.pow_0_r. lia.
Qed.

(** X19: [Multiplication] rounds the exact product.  For finite operands,
    in a context with a positive precision, a result of
    [Multiplication.execute] is a finite decimal with the sign of the
    product that differs from the exact product of the operands by less
    than one unit of its last digit. *)
Theorem Multiplication_execute_rounds :
  forall (ctx : Context) (sa : bool) (ca : N) (ea : Z)
         (sb : bool) (cb : N) (eb : Z) (r : Decimal),
    0 < prec ctx ->
    Multiplication_execute ctx (Finite sa ca ea) (Finite sb cb eb) = Ok r ->
    exists c e,
      r = Finite (xorb sa sb) c e
      /\ let m := Z.min (ea + eb) e in
         Z.abs (Z.of_N c * 10 ^ (e - m) - Z.of_N (ca * cb) * 10 ^ (ea + eb - m))
         < 10 ^ (e - m).
Proof.
  intros ctx sa ca ea sb cb eb r Hprec Hr.
  unfold Multiplication_execute, mul in Hr. cbn [_check_nans _sign] in Hr.
  destruct (_fix_error ctx _ _ _ _ Hprec Hr) as (c & e & -> & Herr).
  exists c, e. split; [reflexivity|]. cbv zeta. exact Herr.
Qed.

Lemma Multiplication_execute_rounds_witness :
  exists c e,
    Finite false 1524157875323883675049535145 27 = Finite (xorb false false) c e
    /\ let m := Z.min (0 + 0) e in
       Z.abs (Z.of_N c * 10 ^ (e - m)
              - Z.of_N (123456789012345678901234567
                        * 12345678901234567890123456789) * 10 ^ (0 + 0 - m))
       < 10 ^ (e - m).
Proof.
  apply (Multiplication_execute_rounds DefaultContext
           false 123456789012345678901234567 0
           false 12345678901234567890123456789 0).
  - reflexivity.
  - vm_compute. reflexivity.
Defined.

(** A common factor does not change a comparison. *)
Lemma scaled_lt (X Y B P : Z) :
  0 < P -> Z.abs (X * P - Y * P) < B * P <-> Z.abs (X - Y) < B.
Proof.
  intros HP. replace (X * P - Y * P) with ((X - Y) * P) by ring.
  rewrite Z.abs_mul, (Z.abs_eq P) by lia. split; intros Hlt; nia.
Qed.

(** When [_fix] has digits to drop, it returns the kept digits or the
    kept digits plus one. *)
Lemma _fix_drops (ctx : Context) (s : bool) (cN : N) (e : Z) (r : Decimal) :
  0 < prec ctx ->
  prec ctx < ndigits (Z.of_N cN) ->
  _fix ctx (Finite s cN e) = Ok r ->
  exists c' e' k,
    r = Finite s c' e'
    /\ 1 <= k <= e' - e
    /\ (Z.of_N c' * 10 ^ (e' - e) = Z.of_N cN / 10 ^ k * 10 ^ k
        \/ Z.of_N c' * 10 ^ (e' - e) = (Z.of_N cN / 10 ^ k + 1) * 10 ^ k).
Proof.
  intros Hprec Hlong H. unfold _fix in H. cbv zeta in H.
  destruct (Z.of_N cN =? 0) eqn:Hz.
  { apply Z.eqb_eq in Hz. rewrite Hz, ndigits_0 in Hlong. lia. }
  apply Z.eqb_neq in Hz.
  assert (Hc : 0 < Z.of_N cN) by lia.
  destruct (ndigits_bounds _ Hc) as [Hlo Hhi].
  set (c := Z.of_N cN) in *. set (n := ndigits c) in *.
  destruct (Etop ctx <? n + e - prec ctx) eqn:Hov; [discriminate H|].
  set (exp_min := Z.max (n + e - prec ctx) (Etiny ctx)) in *.
  assert (Hem' : n + e - prec ctx <= exp_min) by (unfold exp_min; lia).
  replace (e <? exp_min) with true in H by (symmetry; apply Z.ltb_lt; lia).
  set (k := exp_min - e) in *.
  assert (Hk1 : 1 <= k) by (unfold k; lia).
  pose proof (pow10_pos k ltac:(lia)) as Hpk.
  destruct (n + e - exp_min <? 0) eqn:Hneg; cbv beta iota in H; fold k in H.
  - (* nothing of the coefficient is kept *)
    apply Z.ltb_lt in Hneg.
    replace (exp_min - (exp_min - 1)) with 1 in H by lia.
    change (1 / 10 ^ 1) with 0 in H. change (1 mod 10 ^ 1) with 1 in H.
    assert (Hsmall : c < 10 ^ k).
    { pose proof (Z.pow_le_mono_r 10 n k ltac:(lia) ltac:(unfold k; lia)). lia. }
    assert (Hq : c / 10 ^ k = 0) by (apply Z.div_small; lia).
    destruct (0 <? _round (rounding ctx) s 0 1 (5 * 10 ^ (1 - 1))).
    + change (0 + 1) with 1 in H. rewrite ndigits_1 in H.
      replace (prec ctx <? 1) with false in H by (symmetry; apply Z.ltb_ge; lia).
      cbn [andb] in H.
      destruct (Etop ctx <? exp_min); [discriminate H|].
      injection H as <-. exists (Z.to_N 1), exp_min, k.
      split; [reflexivity|]. split; [unfold k; lia|].
      right. rewrite Hq. reflexivity.
    + cbn [andb] in H.
      destruct (Etop ctx <? exp_min); [discriminate H|].
      injection H as <-. exists (Z.to_N 0), exp_min, k.
      split; [reflexivity|]. split; [unfold k; lia|].
      left. rewrite Hq. reflexivity.
  - apply Z.ltb_ge in Hneg.
    assert (Hk : k <= n) by (unfold k; lia).
    assert (Hq0 : 0 <= c / 10 ^ k) by (apply Z.div_pos; lia).
    pose proof (div_pow10_lt c n k Hc Hhi ltac:(lia)) as Hq.
    assert (Hnk : n - k <= prec ctx) by (unfold k; lia).
    pose proof (Z.pow_le_mono_r 10 (n - k) (prec ctx) ltac:(lia) Hnk) as Hpp.
    set (q := c / 10 ^ k) in *.
    destruct (0 <? _round (rounding ctx) s q (c mod 10 ^ k) (5 * 10 ^ (k - 1))).
    + destruct (prec ctx <? ndigits (q + 1)) eqn:Hcarry; cbn [andb] in H.
      * apply Z.ltb_lt in Hcarry.
        assert (Hq1 : q + 1 = 10 ^ prec ctx).
        { destruct (Z.eq_dec (q + 1) (10 ^ prec ctx)) as [Heq|Hne]; [exact Heq|].
          pose proof (ndigits_le (q + 1) (prec ctx) ltac:(lia) ltac:(lia)). lia. }
        destruct (Etop ctx <? exp_min + 1); [discriminate H|].
        injection H as <-. exists (Z.to_N ((q + 1) / 10)), (exp_min + 1), k.
        split; [reflexivity|]. split; [unfold k; lia|]. fold q. right.
        pose proof (pow10_pos (prec ctx - 1) ltac:(lia)) as Hpp1.
        assert (Hten : q + 1 = 10 ^ (prec ctx - 1) * 10).
        { rewrite Hq1. replace (prec ctx) with (Z.succ (prec ctx - 1)) at 1 by lia.
          rewrite Z.pow_succ_r by lia. lia. }
        rewrite Hten at 1. rewrite Z.div_mul by lia.
        rewrite Z2N.id by lia.
        replace (exp_min + 1 - e) with (Z.succ k) by (unfold k; lia).
        rewrite Z.pow_succ_r by lia. rewrite Hten. ring.
      * destruct (Etop ctx <? exp_min); [discriminate H|].
        injection H as <-. exists (Z.to_N (q + 1)), exp_min, k.
        split; [reflexivity|]. split; [unfold k; lia|]. fold q. right.
        rewrite Z2N.id by lia. reflexivity.
    + cbn [andb] in H.
      destruct (Etop ctx <? exp_min); [discriminate H|].
      injection H as <-. exists (Z.to_N q), exp_min, k.
      split; [reflexivity|]. split; [unfold k; lia|]. fold q. left.
      rewrite Z2N.id by lia. reflexivity.
Qed.

(** The same comparison at a higher common exponent. *)
Lemma rebase (A B C x y m0 m : Z) :
  m0 <= m -> m <= x -> m <= y ->
  Z.abs (A * 10 ^ (x - m0) - B * 10 ^ (y - m0)) < C * 10 ^ (x - m0) ->
  Z.abs (A * 10 ^ (x - m) - B * 10 ^ (y - m)) < C * 10 ^ (x - m).
Proof.
  intros H0 Hx Hy Hlt.
  pose proof (pow10_pos (m - m0) ltac:(lia)) as HP.
  apply (scaled_lt _ _ _ (10 ^ (m - m0)) HP).
  rewrite <- !Z.mul_assoc, <- !Z.pow_add_r by lia.
  replace (x - m + (m - m0)) with (x - m0) by lia.
  replace (y - m + (m - m0)) with (y - m0) by lia.
  exact Hlt.
Qed.

(** The quotient with a remainder: the digit that [__truediv__] adjusts
    keeps the rounding of [_fix] on the side of the exact quotient. *)
Lemma div_sticky (ctx : Context) (s : bool) (N Dn exp : Z) (r : Decimal) :
  0 < prec ctx -> 0 < Dn -> Dn * 10 ^ prec ctx <= N -> N mod Dn <> 0 ->
  _fix ctx (Finite s (Z.to_N (if N / Dn mod 5 =? 0 then N / Dn + 1 else N / Dn))
              exp) = Ok r ->
  exists c' e',
    r = Finite s c' e'
    /\ Z.abs (Z.of_N c' * Dn * 10 ^ (e' - Z.min exp e') - N * 10 ^ (exp - Z.min exp e'))
       < Dn * 10 ^ (e' - Z.min exp e').
Proof.
  intros Hprec HD Hbig Hrem H.
  pose proof (pow10_pos (prec ctx) ltac:(lia)) as Hpp.
  pose proof (Z.div_mod N Dn ltac:(lia)) as Hdm.
  pose proof (Z.mod_pos_bound N Dn HD) as Hmb.
  set (coeff := N / Dn) in *.
  assert (Hcoeff : 10 ^ prec ctx <= coeff).
  { unfold coeff. apply Z.div_le_lower_bound; lia. }
  set (coeff' := if coeff mod 5 =? 0 then coeff + 1 else coeff) in *.
  assert (Hc' : coeff <= coeff' <= coeff + 1)
    by (unfold coeff'; destruct (coeff mod 5 =? 0); lia).
  assert (Hlong : prec ctx < ndigits (Z.of_N (Z.to_N coeff'))).
  { rewrite Z2N.id by lia. apply ndigits_gt; lia. }
  destruct (_fix_drops ctx s _ exp r Hprec Hlong H) as (c' & e' & k & -> & Hk & Hval).
  rewrite Z2N.id in Hval by lia.
  exists c', e'. split; [reflexivity|].
  replace (Z.min exp e') with exp by lia.
  rewrite Z.sub_diag, Z.pow_0_r, Z.mul_1_r.
  pose proof (pow10_pos k ltac:(lia)) as HK.
  assert (HU : 10 ^ k <= 10 ^ (e' - exp)) by (apply Z.pow_le_mono_r; lia).
  assert (HK5 : 10 ^ k = 5 * (2 * 10 ^ (k - 1))).
  { replace k with (Z.succ (k - 1)) at 1 by lia.
    rewrite Z.pow_succ_r by lia. ring. }
  set (K := 10 ^ k) in *. set (U := 10 ^ (e' - exp)) in *.
  pose proof (Z.mul_div_le coeff' K HK) as Hfl.
  pose proof (Z.mul_succ_div_gt coeff' K HK) as Hfu.
  set (q := coeff' / K) in *.
  assert (Hlow : q * K <= coeff).
  { unfold coeff' in *. destruct (coeff mod 5 =? 0) eqn:H5; [|lia].
    apply Z.eqb_eq in H5.
    destruct (Z.eq_dec (q * K) (coeff + 1)) as [Heq|Hne]; [|lia].
    exfalso.
    assert (Hm : (coeff + 1) mod 5 = 0).
    { rewrite <- Heq, HK5.
      replace (q * (5 * (2 * 10 ^ (k - 1)))) with (q * (2 * 10 ^ (k - 1)) * 5) by ring.
      apply Z.mod_mul. lia. }
    pose proof (Z.div_mod coeff 5 ltac:(lia)).
    pose proof (Z.div_mod (coeff + 1) 5 ltac:(lia)). lia. }
  assert (Hlo2 : q * K * Dn < N).
  { assert (q * K * Dn <= coeff * Dn) by (apply Z.mul_le_mono_nonneg_r; lia). lia. }
  assert (Hhi2 : N < (q + 1) * K * Dn).
  { assert ((coeff + 1) * Dn <= (q + 1) * K * Dn)
      by (apply Z.mul_le_mono_nonneg_r; lia). lia. }
  assert (HKU : K * Dn <= U * Dn) by (apply Z.mul_le_mono_nonneg_r; lia).
  replace (Z.of_N c' * Dn * U) with (Z.of_N c' * U * Dn) by ring.
  destruct Hval as [Hv|Hv]; rewrite Hv; lia.
Qed.

(** The quotient without a remainder, its trailing zeros stripped. *)
Lemma div_stripped (ctx : Context) (s : bool) (N Dn exp : Z) (fuel : nat)
    (ideal : Z) (r : Decimal) :
  0 < prec ctx -> 0 < Dn -> Dn <= N -> N mod Dn = 0 ->
  (let '(c1, e1) := strip_zeros fuel (N / Dn) exp ideal in
   _fix ctx (Finite s (Z.to_N c1) e1)) = Ok r ->
  exists c' e',
    r = Finite s c' e'
    /\ Z.abs (Z.of_N c' * Dn * 10 ^ (e' - Z.min exp e') - N * 10 ^ (exp - Z.min exp e'))
       < Dn * 10 ^ (e' - Z.min exp e').
Proof.
  intros Hprec HD Hbig Hrem H.
  assert (Hcoeff : 0 < N / Dn) by (apply Z.div_str_pos; lia).
  assert (HN : N = Dn * (N / Dn))
    by (pose proof (Z.div_mod N Dn ltac:(lia)); lia).
  set (coeff := N / Dn) in *.
  destruct (strip_zeros_value fuel coeff exp ideal Hcoeff)
    as (c1 & e1 & Hs & Hc1 & Hle & _ & Hval).
  rewrite Hs in H.
  destruct (_fix_error ctx s _ e1 r Hprec H) as (c' & e' & -> & Herr).
  rewrite Z2N.id in Herr by lia.
  exists c', e'. split; [reflexivity|].
  set (mc := Z.min exp e'). set (m1 := Z.min e1 e') in *.
  assert (Hm : mc <= m1) by lia.
  pose proof (pow10_pos (m1 - mc) ltac:(lia)) as HP.
  apply (scaled_lt _ _ _ (10 ^ (m1 - mc)) HP) in Herr.
  rewrite <- !Z.mul_assoc, <- !Z.pow_add_r in Herr by lia.
  replace (e' - m1 + (m1 - mc)) with (e' - mc) in Herr by lia.
  replace (e1 - m1 + (m1 - mc)) with ((e1 - exp) + (exp - mc)) in Herr by lia.
  rewrite Z.pow_add_r, Z.mul_assoc, <- Hval in Herr by lia.
  pose proof (pow10_pos (e' - mc) ltac:(lia)) as HA.
  rewrite HN.
  replace (Z.of_N c' * Dn * 10 ^ (e' - mc) - Dn * coeff * 10 ^ (exp - mc))
    with ((Z.of_N c' * 10 ^ (e' - mc) - coeff * 10 ^ (exp - mc)) * Dn) by ring.
  rewrite Z.abs_mul, (Z.abs_eq Dn), (Z.mul_comm Dn) by lia.
  apply Z.mul_lt_mono_pos_r; assumption.
Qed.

(** X20: [Division] rounds the exact quotient.  For finite operands, in a
    context with a positive precision, a result of [Division.execute] is a
    finite decimal [r] with the sign of the quotient, and [r * b] differs
    from [a] by less than [b] times one unit of the last digit of [r]. *)
Theorem Division_execute_rounds :
  forall (ctx : Context) (sa : bool) (ca : N) (ea : Z)
         (sb : bool) (cb : N) (eb : Z) (r : Decimal),
    0 < prec ctx ->
    Division_execute ctx (Finite sa ca ea) (Finite sb cb eb) = Ok r ->
    exists c e,
      r = Finite (xorb sa sb) c e
      /\ let m := Z.min (e + eb) ea in
         Z.abs (Z.of_N c * Z.of_N cb * 10 ^ (e + eb - m) - Z.of_N ca * 10 ^ (ea - m))
         < Z.of_N cb * 10 ^ (e + eb - m).
Proof.
  intros ctx sa ca ea sb cb eb r Hprec Hr.
  unfold Division_execute, truediv in Hr. cbn [_check_nans _sign] in Hr.
  cbv zeta in Hr.
  destruct (Z.of_N cb =? 0) eqn:Hzb;
    [destruct (Z.of_N ca =? 0); discriminate Hr|].
  apply Z.eqb_neq in Hzb. assert (Hcb : 0 < Z.of_N cb) by lia.
  destruct (Z.of_N ca =? 0) eqn:Hza.
  { apply Z.eqb_eq in Hza.
    destruct (_fix_error ctx _ _ _ _ Hprec Hr) as (c & e & -> & Herr).
    exists c, e. split; [reflexivity|]. cbv zeta.
    change (Z.of_N 0) with 0 in Herr. rewrite Z.mul_0_l, Z.sub_0_r in Herr.
    pose proof (pow10_pos (e - Z.min (ea - eb) e) ltac:(lia)) as HP.
    assert (Hc0 : Z.of_N c = 0) by nia.
    rewrite Hc0, Hza, !Z.mul_0_l. simpl.
    pose proof (pow10_pos (e + eb - Z.min (e + eb) ea) ltac:(lia)). nia. }
  apply Z.eqb_neq in Hza. assert (Hca : 0 < Z.of_N ca) by lia.
  destruct (ndigits_bounds _ Hca) as [Hloa Hhia].
  destruct (ndigits_bounds _ Hcb) as [Hlob Hhib].
  pose proof (ndigits_pos (Z.of_N ca)) as Hna.
  pose proof (ndigits_pos (Z.of_N cb)) as Hnb.
  pose proof (pow10_pos (prec ctx) ltac:(lia)) as Hpp.
  set (A := Z.of_N ca) in *. set (B := Z.of_N cb) in *.
  set (na := ndigits A) in *. set (nb := ndigits B) in *.
  set (shift := nb - na + prec ctx + 1) in *.
  set (exp := ea - eb - shift) in *.
  destruct (0 <=? shift) eqn:Hshift; cbv beta iota in Hr.
  - apply Z.leb_le in Hshift.
    pose proof (pow10_pos shift Hshift) as Hps.
    assert (Hbig : B * 10 ^ prec ctx <= A * 10 ^ shift).
    { assert (H1 : 10 ^ (nb + prec ctx) <= A * 10 ^ shift).
      { replace (nb + prec ctx) with ((na - 1) + shift) by (unfold shift; lia).
        rewrite Z.pow_add_r by lia. apply Z.mul_le_mono_nonneg_r; lia. }
      rewrite Z.pow_add_r in H1 by lia.
      assert (B * 10 ^ prec ctx <= 10 ^ nb * 10 ^ prec ctx)
        by (apply Z.mul_le_mono_nonneg_r; lia).
      lia. }
    assert (Hcore : exists c' e',
               r = Finite (xorb sa sb) c' e'
               /\ Z.abs (Z.of_N c' * B * 10 ^ (e' - Z.min exp e')
                         - A * 10 ^ shift * 10 ^ (exp - Z.min exp e'))
                  < B * 10 ^ (e' - Z.min exp e')).
    { destruct (negb (A * 10 ^ shift mod B =? 0)) eqn:Hrem; cbv beta iota in Hr.
      - apply negb_true_iff, Z.eqb_neq in Hrem.
        apply (div_sticky ctx _ _ _ _ r Hprec Hcb Hbig Hrem Hr).
      - apply negb_false_iff, Z.eqb_eq in Hrem.
        assert (Hge : B <= A * 10 ^ shift) by nia.
        apply (div_stripped ctx _ _ _ _ _ _ r Hprec Hcb Hge Hrem Hr). }
    destruct Hcore as (c' & e' & -> & Herr).
    exists c', e'. split; [reflexivity|]. cbv zeta.
    set (mc := Z.min exp e') in *.
    apply (rebase _ _ _ _ _ (mc + eb)); [unfold mc, exp; lia..|].
    replace (e' + eb - (mc + eb)) with (e' - mc) by lia.
    replace (ea - (mc + eb)) with (shift + (exp - mc)) by (unfold exp; lia).
    rewrite Z.pow_add_r, Z.mul_assoc by (unfold mc; lia).
    exact Herr.
  - apply Z.leb_gt in Hshift.
    pose proof (pow10_pos (- shift) ltac:(lia)) as Hps.
    assert (Hbig : B * 10 ^ (- shift) * 10 ^ prec ctx <= A).
    { rewrite <- Z.mul_assoc, <- Z.pow_add_r by lia.
      replace (- shift + prec ctx) with (na - 1 - nb) by (unfold shift; lia).
      assert (H1 : B * 10 ^ (na - 1 - nb) <= 10 ^ nb * 10 ^ (na - 1 - nb)).
      { apply Z.mul_le_mono_nonneg_r; [|lia].
        pose proof (pow10_pos (na - 1 - nb) ltac:(unfold shift in Hshift; lia)). lia. }
      rewrite <- Z.pow_add_r in H1 by (unfold shift in Hshift; lia).
      replace (nb + (na - 1 - nb)) with (na - 1) in H1 by lia. lia. }
    assert (HDn : 0 < B * 10 ^ (- shift)) by nia.
    assert (Hcore : exists c' e',
               r = Finite (xorb sa sb) c' e'
               /\ Z.abs (Z.of_N c' * (B * 10 ^ (- shift)) * 10 ^ (e' - Z.min exp e')
                         - A * 10 ^ (exp - Z.min exp e'))
                  < B * 10 ^ (- shift) * 10 ^ (e' - Z.min exp e')).
    { destruct (negb (A mod (B * 10 ^ (- shift)) =? 0)) eqn:Hrem; cbv beta iota in Hr.
      - apply negb_true_iff, Z.eqb_neq in Hrem.
        apply (div_sticky ctx _ _ _ _ r Hprec HDn Hbig Hrem Hr).
      - apply negb_false_iff, Z.eqb_eq in Hrem.
        assert (Hge : B * 10 ^ (- shift) <= A) by nia.
        apply (div_stripped ctx _ _ _ _ _ _ r Hprec HDn Hge Hrem Hr). }
    destruct Hcore as (c' & e' & -> & Herr).
    exists c', e'. split; [reflexivity|]. cbv zeta.
    set (mc := Z.min exp e') in *.
    apply (rebase _ _ _ _ _ (mc + eb + shift)); [unfold mc, exp; lia..|].
    replace (e' + eb - (mc + eb + shift)) with (- shift + (e' - mc)) by lia.
    replace (ea - (mc + eb + shift)) with (exp - mc) by (unfold exp; lia).
    rewrite Z.pow_add_r by (unfold mc; lia).
    rewrite !Z.mul_assoc. rewrite !Z.mul_assoc in Herr. exact Herr.
Qed.

Lemma Division_execute_rounds_witness :
  exists c e,
    Finite false 3333333333333333333333333333 (-28) = Finite (xorb false false) c e
    /\ let m := Z.min (e + 0) 0 in
       Z.abs (Z.of_N c * Z.of_N 3 * 10 ^ (e + 0 - m) - Z.of_N 1 * 10 ^ (0 - m))
       < Z.of_N 3 * 10 ^ (e + 0 - m).
Proof.
  apply (Division_execute_rounds DefaultContext false 1 0 false 3 0).
  - reflexivity.
  - vm_compute. reflexivity.
Defined.

(** The same comparison at a lower common exponent. *)
Lemma rebase_down (A B C x y m0 m : Z) :
  m <= m0 -> m0 <= x -> m0 <= y ->
  Z.abs (A * 10 ^ (x - m0) - B * 10 ^ (y - m0)) < C * 10 ^ (x - m0) ->
  Z.abs (A * 10 ^ (x - m) - B * 10 ^ (y - m)) < C * 10 ^ (x - m).
Proof.
  intros H0 Hx Hy Hlt.
  pose proof (pow10_pos (m0 - m) ltac:(lia)) as HP.
  apply (proj2 (scaled_lt _ _ _ (10 ^ (m0 - m)) HP)) in Hlt.
  rewrite <- !Z.mul_assoc, <- !Z.pow_add_r in Hlt by lia.
  replace (x - m0 + (m0 - m)) with (x - m) in Hlt by lia.
  replace (y - m0 + (m0 - m)) with (y - m) in Hlt by lia.
  exact Hlt.
Qed.

(** [_fix_error] with the sign, at any common exponent. *)
Lemma _fix_signed (ctx : Context) (s : bool) (X e : Z) (r : Decimal) :
  0 < prec ctx -> 0 <= X ->
  _fix ctx (Finite s (Z.to_N X) e) = Ok r ->
  exists c' e',
    r = Finite s c' e'
    /\ forall m, m <= e -> m <= e' ->
         Z.abs (units m s c' e' - sgn s * X * 10 ^ (e - m)) < 10 ^ (e' - m).
Proof.
  intros Hprec HX H.
  destruct (_fix_error ctx s _ e r Hprec H) as (c' & e' & -> & Herr).
  rewrite Z2N.id in Herr by exact HX.
  exists c', e'. split; [reflexivity|]. intros m Hme Hme'.
  rewrite <- (Z.mul_1_l (10 ^ (e' - Z.min e e'))) in Herr at 2.
  apply (rebase_down _ _ _ _ _ _ m) in Herr; try lia.
  unfold units. destruct s; unfold sgn; lia.
Qed.

(** The sum with an operand too small to matter: the one that
    [_normalize] puts in its place keeps the rounding of [_fix] on the
    side of the exact sum. *)
Lemma add_sticky (ctx : Context) (s : bool) (Bg W B d exp : Z) (r : Decimal) :
  0 < prec ctx ->
  10 ^ (prec ctx + 1) <= Bg -> Bg mod 10 = 0 -> 0 < B < W ->
  d = 1 \/ d = -1 ->
  _fix ctx (Finite s (Z.to_N (Bg + d)) exp) = Ok r ->
  exists c' e',
    r = Finite s c' e'
    /\ exp < e'
    /\ Z.abs (Z.of_N c' * 10 ^ (e' - exp) * W - (Bg * W + d * B))
       < 10 ^ (e' - exp) * W.
Proof.
  intros Hprec Hbig Hten HB Hd H.
  pose proof (pow10_pos (prec ctx) ltac:(lia)) as Hpp.
  assert (Hpp1 : 10 ^ (prec ctx + 1) = 10 * 10 ^ prec ctx)
    by (rewrite Z.pow_add_r, Z.pow_1_r by lia; ring).
  assert (HX : 10 ^ prec ctx <= Bg + d) by lia.
  assert (Hlong : prec ctx < ndigits (Z.of_N (Z.to_N (Bg + d)))).
  { rewrite Z2N.id by lia. apply ndigits_gt; lia. }
  destruct (_fix_drops ctx s _ exp r Hprec Hlong H) as (c' & e' & k & -> & Hk & Hval).
  rewrite Z2N.id in Hval by lia.
  exists c', e'. split; [reflexivity|]. split; [lia|].
  pose proof (pow10_pos k ltac:(lia)) as HK.
  assert (HU : 10 ^ k <= 10 ^ (e' - exp)) by (apply Z.pow_le_mono_r; lia).
  assert (HK10 : 10 ^ k = 10 ^ (k - 1) * 10).
  { replace k with (Z.succ (k - 1)) at 1 by lia.
    rewrite Z.pow_succ_r by lia. ring. }
  set (K := 10 ^ k) in *. set (U := 10 ^ (e' - exp)) in *.
  pose proof (Z.mul_div_le (Bg + d) K HK) as Hfl.
  pose proof (Z.mul_succ_div_gt (Bg + d) K HK) as Hfu.
  set (q := (Bg + d) / K) in *.
  assert (HqK : (q * K) mod 10 = 0).
  { rewrite HK10, Z.mul_assoc. apply Z.mod_mul. lia. }
  pose proof (Z.div_mod Bg 10 ltac:(lia)) as HBg.
  pose proof (Z.div_mod (q * K) 10 ltac:(lia)) as HqK'.
  assert (Hlo : q * K * W < Bg * W + d * B /\ Bg * W + d * B < (q + 1) * K * W).
  { destruct Hd as [-> | ->].
    - assert (HqB : q * K <= Bg) by lia.
      assert (q * K * W <= Bg * W) by (apply Z.mul_le_mono_nonneg_r; lia).
      assert ((Bg + 1) * W <= (q + 1) * K * W)
        by (apply Z.mul_le_mono_nonneg_r; lia).
      lia.
    - assert (q * K * W <= (Bg - 1) * W) by (apply Z.mul_le_mono_nonneg_r; lia).
      assert (Bg * W <= (q + 1) * K * W) by (apply Z.mul_le_mono_nonneg_r; lia).
      lia. }
  assert (HKU : K * W <= U * W) by (apply Z.mul_le_mono_nonneg_r; lia).
  destruct Hval as [Hv|Hv]; rewrite Hv; lia.
Qed.

(** An addition of two finite operands other than zero, the second with
    the smaller exponent. *)
Lemma add_rounds_ge (ctx : Context) (sa : bool) (ca : N) (ea : Z)
    (sb : bool) (cb : N) (eb : Z) (r : Decimal) :
  0 < prec ctx -> ca <> 0%N -> cb <> 0%N -> eb <= ea ->
  add ctx (Finite sa ca ea) (Finite sb cb eb) = Ok r ->
  exists sr cr er,
    r = Finite sr cr er
    /\ Z.abs (units (Z.min eb er) sr cr er
              - (units (Z.min eb er) sa ca ea + units (Z.min eb er) sb cb eb))
       < 10 ^ (er - Z.min eb er).
Proof.
  intros Hprec Hca Hcb Hle H.
  unfold add in H. cbn [_check_nans] in H. cbv zeta in H.
  replace (Z.of_N ca =? 0) with false in H by (symmetry; apply Z.eqb_neq; lia).
  replace (Z.of_N cb =? 0) with false in H by (symmetry; apply Z.eqb_neq; lia).
  cbn [andb] in H.
  assert (HA : 0 < Z.of_N ca) by lia. assert (HB : 0 < Z.of_N cb) by lia.
  destruct (ndigits_bounds _ HA) as [Hloa Hhia].
  destruct (ndigits_bounds _ HB) as [Hlob Hhib].
  pose proof (ndigits_pos (Z.of_N ca)) as Hna.
  pose proof (ndigits_pos (Z.of_N cb)) as Hnb.
  set (A := Z.of_N ca) in *. set (B := Z.of_N cb) in *.
  set (na := ndigits A) in *. set (nb := ndigits B) in *.
  unfold _normalize in H. fold na nb in H.
  replace (ea <? eb) with false in H by (symmetry; apply Z.ltb_ge; lia).
  replace (Z.min ea eb) with eb in H by lia.
  set (exp := ea + Z.min (-1) (na - prec ctx - 2)) in *.
  destruct (nb + eb - 1 <? exp) eqn:Hrep; cbv beta iota in H.
  - (* the second operand is too small to matter *)
    apply Z.ltb_lt in Hrep.
    pose proof (pow10_pos (ea - exp) ltac:(unfold exp; lia)) as Hpe.
    set (Bg := A * 10 ^ (ea - exp)) in *.
    assert (HBgn : ndigits Bg = na + (ea - exp))
      by (apply ndigits_shift; [exact HA|unfold exp; lia]).
    assert (Hbig : 10 ^ (prec ctx + 1) <= Bg).
    { assert (H0 : 0 < Bg) by (unfold Bg; nia).
      destruct (ndigits_bounds Bg H0) as [Hl _]. rewrite HBgn in Hl.
      pose proof (Z.pow_le_mono_r 10 (prec ctx + 1) (na + (ea - exp) - 1)
                    ltac:(lia) ltac:(unfold exp; lia)). lia. }
    assert (Hten : Bg mod 10 = 0).
    { unfold Bg. replace (ea - exp) with (Z.succ (ea - exp - 1)) by lia.
      rewrite Z.pow_succ_r by (unfold exp; lia).
      replace (A * (10 * 10 ^ (ea - exp - 1))) with (A * 10 ^ (ea - exp - 1) * 10)
        by ring.
      apply Z.mod_mul. lia. }
    pose proof (pow10_pos (prec ctx + 1) ltac:(lia)) as Hpp.
    assert (Hpp10 : 10 <= 10 ^ (prec ctx + 1)).
    { pose proof (Z.pow_le_mono_r 10 1 (prec ctx + 1) ltac:(lia) ltac:(lia)).
      rewrite Z.pow_1_r in *. lia. }
    set (W := 10 ^ (exp - eb)).
    assert (HBW : 0 < B < W).
    { split; [exact HB|]. unfold W.
      pose proof (Z.pow_le_mono_r 10 nb (exp - eb) ltac:(lia) ltac:(lia)). lia. }
    assert (HBgW : A * 10 ^ (ea - eb) = Bg * W).
    { unfold Bg, W. rewrite <- Z.mul_assoc, <- Z.pow_add_r by (unfold exp; lia).
      do 2 f_equal. lia. }
    assert (Hcore : exists d sr,
               (d = 1 \/ d = -1)
               /\ sgn sr * d = sgn sa * sgn sb * sgn sr /\ sr = sa
               /\ _fix ctx (Finite sr (Z.to_N (Bg + d)) exp) = Ok r).
    { destruct (negb (eqb sa sb)) eqn:Hs.
      - replace (Bg =? 1) with false in H by (symmetry; apply Z.eqb_neq; lia).
        replace (Bg <? 1) with false in H by (symmetry; apply Z.ltb_ge; lia).
        exists (-1), sa. repeat split; [right; reflexivity| |exact H].
        destruct sa, sb; try discriminate Hs; reflexivity.
      - exists 1, sa. repeat split; [left; reflexivity| |exact H].
        destruct sa, sb; try discriminate Hs; reflexivity. }
    destruct Hcore as (d & sr & Hd & Hsign & -> & Hfix).
    destruct (add_sticky ctx sa Bg W B d exp r Hprec Hbig Hten HBW Hd Hfix)
      as (c' & e' & -> & He' & Herr).
    exists sa, c', e'. split; [reflexivity|].
    replace (Z.min eb e') with eb by (unfold exp in *; lia).
    unfold units. fold A B. rewrite Z.sub_diag, Z.pow_0_r, Z.mul_1_r.
    replace (e' - eb) with ((e' - exp) + (exp - eb)) by lia.
    rewrite Z.pow_add_r by (unfold exp in *; lia). fold W.
    rewrite <- (Z.mul_assoc (sgn sa) A), HBgW.
    set (U := 10 ^ (e' - exp)) in *.
    assert (Hsb : sgn sb = sgn sa * d).
    { destruct sa, sb; unfold sgn in *; lia. }
    rewrite Hsb. destruct sa; unfold sgn; lia.
  - (* both operands at the exponent of the second *)
    apply Z.ltb_ge in Hrep.
    pose proof (pow10_pos (ea - eb) ltac:(lia)) as Hpe.
    set (i1 := A * 10 ^ (ea - eb)) in *.
    assert (Hi1 : 0 < i1) by (unfold i1; nia).
    assert (Hcore : exists sr X,
               0 <= X /\ sgn sr * X = sgn sa * i1 + sgn sb * B
               /\ _fix ctx (Finite sr (Z.to_N X) eb) = Ok r).
    { destruct (negb (eqb sa sb)) eqn:Hs.
      - destruct (Z.eqb_spec i1 B) as [Heq|Hne].
        + eexists. exists 0. split; [lia|]. split; [|exact H].
          destruct sa, sb; try discriminate Hs; unfold sgn; lia.
        + destruct (Z.ltb_spec i1 B) as [Hlt|Hge].
          * exists sb, (B - i1). split; [lia|]. split; [|exact H].
            destruct sa, sb; try discriminate Hs; unfold sgn; lia.
          * exists sa, (i1 - B). split; [lia|]. split; [|exact H].
            destruct sa, sb; try discriminate Hs; unfold sgn; lia.
      - exists sa, (i1 + B). split; [lia|]. split; [|exact H].
        destruct sa, sb; try discriminate Hs; unfold sgn; lia. }
    destruct Hcore as (sr & X & HX & Hsum & Hfix).
    destruct (_fix_signed ctx sr X eb r Hprec HX Hfix) as (c' & e' & -> & Herr).
    exists sr, c', e'. split; [reflexivity|].
    specialize (Herr (Z.min eb e') ltac:(lia) ltac:(lia)).
    rewrite Hsum in Herr.
    unfold units at 2 3. fold A B.
    replace (ea - Z.min eb e') with ((ea - eb) + (eb - Z.min eb e')) by lia.
    rewrite Z.pow_add_r by lia. fold i1.
    replace (sgn sa * A * (10 ^ (ea - eb) * 10 ^ (eb - Z.min eb e'))
             + sgn sb * B * 10 ^ (eb - Z.min eb e'))
      with ((sgn sa * i1 + sgn sb * B) * 10 ^ (eb - Z.min eb e'))
      by (unfold i1; ring).
    exact Herr.
Qed.

Lemma units_zero (m : Z) (s : bool) (e : Z) : units m s 0 e = 0.
Proof. unfold units. change (Z.of_N 0) with 0. ring. Qed.

Lemma units_negb (m : Z) (s : bool) (c : N) (e : Z) :
  units m (negb s) c e = - units m s c e.
Proof. unfold units. destruct s; unfold sgn; cbn [negb]; ring. Qed.

(** An addition of finite operands rounds their exact sum. *)
Lemma add_rounds (ctx : Context) (sa : bool) (ca : N) (ea : Z)
    (sb : bool) (cb : N) (eb : Z) (r : Decimal) :
  0 < prec ctx ->
  add ctx (Finite sa ca ea) (Finite sb cb eb) = Ok r ->
  exists sr cr er,
    r = Finite sr cr er
    /\ let m := Z.min (Z.min ea eb) er in
       Z.abs (units m sr cr er - (units m sa ca ea + units m sb cb eb))
       < 10 ^ (er - m).
Proof.
  intros Hprec H. cbv zeta.
  destruct (N.eq_dec ca 0%N) as [->|Hca]; [|destruct (N.eq_dec cb 0%N) as [->|Hcb]].
  - (* the first operand is zero *)
    unfold add in H. cbn [_check_nans] in H. cbv zeta in H.
    change (Z.of_N 0 =? 0) with true in H. cbn [andb] in H.
    assert (Hcore : exists X e0,
               0 <= X /\ Z.min ea eb <= e0
               /\ X * 10 ^ (e0 - Z.min ea eb)
                  = Z.of_N cb * 10 ^ (eb - Z.min ea eb)
               /\ exists s0, (X <> 0 -> s0 = sb)
                             /\ _fix ctx (Finite s0 (Z.to_N X) e0) = Ok r).
    { destruct (Z.of_N cb =? 0) eqn:Hzb.
      - apply Z.eqb_eq in Hzb. exists 0, (Z.min ea eb).
        rewrite Hzb. repeat split; try lia. eexists. split; [|exact H]. lia.
      - apply Z.eqb_neq in Hzb.
        rewrite _rescale_pad in H by lia.
        pose proof (pow10_pos (eb - Z.max (Z.min ea eb) (eb - prec ctx - 1))
                      ltac:(lia)).
        eexists. eexists. split; [|split; [|split; [|exists sb; split;
                                                     [reflexivity|exact H]]]].
        + nia.
        + lia.
        + rewrite <- Z.mul_assoc, <- Z.pow_add_r by lia. do 2 f_equal. lia. }
    destruct Hcore as (X & e0 & HX & He0 & Hval & s0 & Hs0 & Hfix).
    destruct (_fix_signed ctx s0 X e0 r Hprec HX Hfix) as (c' & e' & -> & Herr).
    exists s0, c', e'. split; [reflexivity|].
    set (m := Z.min (Z.min ea eb) e').
    specialize (Herr m ltac:(lia) ltac:(lia)).
    rewrite units_zero, Z.add_0_l.
    replace (units m sb cb eb) with (sgn s0 * X * 10 ^ (e0 - m)); [exact Herr|].
    unfold units.
    replace (e0 - m) with ((e0 - Z.min ea eb) + (Z.min ea eb - m)) by lia.
    replace (eb - m) with ((eb - Z.min ea eb) + (Z.min ea eb - m)) by lia.
    rewrite !Z.pow_add_r by lia.
    replace (sgn sb * Z.of_N cb
             * (10 ^ (eb - Z.min ea eb) * 10 ^ (Z.min ea eb - m)))
      with (sgn sb * (Z.of_N cb * 10 ^ (eb - Z.min ea eb))
            * 10 ^ (Z.min ea eb - m)) by ring.
    rewrite <- Hval.
    destruct (Z.eq_dec X 0) as [->|HX0]; [ring|].
    rewrite (Hs0 HX0). ring.
  - (* the second operand is zero *)
    unfold add in H. cbn [_check_nans] in H. cbv zeta in H.
    replace (Z.of_N ca =? 0) with false in H by (symmetry; apply Z.eqb_neq; lia).
    change (Z.of_N 0 =? 0) with true in H. cbn [andb] in H.
    rewrite _rescale_pad in H by lia.
    pose proof (pow10_pos (ea - Z.max (Z.min ea eb) (ea - prec ctx - 1))
                  ltac:(lia)) as HP.
    set (e0 := Z.max (Z.min ea eb) (ea - prec ctx - 1)) in *.
    assert (HX : 0 <= Z.of_N ca * 10 ^ (ea - e0)) by nia.
    destruct (_fix_signed ctx sa _ e0 r Hprec HX H) as (c' & e' & -> & Herr).
    exists sa, c', e'. split; [reflexivity|].
    set (m := Z.min (Z.min ea eb) e').
    specialize (Herr m ltac:(unfold e0; lia) ltac:(lia)).
    rewrite units_zero, Z.add_0_r.
    replace (units m sa ca ea) with (sgn sa * (Z.of_N ca * 10 ^ (ea - e0)) * 10 ^ (e0 - m));
      [exact Herr|].
    unfold units. rewrite <- !Z.mul_assoc, <- Z.pow_add_r by (unfold e0; lia).
    do 3 f_equal. lia.
  - destruct (Z.le_gt_cases eb ea) as [Hle|Hgt].
    + destruct (add_rounds_ge ctx sa ca ea sb cb eb r Hprec Hca Hcb Hle H)
        as (sr & cr & er & -> & Herr).
      exists sr, cr, er. split; [reflexivity|].
      replace (Z.min ea eb) with eb by lia. exact Herr.
    + rewrite add_Finite_comm in H.
      destruct (add_rounds_ge ctx sb cb eb sa ca ea r Hprec Hcb Hca ltac:(lia) H)
        as (sr & cr & er & -> & Herr).
      exists sr, cr, er. split; [reflexivity|].
      replace (Z.min ea eb) with ea by lia. rewrite Z.add_comm. exact Herr.
Qed.

(** X21: [Addition] and [Subtraction] round the exact sum and difference.
    For finite operands, in a context with a positive precision, a result
    of [Addition.execute] or [Subtraction.execute] is a finite decimal
    that differs from the exact sum, or difference, of the operands by
    less than one unit of its last digit. *)
Theorem Addition_Subtraction_execute_round :
  forall (ctx : Context) (sa : bool) (ca : N) (ea : Z)
         (sb : bool) (cb : N) (eb : Z) (r : Decimal),
    0 < prec ctx ->
    (Addition_execute ctx (Finite sa ca ea) (Finite sb cb eb) = Ok r ->
     exists sr cr er,
       r = Finite sr cr er
       /\ let m := Z.min (Z.min ea eb) er in
          Z.abs (units m sr cr er - (units m sa ca ea + units m sb cb eb))
          < 10 ^ (er - m))
    /\ (Subtraction_execute ctx (Finite sa ca ea) (Finite sb cb eb) = Ok r ->
        exists sr cr er,
          r = Finite sr cr er
          /\ let m := Z.min (Z.min ea eb) er in
             Z.abs (units m sr cr er - (units m sa ca ea - units m sb cb eb))
             < 10 ^ (er - m)).
Proof.
  intros ctx sa ca ea sb cb eb r Hprec. split.
  - apply add_rounds, Hprec.
  - unfold Subtraction_execute, sub. cbn [_check_nans copy_negate]. intros H.
    destruct (add_rounds ctx sa ca ea (negb sb) cb eb r Hprec H)
      as (sr & cr & er & -> & Herr).
    exists sr, cr, er. split; [reflexivity|]. cbv zeta in *.
    rewrite units_negb in Herr. rewrite <- Z.add_opp_r. exact Herr.
Qed.

Lemma Addition_Subtraction_execute_round_witness :
  (exists sr cr er,
     Finite false 1000000000000000000000000000 1 = Finite sr cr er
     /\ let m := Z.min (Z.min 28 0) er in
        Z.abs (units m sr cr er - (units m false 1 28 + units m false 1 0))
        < 10 ^ (er - m))
  /\ (exists sr cr er,
        Finite false 9999999999999999999999999999 0 = Finite sr cr er
        /\ let m := Z.min (Z.min 28 0) er in
           Z.abs (units m sr cr er - (units m false 1 28 - units m false 1 0))
           < 10 ^ (er - m)).
Proof.
  assert (Hprec : 0 < prec DefaultContext) by reflexivity.
  destruct (Addition_Subtraction_execute_round DefaultContext false 1 28 false 1 0
              (Finite false 1000000000000000000000000000 1) Hprec) as [Hadd _].
  destruct (Addition_Subtraction_execute_round DefaultContext false 1 28 false 1 0
              (Finite false 9999999999999999999999999999 0) Hprec) as [_ Hsub].
  split; [apply Hadd|apply Hsub]; vm_compute; reflexivity.
Defined.

(** ** More on division *)

(** X22: when [Division] raises.  [Division.execute(a, b)] raises
    [DivisionByZero] exactly when [a] is finite and not zero and [b] is a
    zero, and [InvalidOperation] exactly when an operand is a signaling
    NaN or, without a NaN operand, both operands are zeros or both are
    infinities. *)
Theorem Division_execute_raises_iff :
  forall (ctx : Context) (a b : Decimal),
    (Division_execute ctx a b = Raise DivisionByZero <->
       negb (_is_special a) && nonzero a && negb (nonzero b) = true)
    /\ (Division_execute ctx a b = Raise InvalidOperation <->
          is_snan a || is_snan b
          || negb (is_qnan a) && negb (is_qnan b)
             && (_isinfinity a && _isinfinity b
                 || negb (nonzero a) && negb (nonzero b)) = true).
Proof.
  intros ctx a b. unfold Division_execute.
  destruct a as [sa ca ea|sa|sa [|] pa], b as [sb cb eb|sb|sb [|] pb];
    try (split; split; intros Hx; cbn in Hx |- *;
         rewrite ?andb_false_r in Hx; first [reflexivity|discriminate Hx]).
  destruct cb as [|pb].
  - destruct ca; split; split; intros Hx; first [reflexivity|discriminate Hx].
  - destruct (truediv_Finite_fix ctx sa ca ea sb (Npos pb) eb ltac:(discriminate))
      as (c & e & Hd).
    rewrite Hd. pose proof (_fix_raises ctx (Finite (xorb sa sb) c e)) as Hraise.
    destruct (_fix ctx (Finite (xorb sa sb) c e)) as [v|x].
    + cbn. rewrite !andb_false_r.
      split; split; intros Hx; discriminate Hx.
    + rewrite (Hraise x eq_refl). cbn. rewrite !andb_false_r.
      split; split; intros Hx; discriminate Hx.
Qed.

(** The loop that strips zeros takes back the zeros that the division
    appended. *)
Lemma strip_zeros_shift (fuel : nat) :
  forall c exp,
    strip_zeros fuel (c * 10 ^ Z.of_nat fuel) exp (exp + Z.of_nat fuel)
    = (c, exp + Z.of_nat fuel).
Proof.
  induction fuel as [|fuel IH]; intros c exp.
  - cbn [strip_zeros Z.of_nat]. rewrite Z.pow_0_r, Z.mul_1_r, Z.add_0_r. reflexivity.
  - cbn [strip_zeros]. rewrite Nat2Z.inj_succ, Z.pow_succ_r by lia.
    replace (exp <? exp + Z.succ (Z.of_nat fuel)) with true
      by (symmetry; apply Z.ltb_lt; lia).
    replace (c * (10 * 10 ^ Z.of_nat fuel)) with (c * 10 ^ Z.of_nat fuel * 10) by ring.
    rewrite Z.mod_mul, Z.div_mul by lia.
    cbn [andb Z.eqb].
    replace (exp + Z.succ (Z.of_nat fuel)) with (exp + 1 + Z.of_nat fuel) by lia.
    apply IH.
Qed.

(** X23: one is neutral for [Multiplication] and [Division].  A finite
    decimal within the precision and the exponent range of the context,
    multiplied or divided by [Decimal(1)], comes back as it is, sign,
    digits and exponent. *)
Theorem Multiplication_Division_by_one :
  forall (ctx : Context) (s : bool) (c : N) (e : Z),
    0 < prec ctx ->
    Z.of_N c < 10 ^ prec ctx ->
    Etiny ctx <= e <= Etop ctx ->
    Multiplication_execute ctx (Finite s c e) Decimal_one = Ok (Finite s c e)
    /\ Division_execute ctx (Finite s c e) Decimal_one = Ok (Finite s c e).
Proof.
  intros ctx s c e Hprec Hc He. split.
  - unfold Multiplication_execute, mul, Decimal_one. cbn [_check_nans _sign].
    rewrite xorb_false_r, N.mul_1_r, Z.add_0_r.
    apply _fix_fits; assumption.
  - unfold Division_execute, truediv, Decimal_one. cbn [_check_nans _sign].
    cbv zeta. change (Z.of_N 1 =? 0) with false. cbv iota.
    rewrite xorb_false_r, !Z.sub_0_r.
    destruct (Z.of_N c =? 0) eqn:Hz.
    + apply Z.eqb_eq in Hz. assert (c = 0%N) as -> by lia.
      apply _fix_fits; assumption.
    + apply Z.eqb_neq in Hz.
      pose proof (ndigits_le (Z.of_N c) (prec ctx) ltac:(lia) Hc) as Hnd.
      pose proof (ndigits_pos (Z.of_N c)) as Hn1.
      change (ndigits (Z.of_N 1)) with 1.
      set (shift := 1 - ndigits (Z.of_N c) + prec ctx + 1).
      assert (Hshift : 0 <= shift) by (unfold shift; lia).
      replace (0 <=? shift) with true by (symmetry; apply Z.leb_le; exact Hshift).
      change (Z.of_N 1) with 1. rewrite Z.div_1_r, Z.mod_1_r.
      cbn [Z.eqb negb].
      replace (e - (e - shift)) with shift by lia.
      pose proof (strip_zeros_shift (Z.to_nat shift) (Z.of_N c) (e - shift)) as Hs.
      rewrite Z2Nat.id in Hs by exact Hshift.
      replace (e - shift + shift) with e in Hs by lia.
      rewrite Hs, N2Z.id. apply _fix_fits; assumption.
Qed.

Lemma Multiplication_Division_by_one_witness :
  Multiplication_execute DefaultContext (Finite true 1250 (-3)) Decimal_one
  = Ok (Finite true 1250 (-3))
  /\ Division_execute DefaultContext (Finite true 1250 (-3)) Decimal_one
     = Ok (Finite true 1250 (-3)).
Proof.
  apply (Multiplication_Division_by_one DefaultContext true 1250 (-3)).
  - reflexivity.
  - reflexivity.
  - split; discriminate.
Defined.
